(** * The SDLC AI extension's pipeline controller

    A shallow embedding of [SdlcAiViewProvider] (src/extension.ts): the
    controller's fields, the message handler installed by
    [resolveWebviewView], [callApiEndpoint], [processNextAgent],
    [openOutputInEditor], [validateCurrentAgentOutput], [validateTask]
    and [saveData], and the script of the page [getWebviewContent]
    returns ([startSdlcProcess], [updateAgentProgressDisplay],
    [updateAgentStatus], [resetProcess] and the listener for the
    controller's messages), followed by the properties of the pipeline,
    of its handlers and of the page. *)

From Stdlib Require Import String Ascii ZArith List Lia Bool DecimalString.
From stdpp Require Import base strings gmap.
Import ListNotations.

Local Open Scope string_scope.
Local Open Scope list_scope.
Local Open Scope Z_scope.

(** ** JavaScript values and the built-ins the controller relies on *)

Module JS.

(** The data that travels through the controller is JSON: agent replies,
    the parsed editor buffer, task values.  [JUndefined] is what reading
    an absent property gives.  The controller never computes with numbers,
    so an integer stands for a number (one that prints without an
    exponent: below 10^21 in magnitude).  The properties kept are own
    properties, in enumeration order; what a value inherits is not part
    of it. *)
#[warnings="-register-all"]
Inductive jsval : Type :=
| JUndefined
| JNull
| JBool (b : bool)
| JNum (n : Z)
| JStr (s : string)
| JArr (items : list jsval)
| JObj (props : list (string * jsval)).

(** A thrown value: an [Error] object (with its [name] and [message]), or
    any other value, kept as the text [String(value)] gives. *)
Inductive thrown : Type :=
| JsError (name message : string)
| JsThrown (text : string).

(** [String(error)], as the template literals [`${error}`] compute it. *)
Definition String_of (e : thrown) : string :=
  match e with
  | JsError name message =>
      if String.eqb message "" then name
      else if String.eqb name "" then message
      else name +:+ ": " +:+ message
  | JsThrown text => text
  end.

Definition decimal (n : nat) : string := NilZero.string_of_uint (Nat.to_uint n).

Definition decimalN (n : N) : string := NilZero.string_of_uint (N.to_uint n).

Definition decimalZ (z : Z) : string := NilZero.string_of_int (Z.to_int z).

(** The canonical array index a property name denotes, if any. *)
Definition array_index (k : string) : option nat :=
  match NilZero.uint_of_string k with
  | Some u => let n := Nat.of_uint u in
              if String.eqb (decimal n) k then Some n else None
  | None => None
  end.

Definition index_keys (n : nat) : list string := map decimal (seq 0 n).

(** Own properties of a plain object, in enumeration order. *)
Fixpoint obj_get (k : string) (props : list (string * jsval)) : option jsval :=
  match props with
  | [] => None
  | (k', v) :: rest => if String.eqb k' k then Some v else obj_get k rest
  end.

(** [o[k] = v] on a plain object: an own property is overwritten where it
    stands, a fresh one is added after the others.  That is where a fresh
    name goes unless it is an array index (those are enumerated first, in
    ascending order) or [__proto__] (assigning it adds no property);
    statements about where a fresh name lands leave these names out. *)
Fixpoint obj_set (k : string) (v : jsval) (props : list (string * jsval))
  : list (string * jsval) :=
  match props with
  | [] => [(k, v)]
  | (k', v') :: rest =>
      if String.eqb k' k then (k', v) :: rest else (k', v') :: obj_set k v rest
  end.

Fixpoint list_set (i : nat) (v : jsval) (items : list jsval) : list jsval :=
  match items, i with
  | [], _ => repeat JUndefined i ++ [v]
  | _ :: rest, O => v :: rest
  | x :: rest, S i' => x :: list_set i' v rest
  end.

(** [Object.keys(value)]. *)
Definition Object_keys (value : jsval) : thrown + list string :=
  match value with
  | JUndefined | JNull =>
      inl (JsError "TypeError" "Cannot convert undefined or null to object")
  | JBool _ | JNum _ => inr []
  | JStr s => inr (index_keys (String.length s))
  | JArr items => inr (index_keys (length items))
  | JObj props => inr (map fst props)
  end.

(** [value[k]] for reading. *)
Definition get_property (value : jsval) (k : string) : jsval :=
  match value with
  | JObj props => default JUndefined (obj_get k props)
  | JArr items =>
      match array_index k with
      | Some i => nth i items JUndefined
      | None => JUndefined
      end
  | JStr s =>
      match array_index k with
      | Some i => match String.get i s with
                  | Some c => JStr (String c EmptyString)
                  | None => JUndefined
                  end
      | None => JUndefined
      end
  | _ => JUndefined
  end.

Definition show_primitive (value : jsval) : string :=
  match value with
  | JBool true => "boolean 'true'"
  | JBool false => "boolean 'false'"
  | JNum n => "number '" +:+ decimalZ n +:+ "'"
  | JStr s => "string '" +:+ s +:+ "'"
  | _ => ""
  end.

(** Whether [k] is the index of a character of the string [value]. *)
Definition is_character (value : jsval) (k : string) : bool :=
  match value, array_index k with
  | JStr s, Some i => (i <? String.length s)%nat
  | _, _ => false
  end.

(** [target[k] = v] in strict code (the class body is strict): [null] and
    [undefined] have no properties, a primitive cannot receive one, an
    object or an array takes it.  On an array an element index is written
    (the array grows when the index is past its end); a named property of
    an array is not JSON data and is not kept.  ([length], which would
    resize the array, is taken for such a name.) *)
Definition set_property (target : jsval) (k : string) (v : jsval) : thrown + jsval :=
  match target with
  | JUndefined =>
      inl (JsError "TypeError"
             ("Cannot set properties of undefined (setting '" +:+ k +:+ "')"))
  | JNull =>
      inl (JsError "TypeError"
             ("Cannot set properties of null (setting '" +:+ k +:+ "')"))
  | JBool _ | JNum _ | JStr _ =>
      if is_character target k then
        inl (JsError "TypeError"
               ("Cannot assign to read only property '" +:+ k +:+ "' of "
                  +:+ show_primitive target))
      else
        inl (JsError "TypeError"
               ("Cannot create property '" +:+ k +:+ "' on " +:+ show_primitive target))
  | JArr items =>
      match array_index k with
      | Some i => inr (JArr (list_set i v items))
      | None => inr (JArr items)
      end
  | JObj props => inr (JObj (obj_set k v props))
  end.

End JS.
Export JS.

(** ** The controller's fields, its environment and what it emits *)

(** [initialInputs]: what the form sends with [startAgents]. *)
Record Inputs : Type := {
  requirements : string;
  context : string;
  title : string;
  agents : list string
}.

(** The fields of [SdlcAiViewProvider].  [agentOutputs] and
    [tempFilePaths] are records used as maps from agent names (own
    properties; the names the controller is given are agent names, none
    of them a member of [Object.prototype]).  The index starts at -1 and
    only ever counts dispatches, far below the precision of a number. *)
Record Controller : Type := {
  agentOutputs : gmap string jsval;
  agentSequence : list string;
  currentAgentIndex : Z;
  initialInputs : option Inputs;
  tempFilePaths : gmap string string
}.

Definition initial : Controller := {|
  agentOutputs := ∅;
  agentSequence := [];
  currentAgentIndex := -1;
  initialInputs := None;
  tempFilePaths := ∅
|}.

Definition set_agentOutputs (f : gmap string jsval -> gmap string jsval)
  (c : Controller) : Controller :=
  {| agentOutputs := f (agentOutputs c);
     agentSequence := agentSequence c;
     currentAgentIndex := currentAgentIndex c;
     initialInputs := initialInputs c;
     tempFilePaths := tempFilePaths c |}.

Definition set_currentAgentIndex (f : Z -> Z) (c : Controller) : Controller :=
  {| agentOutputs := agentOutputs c;
     agentSequence := agentSequence c;
     currentAgentIndex := f (currentAgentIndex c);
     initialInputs := initialInputs c;
     tempFilePaths := tempFilePaths c |}.

Definition set_tempFilePaths (f : gmap string string -> gmap string string)
  (c : Controller) : Controller :=
  {| agentOutputs := agentOutputs c;
     agentSequence := agentSequence c;
     currentAgentIndex := currentAgentIndex c;
     initialInputs := initialInputs c;
     tempFilePaths := f (tempFilePaths c) |}.

(** What a [fetch] to the backend comes back with: the promise rejects
    (no connection), or a response arrives with a status and a body that
    [res.json()] reads (a JSON value, so not [undefined]) or fails to
    read. *)
Inductive fetch_result : Type :=
| NetworkFailure (e : thrown)
| HttpResponse (status : nat) (body : thrown + jsval).

(** The workbench calls of [openOutputInEditor] and [saveData]: the clock
    and, for each awaited call, the error it rejects with, if any. *)
Record workbench : Type := {
  Date_now : N;
  createDirectory : option thrown;
  writeFile : option thrown;
  openTextDocument : option thrown;
  showTextDocument : option thrown
}.

(** What one handler run finds around it: the backend's answer to the
    request it sends and the workbench's behaviour. *)
Record environment : Type := {
  reply : fetch_result;
  bench : workbench
}.

(** The text of the review document, taken as what [JSON.parse] makes of
    it: a syntax error or the value read. *)
Inductive document_text : Type :=
| Unparsable (e : thrown)
| Parses (value : jsval).

(** What the human's click on [Validate] finds: the temporary document
    (or the error opening it) and the backend's answer to the k-th
    validation request of the submission. *)
Record review : Type := {
  document : thrown + document_text;
  validation : nat -> fetch_result
}.

(** The continuation behind the button of a notification. *)
Inductive callback : Type :=
| OnValidate (agent : string)
| OnContinue.

(** Messages posted to the webview. *)
Inductive posted : Type :=
| setAgentSequence (agents : list string)
| agentsCompleted
| agentStarted (agent : string)
| validateAgent (agent : string) (tasks : list string) (outputs : jsval)
| error (message : string)
| agentValidated (agent : string) (success : bool)
| taskValidated (agentName taskName : string) (success : bool).

(** Everything a handler does that can be seen from outside. *)
Inductive event : Type :=
| PostMessage (m : posted)
| Fetch (endpoint : string) (data : jsval)
| ShowInformationMessage (text : string) (item : option (string * callback))
| ShowErrorMessage (text : string)
| ConsoleError (text : string) (e : thrown)
| ConsoleLog (data : jsval)
| CreateDirectory
| WriteFile (path : string) (content : jsval)
| OpenTextDocument (path : string)
| ShowTextDocument (path : string).

(** ** Handlers as state transformers that may throw *)

Inductive outcome (A : Type) : Type :=
| Returned (a : A)
| Threw (e : thrown).
Arguments Returned {A} a.
Arguments Threw {A} e.

(** A handler body: from the controller's fields to how it ended, the
    fields it leaves and what it emitted, oldest first. *)
Definition M (A : Type) : Type := Controller -> outcome A * Controller * list event.

Definition ret {A} (a : A) : M A := fun c => (Returned a, c, []).

Definition throw {A} (e : thrown) : M A := fun c => (Threw e, c, []).

Definition bind {A B} (m : M A) (k : A -> M B) : M B :=
  fun c =>
    match m c with
    | (Returned a, c1, es1) =>
        match k a c1 with
        | (r, c2, es2) => (r, c2, es1 ++ es2)
        end
    | (Threw e, c1, es1) => (Threw e, c1, es1)
    end.

(** [try { body } catch (error) { handler }]: what the body changed and
    emitted before it threw stays. *)
Definition try_catch {A} (body : M A) (handler : thrown -> M A) : M A :=
  fun c =>
    match body c with
    | (Returned a, c1, es1) => (Returned a, c1, es1)
    | (Threw e, c1, es1) =>
        match handler e c1 with
        | (r, c2, es2) => (r, c2, es1 ++ es2)
        end
    end.

Definition get : M Controller := fun c => (Returned c, c, []).

Definition modify (f : Controller -> Controller) : M unit :=
  fun c => (Returned tt, f c, []).

Definition emit (e : event) : M unit := fun c => (Returned tt, c, [e]).

Definition lift {A} (r : thrown + A) : M A :=
  match r with
  | inl e => throw e
  | inr a => ret a
  end.

(** An awaited workbench call that yields nothing. *)
Definition await (r : option thrown) : M unit :=
  match r with
  | Some e => throw e
  | None => ret tt
  end.

Declare Scope js_scope.
Delimit Scope js_scope with js.
Notation "x <- m ;; k" := (bind m (fun x => k))
  (at level 100, m at next level, right associativity) : js_scope.
Notation "m ;; k" := (bind m (fun _ => k))
  (at level 100, right associativity) : js_scope.
Local Open Scope js_scope.

Definition postMessage (m : posted) : M unit := emit (PostMessage m).

(** ** The methods of the provider *)

(** [res.ok]. *)
Definition res_ok (status : nat) : bool :=
  ((200 <=? status) && (status <=? 299))%nat.

(** [callApiEndpoint(endpoint, data)], with the answer the backend gives
    to this request. *)
Definition callApiEndpoint (endpoint : string) (data : jsval) (r : fetch_result)
  : M jsval :=
  emit (Fetch endpoint data) ;;
  match r with
  | NetworkFailure e => throw e
  | HttpResponse status body =>
      if res_ok status then lift body
      else throw (JsError "Error" ("API call failed with status " +:+ decimal status))
  end.

(** [this.agentOutputs[name]]: the entry of the store, [undefined]
    without one.  (For a name that every object inherits, see [inherited],
    the lookup finds the inherited member instead of [undefined].) *)
Definition stored (c : Controller) (name : string) : jsval :=
  default JUndefined (agentOutputs c !! name).

(** The members of [Object.prototype], which a lookup on the store finds
    when the store has no entry of that name. *)
Definition Object_prototype_names : list string :=
  ["constructor"; "__defineGetter__"; "__defineSetter__"; "hasOwnProperty";
   "__lookupGetter__"; "__lookupSetter__"; "isPrototypeOf"; "propertyIsEnumerable";
   "toString"; "valueOf"; "__proto__"; "toLocaleString"].

Definition inherited (name : string) : bool :=
  existsb (String.eqb name) Object_prototype_names.

(** [this.agentSequence[i]], rendered as the text a template literal
    shows when the index is out of the array. *)
Definition element (l : list string) (i : Z) : string :=
  if i <? 0 then "undefined" else default "undefined" (l !! Z.to_nat i).

(** The [switch (agent)] of [processNextAgent]: the endpoint and the
    payload of each known agent. *)
Definition invoke (agent : string) (inputs : Inputs) (c : Controller)
  (r : fetch_result) : M jsval :=
  if String.eqb agent "KnowledgeBase" then
    callApiEndpoint "/agent/knowledge"
      (JObj [("user_requirements", JStr (requirements inputs));
             ("project_context", JStr (context inputs));
             ("title", JStr (title inputs))]) r
  else if String.eqb agent "Requirements" then
    callApiEndpoint "/agent/requirements"
      (JObj [("user_requirements", JStr (requirements inputs));
             ("project_context", JStr (context inputs));
             ("title", JStr (title inputs))]) r
  else if String.eqb agent "Architecture" then
    callApiEndpoint "/agent/architecture"
      (JObj [("user_requirements", JStr (requirements inputs));
             ("project_context", JStr (context inputs));
             ("title", JStr (title inputs));
             ("requirement_output", stored c "Requirements");
             ("knowledge_output", stored c "KnowledgeBase")]) r
  else if String.eqb agent "Skeletons" then
    callApiEndpoint "/agent/skeleton"
      (JObj [("project_context", JStr (context inputs));
             ("title", JStr (title inputs));
             ("architecture_output", stored c "Architecture")]) r
  else if String.eqb agent "Generator" then
    callApiEndpoint "/agent/codegen"
      (JObj [("project_context", JStr (context inputs));
             ("title", JStr (title inputs));
             ("architecture_output", stored c "Architecture");
             ("skeleton_output", stored c "Skeletons")]) r
  else throw (JsError "Error" ("Unknown agent: " +:+ agent)).

Definition openOutputInEditor (agent : string) (output : jsval) (w : workbench)
  : M unit :=
  try_catch
    (let tempFilePath := agent +:+ "_" +:+ decimalN (Date_now w) +:+ ".json" in
     emit CreateDirectory ;;
     await (createDirectory w) ;;
     emit (WriteFile tempFilePath output) ;;
     await (writeFile w) ;;
     modify (set_tempFilePaths <[agent := tempFilePath]>) ;;
     emit (OpenTextDocument tempFilePath) ;;
     await (openTextDocument w) ;;
     emit (ShowTextDocument tempFilePath) ;;
     await (showTextDocument w) ;;
     emit (ShowInformationMessage
             (agent +:+ " results are now open in the editor. Review and validate when ready.")
             (Some ("Validate", OnValidate agent))))
    (fun err =>
       emit (ConsoleError "Error opening output in editor:" err) ;;
       throw err).

Definition processNextAgent (env : environment) : M unit :=
  modify (set_currentAgentIndex Z.succ) ;;
  c <- get ;;
  match initialInputs c with
  | None => throw (JsError "Error" "Initial inputs not set")
  | Some inputs =>
      if Z.of_nat (length (agentSequence c)) <=? currentAgentIndex c then
        postMessage agentsCompleted ;;
        emit (ShowInformationMessage "SDLC Process completed successfully" None)
      else
        let agent := element (agentSequence c) (currentAgentIndex c) in
        postMessage (agentStarted agent) ;;
        try_catch
          (output <- invoke agent inputs c (reply env) ;;
           modify (set_agentOutputs <[agent := output]>) ;;
           openOutputInEditor agent output (bench env) ;;
           tasks <- lift (Object_keys output) ;;
           postMessage (validateAgent agent tasks output))
          (fun err =>
             emit (ConsoleError ("Error in agent " +:+ agent +:+ ":") err) ;;
             postMessage (error ("Agent " +:+ agent +:+ " failed: " +:+ String_of err)))
  end.

Definition validateTask (agentName taskName : string) (output : jsval)
  (r : fetch_result) : M unit :=
  callApiEndpoint "/agent/validate"
    (JObj [("task_name", JStr taskName); ("modified_output", output)]) r ;;
  c <- get ;;
  updated <- lift (set_property (stored c agentName) taskName output) ;;
  modify (set_agentOutputs <[agentName := updated]>) ;;
  postMessage (taskValidated agentName taskName true).

(** The [for (const taskName of Object.keys(updatedOutput))] loop.
    [updatedOutput] is the very object held at [agentOutputs[agent]], into
    which [validateTask] writes, so [updatedOutput[taskName]] is read from
    the stored object.  [k] counts the requests sent so far. *)
Fixpoint validateEach (agent : string) (tasks : list string) (k : nat)
  (answers : nat -> fetch_result) : M unit :=
  match tasks with
  | [] => ret tt
  | taskName :: rest =>
      c <- get ;;
      validateTask agent taskName (get_property (stored c agent) taskName) (answers k) ;;
      validateEach agent rest (S k) answers
  end.

Definition JSON_parse (content : document_text) : M jsval :=
  match content with
  | Unparsable e => throw e
  | Parses value => ret value
  end.

Definition validateCurrentAgentOutput (agent : string) (rv : review) : M unit :=
  try_catch
    (c <- get ;;
     match tempFilePaths c !! agent with
     | None => throw (JsError "Error" ("No file found for agent " +:+ agent))
     | Some tempFilePath =>
         emit (OpenTextDocument tempFilePath) ;;
         content <- lift (document rv) ;;
         try_catch
           (updatedOutput <- JSON_parse content ;;
            modify (set_agentOutputs <[agent := updatedOutput]>) ;;
            tasks <- lift (Object_keys updatedOutput) ;;
            validateEach agent tasks 0 (validation rv) ;;
            postMessage (agentValidated agent true) ;;
            emit (ShowInformationMessage
                    (agent +:+ " output validated successfully.")
                    (Some ("Continue", OnContinue))))
           (fun err =>
              match err with
              | JsError _ message =>
                  emit (ShowErrorMessage
                          ("Invalid JSON format: " +:+ message
                             +:+ ". Please fix the errors and try again."))
              | JsThrown _ =>
                  emit (ShowErrorMessage
                          "Invalid JSON format: An unknown error occurred. Please fix the errors and try again.")
              end)
     end)
    (fun err =>
       emit (ConsoleError "Error validating agent output:" err) ;;
       match err with
       | JsError _ message =>
           emit (ShowErrorMessage ("Error validating output: " +:+ message))
       | JsThrown _ =>
           emit (ShowErrorMessage "Error validating output: An unknown error occurred.")
       end).

(** What [Buffer.from] throws when it is given [undefined].  A Node error
    prints its code after its name; the name is kept as it prints. *)
Definition no_text_error : thrown :=
  JsError "TypeError [ERR_INVALID_ARG_TYPE]"
    "The first argument must be of type string or an instance of Buffer, ArrayBuffer, or Array or an Array-like Object. Received undefined".

(** [Buffer.from(JSON.stringify(data, null, 2))], the content kept as the
    data it is the text of: [JSON.stringify] makes no text of
    [undefined], and [Buffer.from] throws on what is no text. *)
Definition Buffer_from_JSON (data : jsval) : thrown + jsval :=
  match data with
  | JUndefined => inl no_text_error
  | _ => inr data
  end.

(** [saveData(data)].  The text is made before the directory is created,
    the buffer after it, as an argument of [writeFile]. *)
Definition saveData (data : jsval) (w : workbench) : M unit :=
  emit CreateDirectory ;;
  await (createDirectory w) ;;
  content <- lift (Buffer_from_JSON data) ;;
  emit (WriteFile "user_inputs.json" content) ;;
  await (writeFile w) ;;
  emit (ShowInformationMessage "Input and results saved successfully" None).

(** The messages of the webview ([WebviewMessage]). *)
Inductive WebviewMessage : Type :=
| MsgStartAgents (data : Inputs)
| MsgContinueAgent
| MsgValidateTask (agentName taskName : string) (output : jsval)
| MsgSaveData (data : jsval)
| MsgLog (data : jsval).

(** The fields as the [startAgents] case leaves them before the first
    dispatch: inputs saved, everything else reset. *)
Definition restarted (data : Inputs) : Controller := {|
  agentOutputs := ∅;
  agentSequence := agents data;
  currentAgentIndex := -1;
  initialInputs := Some data;
  tempFilePaths := ∅
|}.

(** The listener [resolveWebviewView] installs. *)
Definition onDidReceiveMessage (message : WebviewMessage) (env : environment)
  : M unit :=
  try_catch
    match message with
    | MsgStartAgents data =>
        modify (fun _ => restarted data) ;;
        postMessage (setAgentSequence (agents data)) ;;
        processNextAgent env
    | MsgContinueAgent => processNextAgent env
    | MsgValidateTask agentName taskName output =>
        validateTask agentName taskName output (reply env)
    | MsgSaveData data => saveData data (bench env)
    | MsgLog data => emit (ConsoleLog data)
    end
    (fun err =>
       emit (ConsoleError "Error handling message:" err) ;;
       postMessage (error ("Failed to process request: " +:+ String_of err))).

(** ** Runs: the controller driven by the webview and by the human *)

#[global] Instance callback_eq_dec : EqDecision callback.
Proof. solve_decision. Defined.

(** The controller together with the notifications whose button has not
    been answered yet and everything emitted so far. *)
Record World : Type := {
  ctrl : Controller;
  pending : list callback;
  log : list event
}.

Definition boot : World := {| ctrl := initial; pending := []; log := [] |}.

(** The buttons a batch of events puts on screen. *)
Fixpoint offered (es : list event) : list callback :=
  match es with
  | [] => []
  | ShowInformationMessage _ (Some (_, cb)) :: rest => cb :: offered rest
  | _ :: rest => offered rest
  end.

(** Take one occurrence of a button off the pending ones. *)
Fixpoint answer (cb : callback) (l : list callback) : option (list callback) :=
  match l with
  | [] => None
  | cb' :: rest =>
      if decide (cb' = cb) then Some rest
      else option_map (cons cb') (answer cb rest)
  end.

(** What happens to the controller from outside: a webview message
    arrives, or the human presses (or dismisses) the button of a
    notification; each comes with what its handler finds around it. *)
Inductive stimulus : Type :=
| Receive (message : WebviewMessage) (env : environment)
| PressValidate (agent : string) (rv : review)
| PressContinue (env : environment)
| Dismiss (cb : callback).

Definition commit {A} (w : World) (open : list callback) (m : M A) : World :=
  match m (ctrl w) with
  | (_, c, es) =>
      {| ctrl := c; pending := open ++ offered es; log := log w ++ es |}
  end.

(** One stimulus, handled to its end: the calls its handler awaits are
    answered before the next stimulus is taken up, so the runs below are
    those in which no handler overtakes another one that is still waiting
    for a reply.  A button that is not on screen cannot be pressed.
    [processNextAgent] started from the [Continue] button is not awaited:
    an error it throws is lost. *)
Definition step (w : World) (s : stimulus) : World :=
  match s with
  | Receive message env => commit w (pending w) (onDidReceiveMessage message env)
  | PressValidate agent rv =>
      match answer (OnValidate agent) (pending w) with
      | Some rest => commit w rest (validateCurrentAgentOutput agent rv)
      | None => w
      end
  | PressContinue env =>
      match answer OnContinue (pending w) with
      | Some rest => commit w rest (processNextAgent env)
      | None => w
      end
  | Dismiss cb =>
      match answer cb (pending w) with
      | Some rest => {| ctrl := ctrl w; pending := rest; log := log w |}
      | None => w
      end
  end.

Definition run (w : World) (ss : list stimulus) : World := fold_left step ss w.

(** ** Sample surroundings *)

Definition calm : workbench := {|
  Date_now := 1700000000000%N;
  createDirectory := None;
  writeFile := None;
  openTextDocument := None;
  showTextDocument := None
|}.

Definition answers (body : jsval) : environment :=
  {| reply := HttpResponse 200 (inr body); bench := calm |}.

Definition refuses (status : nat) : environment :=
  {| reply := HttpResponse status (inr JNull); bench := calm |}.

Definition acknowledged : fetch_result := HttpResponse 200 (inr (JObj [])).

Definition form (names : list string) : Inputs :=
  {| requirements := "a shop"; context := "web"; title := "Shop"; agents := names |}.

Definition submits (value : jsval) : review :=
  {| document := inr (Parses value); validation := fun _ => acknowledged |}.

(** ** Reading a handler's run *)

Definition ended {A} (x : outcome A * Controller * list event) : outcome A := fst (fst x).
Definition fields {A} (x : outcome A * Controller * list event) : Controller := snd (fst x).
Definition emitted {A} (x : outcome A * Controller * list event) : list event := snd x.

(** What [callApiEndpoint] makes of the backend's answer: the error it
    throws or the body it returns. *)
Definition api_result (r : fetch_result) : thrown + jsval :=
  match r with
  | NetworkFailure e => inl e
  | HttpResponse status body =>
      if res_ok status then body
      else inl (JsError "Error" ("API call failed with status " +:+ decimal status))
  end.

(** The five names the [switch] of [processNextAgent] knows. *)
Definition known_agents : list string :=
  ["KnowledgeBase"; "Requirements"; "Architecture"; "Skeletons"; "Generator"].

(** The outputs of earlier agents each agent's payload reads, with the
    payload field that carries them (from the [switch]). *)
Definition predecessors (agent : string) : list (string * string) :=
  if String.eqb agent "Architecture" then
    [("requirement_output", "Requirements"); ("knowledge_output", "KnowledgeBase")]
  else if String.eqb agent "Skeletons" then
    [("architecture_output", "Architecture")]
  else if String.eqb agent "Generator" then
    [("architecture_output", "Architecture"); ("skeleton_output", "Skeletons")]
  else [].

(** The own property [k] of a value, if it has one. *)
Definition own_property (value : jsval) (k : string) : option jsval :=
  match value with
  | JObj props => obj_get k props
  | JArr items =>
      match array_index k with
      | Some i => nth_error items i
      | None => None
      end
  | JStr s =>
      match array_index k with
      | Some i => option_map (fun ch => JStr (String ch EmptyString)) (String.get i s)
      | None => None
      end
  | _ => None
  end.

(** The text of the notification of the inner [catch] of
    [validateCurrentAgentOutput]. *)
Definition invalidJsonMessage (err : thrown) : string :=
  match err with
  | JsError _ message =>
      "Invalid JSON format: " +:+ message +:+ ". Please fix the errors and try again."
  | JsThrown _ =>
      "Invalid JSON format: An unknown error occurred. Please fix the errors and try again."
  end.

(** Whether [needle] occurs in [text]. *)
Fixpoint occurs (needle text : string) : bool :=
  String.prefix needle text ||
  match text with
  | EmptyString => false
  | String _ rest => occurs needle rest
  end.

(** The agents dispatched since the last [startAgents], oldest first, as
    the posted [agentStarted] messages tell. *)
Fixpoint dispatches (es : list event) (acc : list string) : list string :=
  match es with
  | [] => acc
  | PostMessage (setAgentSequence _) :: rest => dispatches rest []
  | PostMessage (agentStarted agent) :: rest => dispatches rest (acc ++ [agent])
  | _ :: rest => dispatches rest acc
  end.

Definition dispatched (es : list event) : list string := dispatches es [].

(** The requests and acknowledgements of the tasks validated one after the
    other, each with the value the object holds for it. *)
Definition acknowledgements (agent : string) (value : jsval) (tasks : list string)
  : list event :=
  flat_map (fun taskName =>
              [Fetch "/agent/validate"
                 (JObj [("task_name", JStr taskName);
                        ("modified_output", get_property value taskName)]);
               PostMessage (taskValidated agent taskName true)]) tasks.

(** The endpoint and the payload the [switch] gives a known agent. *)
Definition endpoint_of (agent : string) : string :=
  if String.eqb agent "KnowledgeBase" then "/agent/knowledge"
  else if String.eqb agent "Requirements" then "/agent/requirements"
  else if String.eqb agent "Architecture" then "/agent/architecture"
  else if String.eqb agent "Skeletons" then "/agent/skeleton"
  else "/agent/codegen".

Definition payload_of (agent : string) (inputs : Inputs) (c : Controller) : jsval :=
  if String.eqb agent "KnowledgeBase" || String.eqb agent "Requirements" then
    JObj [("user_requirements", JStr (requirements inputs));
          ("project_context", JStr (context inputs));
          ("title", JStr (title inputs))]
  else if String.eqb agent "Architecture" then
    JObj [("user_requirements", JStr (requirements inputs));
          ("project_context", JStr (context inputs));
          ("title", JStr (title inputs));
          ("requirement_output", stored c "Requirements");
          ("knowledge_output", stored c "KnowledgeBase")]
  else if String.eqb agent "Skeletons" then
    JObj [("project_context", JStr (context inputs));
          ("title", JStr (title inputs));
          ("architecture_output", stored c "Architecture")]
  else
    JObj [("project_context", JStr (context inputs));
          ("title", JStr (title inputs));
          ("architecture_output", stored c "Architecture");
          ("skeleton_output", stored c "Skeletons")].

(** The part of the controller that says where the run stands. *)
Definition position (c : Controller) : list string * Z * option Inputs :=
  (agentSequence c, currentAgentIndex c, initialInputs c).

(** Events that neither start a run nor announce a dispatch. *)
Definition silent (e : event) : Prop :=
  match e with
  | PostMessage (setAgentSequence _) | PostMessage (agentStarted _) => False
  | _ => True
  end.

(** A handler body all of whose runs relate the fields before and after
    by [R] and emit only events that satisfy [P]. *)
Definition respects {A} (R : Controller -> Controller -> Prop) (P : event -> Prop)
  (m : M A) : Prop :=
  forall c, R c (fields (m c)) /\ Forall P (emitted (m c)).

Definition same_position (c c' : Controller) : Prop := position c' = position c.

(** A handler body that leaves the position alone and announces nothing. *)
Abbreviation neutral := (respects same_position silent).

(** Events that put no button on screen. *)
Definition buttonless (e : event) : Prop :=
  match e with
  | ShowInformationMessage _ (Some _) => False
  | _ => True
  end.

Definition quiet (e : event) : Prop := silent e /\ buttonless e.

(** The position is the same and no entry has left the store. *)
Definition keeps_entries (c c' : Controller) : Prop :=
  position c' = position c /\
  forall name, is_Some (agentOutputs c !! name) -> is_Some (agentOutputs c' !! name).

(** A handler body that moves nothing, drops no entry, announces nothing
    and offers no button. *)
Abbreviation discreet := (respects keeps_entries quiet).

(** A run of a handler that moves the position one step forward and
    announces the agent found there, if there is one. *)
Definition moves {A} (c : Controller) (x : outcome A * Controller * list event) : Prop :=
  agentSequence (fields x) = agentSequence c /\
  initialInputs (fields x) = initialInputs c /\
  currentAgentIndex (fields x) = currentAgentIndex c + 1 /\
  dispatches (emitted x) (take (Z.to_nat (currentAgentIndex c + 1)) (agentSequence c))
    = take (Z.to_nat (currentAgentIndex c + 2)) (agentSequence c).

(** What holds of the controller and its log all along a run. *)
Definition in_order (w : World) : Prop :=
  -1 <= currentAgentIndex (ctrl w) /\
  (initialInputs (ctrl w) = None -> agentSequence (ctrl w) = []) /\
  dispatched (log w)
    = take (Z.to_nat (currentAgentIndex (ctrl w) + 1)) (agentSequence (ctrl w)).

(** ** Notions used in the statements *)

(** Whether the human still has the [Validate] button of an agent in
    front of them: its output is out for review and not submitted yet. *)
Definition awaiting_review (w : World) (agent : string) : Prop :=
  In (OnValidate agent) (pending w).

(** A workbench none of whose calls fails. *)
Definition undisturbed (b : workbench) : Prop :=
  createDirectory b = None /\ writeFile b = None /\
  openTextDocument b = None /\ showTextDocument b = None.

(** The stimuli of a run that advances with the buttons only: anything
    but the two messages that dispatch. *)
Definition guided (s : stimulus) : Prop :=
  match s with
  | Receive (MsgStartAgents _) _ | Receive MsgContinueAgent _ => False
  | _ => True
  end.

(** A submission for the agent has been accepted, and the store has an
    entry for it. *)
Definition validated (w : World) (agent : string) : Prop :=
  In (PostMessage (agentValidated agent true)) (log w) /\
  is_Some (agentOutputs (ctrl w) !! agent).

(** Every agent before the current position has been validated. *)
Definition reviewed_so_far (w : World) : Prop :=
  forall (j : nat) agent,
    Z.of_nat j < currentAgentIndex (ctrl w) ->
    agentSequence (ctrl w) !! j = Some agent ->
    validated w agent.

(** What holds all along a run that advances with the buttons only: at
    most one button is on screen, and it belongs to the current agent. *)
Definition on_rails (w : World) : Prop :=
  0 <= currentAgentIndex (ctrl w) /\
  initialInputs (ctrl w) <> None /\
  reviewed_so_far w /\
  (pending w = [] \/
   (exists agent,
      pending w = [OnValidate agent] /\
      agentSequence (ctrl w) !! Z.to_nat (currentAgentIndex (ctrl w)) = Some agent) \/
   (pending w = [OnContinue] /\
    forall agent,
      agentSequence (ctrl w) !! Z.to_nat (currentAgentIndex (ctrl w)) = Some agent ->
      validated w agent)).

(** A run of a handler that registers no document and adds no entry to
    the store. *)
Definition no_new_entries {A} (c : Controller) (x : outcome A * Controller * list event)
  : Prop :=
  tempFilePaths (fields x) = tempFilePaths c /\
  forall name, is_Some (agentOutputs (fields x) !! name) -> is_Some (agentOutputs c !! name).

(** Every registered review document belongs to an agent with an entry in
    the store, and every entry to an agent among [started]. *)
Definition entries_accounted (c : Controller) (started : list string) : Prop :=
  (forall name, is_Some (tempFilePaths c !! name) -> is_Some (agentOutputs c !! name)) /\
  (forall name, is_Some (agentOutputs c !! name) -> In name started).

(** The store holds entries only for agents dispatched in the current
    run. *)
Definition accounted (w : World) : Prop :=
  entries_accounted (ctrl w) (dispatched (log w)).

(** Whether some failure report among the events mentions a task. *)
Definition names_failed_task (es : list event) (task : string) : Prop :=
  exists text,
    (In (ShowErrorMessage text) es \/ In (PostMessage (error text)) es) /\
    occurs task text = true.

(** The run with the sequence [Requirements] once the agent has replied:
    its output is open in the editor, waiting for the human. *)
Definition awaiting_requirements : World :=
  step boot (Receive (MsgStartAgents (form ["Requirements"]))
               (answers (JObj [("stories", JStr "login")]))).

(** The same for [Architecture], whose reply has two tasks. *)
Definition awaiting_architecture : World :=
  step boot (Receive (MsgStartAgents (form ["Architecture"]))
               (answers (JObj [("design", JStr "layers"); ("risks", JStr "none")]))).

(** The backend acknowledges the first task and rejects the others. *)
Definition second_rejected : review :=
  {| document := inr (Parses (JObj [("design", JStr "layers"); ("risks", JStr "none")]));
     validation := fun k => match k with
                            | O => acknowledged
                            | _ => HttpResponse 500 (inr JNull)
                            end |}.

(** ** Notions for the handlers' errors, requests and restarts *)

(** The requests among the events, oldest first. *)
Fixpoint requests (es : list event) : list (string * jsval) :=
  match es with
  | [] => []
  | Fetch endpoint data :: rest => (endpoint, data) :: requests rest
  | _ :: rest => requests rest
  end.

(** The tasks acknowledged to the webview, oldest first. *)
Fixpoint acknowledged_tasks (es : list event) : list (string * string) :=
  match es with
  | [] => []
  | PostMessage (taskValidated agentName taskName _) :: rest =>
      (agentName, taskName) :: acknowledged_tasks rest
  | _ :: rest => acknowledged_tasks rest
  end.

(** The request [validateTask] sends for a task and its value. *)
Definition validation_request (task : string * jsval) : string * jsval :=
  ("/agent/validate",
   JObj [("task_name", JStr (fst task)); ("modified_output", snd task)]).

(** The error of the first workbench call that fails, in the order
    [openOutputInEditor] awaits them. *)
Definition first_failure (b : workbench) : option thrown :=
  match createDirectory b with
  | Some e => Some e
  | None =>
      match writeFile b with
      | Some e => Some e
      | None =>
          match openTextDocument b with
          | Some e => Some e
          | None => showTextDocument b
          end
      end
  end.

(** The two ways [processNextAgent] is asked to go on: the [continueAgent]
    message and the [Continue] button. *)
Definition continuing (s : stimulus) : Prop :=
  match s with
  | Receive MsgContinueAgent _ | PressContinue _ => True
  | _ => False
  end.

(** A press on, or the dismissal of, a notification's button. *)
Definition pressing (s : stimulus) : Prop :=
  match s with
  | Receive _ _ => False
  | _ => True
  end.

(** How often the stimuli enter [processNextAgent] while no new button
    comes up: once for every [continueAgent] message and once for every
    press of a [Continue] button that is still on screen. *)
Fixpoint continued (open : list callback) (ss : list stimulus) : nat :=
  match ss with
  | [] => 0
  | Receive MsgContinueAgent _ :: rest => S (continued open rest)
  | PressContinue _ :: rest =>
      match answer OnContinue open with
      | Some open' => S (continued open' rest)
      | None => continued open rest
      end
  | _ :: rest => continued open rest
  end.

(** The two events that announce the end of the sequence. *)
Definition completion_notice : list event :=
  [PostMessage agentsCompleted;
   ShowInformationMessage "SDLC Process completed successfully" None].

(** Events other than the announcement of the end of the sequence. *)
Definition unfinished (e : event) : Prop :=
  match e with
  | PostMessage agentsCompleted => False
  | _ => True
  end.

(** Events other than a request to the backend. *)
Definition offline (e : event) : Prop :=
  match e with
  | Fetch _ _ => False
  | _ => True
  end.

(** The text of the notification of the outer [catch] of
    [validateCurrentAgentOutput]. *)
Definition validatingErrorMessage (err : thrown) : string :=
  match err with
  | JsError _ message => "Error validating output: " +:+ message
  | JsThrown _ => "Error validating output: An unknown error occurred."
  end.

(** No button is on screen before the first [startAgents]. *)
Definition started_if_offered (w : World) : Prop :=
  initialInputs (ctrl w) = None -> pending w = [].

(** The part of the controller a run is planned with: the sequence and
    the inputs. *)
Definition plan (c : Controller) : list string * option Inputs :=
  (agentSequence c, initialInputs c).

Definition same_plan (c c' : Controller) : Prop := plan c' = plan c.

Definition any_event (e : event) : Prop := True.

(** The end of the process is announced only once the index has left the
    sequence. *)
Definition announced_at_the_end (w : World) : Prop :=
  In (PostMessage agentsCompleted) (log w) ->
  Z.of_nat (length (agentSequence (ctrl w))) <= currentAgentIndex (ctrl w).

(** What the listener emits for a [continueAgent] message that finds no
    inputs. *)
Definition inputs_not_set_report : list event :=
  [ConsoleError "Error handling message:" (JsError "Error" "Initial inputs not set");
   PostMessage (error "Failed to process request: Error: Initial inputs not set")].

(** ** The page of the webview *)

(** The script of the page [getWebviewContent] returns.  Of the document
    the script reads and writes, the page keeps what the script can tell
    apart: the values of the form, which panels carry the class [hidden],
    the texts of the current-agent panel, the panels of the progress list,
    the error banners at the top of the body and the script's [state].
    A character is a code unit below 256, and agent names are plain text
    (the values of the five checkboxes). *)

(** The code units [trim] strips: WhiteSpace and LineTerminator. *)
Definition is_white_space (ch : ascii) : bool :=
  existsb (N.eqb (N_of_ascii ch)) [9; 10; 11; 12; 13; 32; 160]%N.

Fixpoint trimStart (s : string) : string :=
  match s with
  | EmptyString => EmptyString
  | String ch rest => if is_white_space ch then trimStart rest else s
  end.

Fixpoint trimEnd (s : string) : string :=
  match s with
  | EmptyString => EmptyString
  | String ch rest =>
      match trimEnd rest with
      | EmptyString => if is_white_space ch then EmptyString else String ch EmptyString
      | kept => String ch kept
      end
  end.

Definition trim (s : string) : string := trimEnd (trimStart s).

(** [!text]: the empty string is the one falsy string. *)
Definition falsy (text : string) : bool := String.eqb text "".

(** The five checkboxes of the form, by their ids. *)
Record Checkboxes : Type := {
  kb : bool;
  req : bool;
  arch : bool;
  skel : bool;
  gen : bool
}.

(** [document.querySelectorAll('input[type="checkbox"]:checked')] with the
    [value] of each box, in document order. *)
Definition checked_values (b : Checkboxes) : list string :=
  (if kb b then ["KnowledgeBase"] else []) ++
  (if req b then ["Requirements"] else []) ++
  (if arch b then ["Architecture"] else []) ++
  (if skel b then ["Skeletons"] else []) ++
  (if gen b then ["Generator"] else []).

(** A panel of the progress list: the element with the id
    [agent-progress-<agent>], the spinners and check marks of its heading
    and the text of its status line. *)
Record AgentPanel : Type := {
  panel_agent : string;
  panel_spinners : nat;
  panel_marks : nat;
  panel_status : string
}.

Record Page : Type := {
  requirements_value : string;
  context_value : string;
  title_value : string;
  checkboxes : Checkboxes;
  inputForm_hidden : bool;
  progressPanel_hidden : bool;
  currentAgentPanel_hidden : bool;
  completionPanel_hidden : bool;
  currentAgentName : string;
  (** [None]: the markup of the page, a spinner and "Processing..." *)
  currentAgentStatus : option string;
  agentProgress : list AgentPanel;
  (** the error banners, the newest first *)
  banners : list string;
  selectedAgents : list string;
  state_agentSequence : option (list string)
}.

(** The page as its markup gives it: every box checked, only the form
    shown. *)
Definition loaded : Page := {|
  requirements_value := "";
  context_value := "";
  title_value := "";
  checkboxes := {| kb := true; req := true; arch := true; skel := true; gen := true |};
  inputForm_hidden := false;
  progressPanel_hidden := true;
  currentAgentPanel_hidden := true;
  completionPanel_hidden := true;
  currentAgentName := "";
  currentAgentStatus := None;
  agentProgress := [];
  banners := [];
  selectedAgents := [];
  state_agentSequence := None
|}.

(** What a handler of the page does besides changing the page. *)
Inductive page_effect : Type :=
| Alert (text : string)
| VscodePostMessage (message : WebviewMessage).

(** The panels [updateAgentProgressDisplay] builds, [index] being the
    position of the first of [agents]. *)
Fixpoint fresh_panels (index : nat) (agents : list string) : list AgentPanel :=
  match agents with
  | [] => []
  | agent :: rest =>
      {| panel_agent := agent;
         panel_spinners := if (index =? 0)%nat then 1 else 0;
         panel_marks := 0;
         panel_status := "Waiting..." |} :: fresh_panels (S index) rest
  end.

Definition updateAgentProgressDisplay (agents : list string) : list AgentPanel :=
  fresh_panels 0 agents.

Definition startSdlcProcess (p : Page) : Page * list page_effect :=
  if falsy (trim (requirements_value p)) || falsy (trim (context_value p))
     || falsy (trim (title_value p))
  then (p, [Alert "Please fill in all fields"])
  else
    let agents := checked_values (checkboxes p) in
    if (length agents =? 0)%nat
    then (p, [Alert "Please select at least one agent"])
    else
      ({| requirements_value := requirements_value p;
          context_value := context_value p;
          title_value := title_value p;
          checkboxes := checkboxes p;
          inputForm_hidden := true;
          progressPanel_hidden := false;
          currentAgentPanel_hidden := currentAgentPanel_hidden p;
          completionPanel_hidden := completionPanel_hidden p;
          currentAgentName := currentAgentName p;
          currentAgentStatus := currentAgentStatus p;
          agentProgress := updateAgentProgressDisplay agents;
          banners := banners p;
          selectedAgents := agents;
          state_agentSequence := state_agentSequence p |},
       [VscodePostMessage
          (MsgStartAgents {| requirements := requirements_value p;
                             context := context_value p;
                             title := title_value p;
                             agents := agents |})]).

Definition set_agentProgress (f : list AgentPanel -> list AgentPanel) (p : Page) : Page :=
  {| requirements_value := requirements_value p;
     context_value := context_value p;
     title_value := title_value p;
     checkboxes := checkboxes p;
     inputForm_hidden := inputForm_hidden p;
     progressPanel_hidden := progressPanel_hidden p;
     currentAgentPanel_hidden := currentAgentPanel_hidden p;
     completionPanel_hidden := completionPanel_hidden p;
     currentAgentName := currentAgentName p;
     currentAgentStatus := currentAgentStatus p;
     agentProgress := f (agentProgress p);
     banners := banners p;
     selectedAgents := selectedAgents p;
     state_agentSequence := state_agentSequence p |}.

Definition set_banners (f : list string -> list string) (p : Page) : Page :=
  {| requirements_value := requirements_value p;
     context_value := context_value p;
     title_value := title_value p;
     checkboxes := checkboxes p;
     inputForm_hidden := inputForm_hidden p;
     progressPanel_hidden := progressPanel_hidden p;
     currentAgentPanel_hidden := currentAgentPanel_hidden p;
     completionPanel_hidden := completionPanel_hidden p;
     currentAgentName := currentAgentName p;
     currentAgentStatus := currentAgentStatus p;
     agentProgress := agentProgress p;
     banners := f (banners p);
     selectedAgents := selectedAgents p;
     state_agentSequence := state_agentSequence p |}.

(** [spinner.remove()] for the spinners of a panel. *)
Definition without_spinner (q : AgentPanel) : AgentPanel :=
  {| panel_agent := panel_agent q;
     panel_spinners := 0;
     panel_marks := panel_marks q;
     panel_status := panel_status q |}.

(** Whether [document.getElementById] finds [agent-progress-<agent>]. *)
Definition has_panel (agent : string) (panels : list AgentPanel) : bool :=
  existsb (fun q => String.eqb (panel_agent q) agent) panels.

(** The body of the [if (agentElem)] of [updateAgentStatus]: the first
    panel with the id takes the status, every spinner of the list goes,
    and the panel gets a spinner or one more check mark by the status. *)
Fixpoint restyle (agent status : string) (panels : list AgentPanel) : list AgentPanel :=
  match panels with
  | [] => []
  | q :: rest =>
      if String.eqb (panel_agent q) agent then
        {| panel_agent := panel_agent q;
           panel_spinners := if String.eqb status "Processing" then 1 else 0;
           panel_marks := if String.eqb status "Completed"
                          then S (panel_marks q) else panel_marks q;
           panel_status := status |} :: map without_spinner rest
      else without_spinner q :: restyle agent status rest
  end.

Definition updateAgentStatus (agent status : string) (panels : list AgentPanel)
  : list AgentPanel :=
  if has_panel agent panels then restyle agent status panels else panels.

Definition resetProcess (p : Page) : Page :=
  {| requirements_value := requirements_value p;
     context_value := context_value p;
     title_value := title_value p;
     checkboxes := checkboxes p;
     inputForm_hidden := false;
     progressPanel_hidden := true;
     currentAgentPanel_hidden := true;
     completionPanel_hidden := true;
     currentAgentName := currentAgentName p;
     currentAgentStatus := currentAgentStatus p;
     agentProgress := agentProgress p;
     banners := banners p;
     selectedAgents := [];
     state_agentSequence := None |}.

(** The listener for the messages of the extension. *)
Definition onMessage (message : posted) (p : Page) : Page :=
  match message with
  | setAgentSequence agents =>
      {| requirements_value := requirements_value p;
         context_value := context_value p;
         title_value := title_value p;
         checkboxes := checkboxes p;
         inputForm_hidden := inputForm_hidden p;
         progressPanel_hidden := progressPanel_hidden p;
         currentAgentPanel_hidden := currentAgentPanel_hidden p;
         completionPanel_hidden := completionPanel_hidden p;
         currentAgentName := currentAgentName p;
         currentAgentStatus := currentAgentStatus p;
         agentProgress := agentProgress p;
         banners := banners p;
         selectedAgents := selectedAgents p;
         state_agentSequence := Some agents |}
  | agentStarted agent =>
      {| requirements_value := requirements_value p;
         context_value := context_value p;
         title_value := title_value p;
         checkboxes := checkboxes p;
         inputForm_hidden := inputForm_hidden p;
         progressPanel_hidden := progressPanel_hidden p;
         currentAgentPanel_hidden := false;
         completionPanel_hidden := completionPanel_hidden p;
         currentAgentName := agent;
         currentAgentStatus := currentAgentStatus p;
         agentProgress := updateAgentStatus agent "Processing" (agentProgress p);
         banners := banners p;
         selectedAgents := selectedAgents p;
         state_agentSequence := state_agentSequence p |}
  | validateAgent agent _ _ =>
      {| requirements_value := requirements_value p;
         context_value := context_value p;
         title_value := title_value p;
         checkboxes := checkboxes p;
         inputForm_hidden := inputForm_hidden p;
         progressPanel_hidden := progressPanel_hidden p;
         currentAgentPanel_hidden := currentAgentPanel_hidden p;
         completionPanel_hidden := completionPanel_hidden p;
         currentAgentName := currentAgentName p;
         currentAgentStatus := Some "Review output in editor and validate";
         agentProgress := updateAgentStatus agent "Validating" (agentProgress p);
         banners := banners p;
         selectedAgents := selectedAgents p;
         state_agentSequence := state_agentSequence p |}
  | agentValidated agent _ =>
      set_agentProgress (updateAgentStatus agent "Completed") p
  | agentsCompleted =>
      {| requirements_value := requirements_value p;
         context_value := context_value p;
         title_value := title_value p;
         checkboxes := checkboxes p;
         inputForm_hidden := inputForm_hidden p;
         progressPanel_hidden := progressPanel_hidden p;
         currentAgentPanel_hidden := true;
         completionPanel_hidden := false;
         currentAgentName := currentAgentName p;
         currentAgentStatus := currentAgentStatus p;
         agentProgress := agentProgress p;
         banners := banners p;
         selectedAgents := selectedAgents p;
         state_agentSequence := state_agentSequence p |}
  | error message => set_banners (cons message) p
  | taskValidated _ _ _ => p
  end.

(** What happens to the page: the human edits the form or clicks one of
    the two buttons, a message of the extension arrives, or the timer of
    the oldest banner fires. *)
Inductive page_input : Type :=
| Fill (requirements context title : string) (boxes : Checkboxes)
| ClickStart
| ClickReset
| Incoming (message : posted)
| BannerTimeout.

Definition page_step (p : Page) (i : page_input) : Page * list page_effect :=
  match i with
  | Fill requirements context title boxes =>
      ({| requirements_value := requirements;
          context_value := context;
          title_value := title;
          checkboxes := boxes;
          inputForm_hidden := inputForm_hidden p;
          progressPanel_hidden := progressPanel_hidden p;
          currentAgentPanel_hidden := currentAgentPanel_hidden p;
          completionPanel_hidden := completionPanel_hidden p;
          currentAgentName := currentAgentName p;
          currentAgentStatus := currentAgentStatus p;
          agentProgress := agentProgress p;
          banners := banners p;
          selectedAgents := selectedAgents p;
          state_agentSequence := state_agentSequence p |}, [])
  | ClickStart => startSdlcProcess p
  | ClickReset => (resetProcess p, [])
  | Incoming message => (onMessage message p, [])
  | BannerTimeout => (set_banners (fun shown => removelast shown) p, [])
  end.

(** The page after a series of inputs. *)
Definition browse (p : Page) (inputs : list page_input) : Page :=
  fold_left (fun q i => fst (page_step q i)) inputs p.

(** The spinners shown in the progress list. *)
Definition spinners_shown (panels : list AgentPanel) : nat :=
  list_sum (map panel_spinners panels).

(** ** Notions for the page and for what it shows of a run *)

(** A text made of white space only: what [trim] leaves nothing of. *)
Definition blank (text : string) : bool :=
  forallb is_white_space (list_ascii_of_string text).

(** The messages among a batch of events, arriving at the page in the
    order they were posted. *)
Definition deliver (es : list event) (p : Page) : Page :=
  fold_left (fun q e => match e with PostMessage m => onMessage m q | _ => q end) es p.

(** The agent and the status an event makes the listener pass to
    [updateAgentStatus], if it does. *)
Definition status_of (e : event) : option (string * string) :=
  match e with
  | PostMessage (agentStarted agent) => Some (agent, "Processing")
  | PostMessage (validateAgent agent _ _) => Some (agent, "Validating")
  | PostMessage (agentValidated agent _) => Some (agent, "Completed")
  | _ => None
  end.

Definition statuses (es : list event) : list (string * string) := omap status_of es.

(** Events that change no panel of the progress list. *)
Definition statusless (e : event) : Prop := status_of e = None.

(** Events that change at most the panel of [agent], and do not mark it
    completed. *)
Definition dispatching (agent : string) (e : event) : Prop :=
  match status_of e with
  | None => True
  | Some (name, status) => name = agent /\ status <> "Completed"
  end.

(** The progress list after the statuses of a batch of messages. *)
Definition restyled (sts : list (string * string)) (panels : list AgentPanel)
  : list AgentPanel :=
  fold_left (fun l x => updateAgentStatus (fst x) (snd x) l) sts panels.

(** What a panel tells of its agent, the spinner apart. *)
Definition face (q : AgentPanel) : string * string * nat :=
  (panel_agent q, panel_status q, panel_marks q).

Definition panel_done (q : AgentPanel) : Prop :=
  panel_status q = "Completed" /\ panel_marks q = 1%nat.

Definition panel_waiting (q : AgentPanel) : Prop :=
  panel_status q = "Waiting..." /\ panel_marks q = 0%nat.

(** The progress list agrees with the controller: one panel per agent of
    the sequence; the agents before the current one are completed, with
    one check mark; those after it wait; and the current one has no check
    mark while its [Validate] button is on screen and is completed once
    [Continue] is. *)
Definition on_screen (w : World) (shown : list AgentPanel) : Prop :=
  map panel_agent shown = agentSequence (ctrl w) /\
  forall (j : nat) q,
    shown !! j = Some q ->
    (Z.of_nat j < currentAgentIndex (ctrl w) -> panel_done q) /\
    (currentAgentIndex (ctrl w) < Z.of_nat j -> panel_waiting q) /\
    (Z.of_nat j = currentAgentIndex (ctrl w) ->
     (forall agent, pending w = [OnValidate agent] -> panel_marks q = 0%nat) /\
     (pending w = [OnContinue] -> panel_done q)).

(** Any stimulus but a [startAgents] message: the run in progress goes
    on. *)
Definition resuming (s : stimulus) : Prop :=
  match s with
  | Receive (MsgStartAgents _) _ => False
  | _ => True
  end.

(** The review document of every [Validate] button on screen is
    registered. *)
Definition documents_ready (w : World) : Prop :=
  forall agent, In (OnValidate agent) (pending w) ->
                is_Some (tempFilePaths (ctrl w) !! agent).

(** What the page may do towards the extension or the human: an alert,
    or the [startAgents] message. *)
Definition alert_or_start (effect : page_effect) : Prop :=
  match effect with
  | Alert _ => True
  | VscodePostMessage (MsgStartAgents _) => True
  | VscodePostMessage _ => False
  end.

(** ** Basic facts *)

Section Basics.

Example decimal_500 : decimal 500 = "500".
Proof. reflexivity. Qed.

Example array_index_canonical :
  array_index "12" = Some 12%nat /\ array_index "012" = None /\ array_index "a" = None.
Proof. repeat split. Qed.

Example keys_of_object :
  Object_keys (JObj [("tasks", JArr []); ("summary", JStr "ok")]) = inr ["tasks"; "summary"].
Proof. reflexivity. Qed.

Lemma callApiEndpoint_run endpoint data r c :
  callApiEndpoint endpoint data r c =
    (match api_result r with inl e => Threw e | inr v => Returned v end,
     c, [Fetch endpoint data]).
Proof.
  unfold callApiEndpoint, api_result, bind, emit.
  destruct r as [e | status body]; simpl; [reflexivity |].
  destruct (res_ok status); simpl; [| reflexivity].
  destruct body; reflexivity.
Qed.

Lemma set_agentOutputs_id c :
  set_agentOutputs (fun _ => agentOutputs c) c = c.
Proof. destruct c; reflexivity. Qed.

Lemma set_agentOutputs_insert_id c name value :
  agentOutputs c !! name = Some value ->
  set_agentOutputs <[name := value]> c = c.
Proof.
  intros H. destruct c as [outs sq idx ins tmp]; unfold set_agentOutputs; simpl in *.
  f_equal. by apply insert_id.
Qed.

Lemma obj_set_same k v props :
  obj_get k props = Some v -> obj_set k v props = props.
Proof.
  induction props as [| [k' v'] rest IH]; simpl; [discriminate |].
  destruct (String.eqb k' k) eqn:E.
  - intros [= ->]. reflexivity.
  - intros H. f_equal. auto.
Qed.

Lemma obj_get_key k props :
  In k (map fst props) -> exists v, obj_get k props = Some v.
Proof.
  induction props as [| [k' v'] rest IH]; simpl; [tauto |].
  intros [-> | Hin].
  - rewrite String.eqb_refl. eauto.
  - destruct (String.eqb k' k); eauto.
Qed.

Lemma list_set_same i v items :
  nth_error items i = Some v -> list_set i v items = items.
Proof.
  revert i; induction items as [| x rest IH]; intros [| i]; simpl; try discriminate.
  - intros [= ->]. reflexivity.
  - intros H. f_equal. auto.
Qed.

Lemma stored_own c name k v :
  own_property (stored c name) k = Some v ->
  agentOutputs c !! name = Some (stored c name).
Proof.
  unfold stored. destruct (agentOutputs c !! name); simpl; [reflexivity | discriminate].
Qed.

(** Writing a property back with the value it has leaves an object or an
    array as it is; a string refuses the write. *)
Lemma set_property_same target k v :
  own_property target k = Some v ->
  set_property target k v = inr target \/ exists e, set_property target k v = inl e.
Proof.
  destruct target; try discriminate; intros H.
  - right. unfold set_property. destruct (is_character (JStr s) k); eauto.
  - left. simpl in *. destruct (array_index k); [| discriminate].
    by rewrite (list_set_same _ _ _ H).
  - left. simpl in *. by rewrite (obj_set_same _ _ _ H).
Qed.

End Basics.

(** ** One task sent for validation *)

Section ValidateTask.

Lemma validateTask_run agentName taskName output r c :
  validateTask agentName taskName output r c =
    let request := Fetch "/agent/validate"
                     (JObj [("task_name", JStr taskName); ("modified_output", output)]) in
    match api_result r with
    | inl e => (Threw e, c, [request])
    | inr _ =>
        match set_property (stored c agentName) taskName output with
        | inl e => (Threw e, c, [request])
        | inr updated =>
            (Returned tt, set_agentOutputs <[agentName := updated]> c,
             [request; PostMessage (taskValidated agentName taskName true)])
        end
    end.
Proof.
  unfold validateTask, bind. rewrite callApiEndpoint_run.
  destruct (api_result r) as [e | ack]; simpl; [reflexivity |].
  destruct (set_property (stored c agentName) taskName output); reflexivity.
Qed.

(** C10. If the validation request fails, [validateTask] leaves the
    controller (hence the stored entry) as it was and posts no
    [taskValidated] message; and whenever it changes the controller or
    posts the success message, the request was answered successfully, the
    property was written and the success message follows the request. *)
Theorem validateTask_atomic_on_error agentName taskName output r c :
  ((exists e, api_result r = inl e) ->
     fields (validateTask agentName taskName output r c) = c /\
     forall a t s,
       ~ In (PostMessage (taskValidated a t s))
            (emitted (validateTask agentName taskName output r c)))
  /\
  ((fields (validateTask agentName taskName output r c) <> c \/
    In (PostMessage (taskValidated agentName taskName true))
       (emitted (validateTask agentName taskName output r c))) ->
     exists ack updated,
       api_result r = inr ack /\
       set_property (stored c agentName) taskName output = inr updated /\
       fields (validateTask agentName taskName output r c)
         = set_agentOutputs <[agentName := updated]> c /\
       emitted (validateTask agentName taskName output r c)
         = [Fetch "/agent/validate"
              (JObj [("task_name", JStr taskName); ("modified_output", output)]);
            PostMessage (taskValidated agentName taskName true)]).
Proof.
  rewrite validateTask_run. cbv zeta. split.
  - intros [e He]. rewrite He. simpl. split; [reflexivity |].
    intros a t s [H | []]. discriminate.
  - destruct (api_result r) as [e | ack]; simpl.
    + intros [H | [H | []]]; [by destruct H | discriminate].
    + destruct (set_property (stored c agentName) taskName output) as [e | updated]; simpl.
      * intros [H | [H | []]]; [by destruct H | discriminate].
      * intros _. exists ack, updated. repeat split.
Qed.

Lemma validateTask_atomic_on_error_witness :
  fields (validateTask "Requirements" "stories" (JStr "edited")
            (HttpResponse 500 (inr JNull)) (ctrl awaiting_requirements))
    = ctrl awaiting_requirements /\
  exists ack updated,
    api_result acknowledged = inr ack /\
    set_property (stored (ctrl awaiting_requirements) "Requirements") "stories" (JStr "edited")
      = inr updated /\
    fields (validateTask "Requirements" "stories" (JStr "edited") acknowledged
              (ctrl awaiting_requirements))
      = set_agentOutputs <["Requirements" := updated]> (ctrl awaiting_requirements) /\
    emitted (validateTask "Requirements" "stories" (JStr "edited") acknowledged
               (ctrl awaiting_requirements))
      = [Fetch "/agent/validate"
           (JObj [("task_name", JStr "stories"); ("modified_output", JStr "edited")]);
         PostMessage (taskValidated "Requirements" "stories" true)].
Proof.
  split.
  - apply (proj1 (validateTask_atomic_on_error "Requirements" "stories" (JStr "edited")
                    (HttpResponse 500 (inr JNull)) (ctrl awaiting_requirements))).
    eexists. reflexivity.
  - apply (proj2 (validateTask_atomic_on_error "Requirements" "stories" (JStr "edited")
                    acknowledged (ctrl awaiting_requirements))).
    right. vm_compute. tauto.
Defined.

(** C8. Resubmitting the value a task already has, with the validation
    request acknowledged, leaves the controller, and with it the stored
    value of that task, as it was. *)
Theorem revalidation_idempotent agentName taskName value r c ack :
  own_property (stored c agentName) taskName = Some value ->
  api_result r = inr ack ->
  fields (validateTask agentName taskName value r c) = c /\
  own_property (stored (fields (validateTask agentName taskName value r c)) agentName)
    taskName = Some value.
Proof.
  intros Hown Hack.
  assert (fields (validateTask agentName taskName value r c) = c) as Hsame.
  { rewrite validateTask_run, Hack.
    destruct (set_property_same _ _ _ Hown) as [-> | [e ->]]; simpl; [| reflexivity].
    apply set_agentOutputs_insert_id. eapply stored_own; eauto. }
  by rewrite Hsame.
Qed.

Lemma revalidation_idempotent_witness :
  fields (validateTask "Requirements" "stories" (JStr "login") acknowledged
            (ctrl awaiting_requirements))
    = ctrl awaiting_requirements /\
  own_property
    (stored (fields (validateTask "Requirements" "stories" (JStr "login") acknowledged
                       (ctrl awaiting_requirements))) "Requirements")
    "stories" = Some (JStr "login").
Proof.
  apply (revalidation_idempotent "Requirements" "stories" (JStr "login") acknowledged
           (ctrl awaiting_requirements) (JObj [])); reflexivity.
Defined.

End ValidateTask.

(** ** Dispatching an agent *)

Section Dispatch.

Lemma element_lookup l i name :
  0 <= i -> l !! Z.to_nat i = Some name -> element l i = name.
Proof.
  intros Hi Hl. unfold element.
  destruct (Z.ltb_spec i 0); [lia |]. by rewrite Hl.
Qed.

Lemma lookup_in_range (l : list string) i name :
  0 <= i -> l !! Z.to_nat i = Some name -> (Z.of_nat (length l) <=? i) = false.
Proof.
  intros Hi Hl. apply lookup_lt_Some in Hl. apply Z.leb_gt. lia.
Qed.

Lemma invoke_unknown name inputs c r :
  ~ In name known_agents ->
  invoke name inputs c r = throw (JsError "Error" ("Unknown agent: " +:+ name)).
Proof.
  intros Hn. unfold invoke.
  repeat match goal with
  | |- context [String.eqb name ?s] =>
      destruct (String.eqb_spec name s) as [-> | _];
      [exfalso; apply Hn; simpl; tauto |]
  end.
  reflexivity.
Qed.

(** C9. Dispatching a name the [switch] does not know posts
    [agentStarted], then exactly one [error] message
    "Agent <name> failed: Error: Unknown agent: <name>"; no request is
    sent, nothing is stored (only the index moves) and no button is
    offered, so nothing is dispatched after it. *)
Theorem unknown_agent_fails c env inputs name :
  initialInputs c = Some inputs ->
  0 <= currentAgentIndex c + 1 ->
  agentSequence c !! Z.to_nat (currentAgentIndex c + 1) = Some name ->
  ~ In name known_agents ->
  processNextAgent env c =
    (Returned tt,
     set_currentAgentIndex Z.succ c,
     [PostMessage (agentStarted name);
      ConsoleError ("Error in agent " +:+ name +:+ ":")
        (JsError "Error" ("Unknown agent: " +:+ name));
      PostMessage (error ("Agent " +:+ name +:+ " failed: Error: Unknown agent: " +:+ name))])
  /\ agentOutputs (fields (processNextAgent env c)) = agentOutputs c
  /\ offered (emitted (processNextAgent env c)) = [].
Proof.
  intros Hin Hi Hl Hn.
  assert (processNextAgent env c =
    (Returned tt,
     set_currentAgentIndex Z.succ c,
     [PostMessage (agentStarted name);
      ConsoleError ("Error in agent " +:+ name +:+ ":")
        (JsError "Error" ("Unknown agent: " +:+ name));
      PostMessage (error ("Agent " +:+ name +:+ " failed: Error: Unknown agent: " +:+ name))]))
    as Hrun.
  { unfold processNextAgent, bind, modify, get, postMessage, emit, try_catch.
    cbn [set_currentAgentIndex initialInputs agentSequence currentAgentIndex].
    rewrite Hin. replace (Z.succ (currentAgentIndex c)) with (currentAgentIndex c + 1) by lia.
    rewrite (lookup_in_range _ _ _ Hi Hl), (element_lookup _ _ _ Hi Hl).
    rewrite (invoke_unknown _ _ _ _ Hn). unfold throw. cbn.
    replace (currentAgentIndex c + 1) with (Z.succ (currentAgentIndex c)) by lia.
    reflexivity. }
  rewrite Hrun. repeat split.
Qed.

Lemma unknown_agent_fails_witness :
  emitted (processNextAgent (answers JNull)
             {| agentOutputs := ∅; agentSequence := ["Deployer"];
                currentAgentIndex := -1; initialInputs := Some (form ["Deployer"]);
                tempFilePaths := ∅ |})
    = [PostMessage (agentStarted "Deployer");
       ConsoleError "Error in agent Deployer:" (JsError "Error" "Unknown agent: Deployer");
       PostMessage (error "Agent Deployer failed: Error: Unknown agent: Deployer")].
Proof.
  rewrite (proj1 (unknown_agent_fails
             {| agentOutputs := ∅; agentSequence := ["Deployer"];
                currentAgentIndex := -1; initialInputs := Some (form ["Deployer"]);
                tempFilePaths := ∅ |}
             (answers JNull) (form ["Deployer"]) "Deployer"
             eq_refl ltac:(simpl; lia) eq_refl
             ltac:(simpl; intuition discriminate))).
  reflexivity.
Defined.


Lemma invoke_known agent inputs c r :
  In agent known_agents ->
  invoke agent inputs c r = callApiEndpoint (endpoint_of agent) (payload_of agent inputs c) r.
Proof.
  simpl. intros [<- | [<- | [<- | [<- | [<- | []]]]]]; reflexivity.
Qed.

Lemma openOutputInEditor_outputs agent output w c :
  agentOutputs (fields (openOutputInEditor agent output w c)) = agentOutputs c.
Proof.
  destruct w as [now [e1 |] [e2 |] [e3 |] [e4 |]]; reflexivity.
Qed.

Lemma openOutputInEditor_calm agent output w c :
  createDirectory w = None -> writeFile w = None ->
  openTextDocument w = None -> showTextDocument w = None ->
  let tempFilePath := agent +:+ "_" +:+ decimalN (Date_now w) +:+ ".json" in
  openOutputInEditor agent output w c =
    (Returned tt, set_tempFilePaths <[agent := tempFilePath]> c,
     [CreateDirectory; WriteFile tempFilePath output;
      OpenTextDocument tempFilePath; ShowTextDocument tempFilePath;
      ShowInformationMessage
        (agent +:+ " results are now open in the editor. Review and validate when ready.")
        (Some ("Validate", OnValidate agent))]).
Proof.
  destruct w as [now d1 d2 d3 d4]; simpl. intros -> -> -> ->. reflexivity.
Qed.

(** The start of every dispatch: the index moves, the agent is announced
    and the [try] block runs on the agent at the new index. *)
Lemma processNextAgent_in_range c env inputs agent :
  initialInputs c = Some inputs ->
  0 <= currentAgentIndex c + 1 ->
  agentSequence c !! Z.to_nat (currentAgentIndex c + 1) = Some agent ->
  processNextAgent env c =
    (postMessage (agentStarted agent) ;;
     try_catch
       (output <- invoke agent inputs (set_currentAgentIndex Z.succ c) (reply env) ;;
        modify (set_agentOutputs <[agent := output]>) ;;
        openOutputInEditor agent output (bench env) ;;
        tasks <- lift (Object_keys output) ;;
        postMessage (validateAgent agent tasks output))
       (fun err =>
          emit (ConsoleError ("Error in agent " +:+ agent +:+ ":") err) ;;
          postMessage (error ("Agent " +:+ agent +:+ " failed: " +:+ String_of err))))
      (set_currentAgentIndex Z.succ c).
Proof.
  intros Hin Hi Hl.
  unfold processNextAgent at 1. unfold bind at 1 2. unfold modify at 1, get at 1.
  cbn [set_currentAgentIndex initialInputs agentSequence currentAgentIndex].
  rewrite Hin. replace (Z.succ (currentAgentIndex c)) with (currentAgentIndex c + 1) by lia.
  rewrite (lookup_in_range _ _ _ Hi Hl), (element_lookup _ _ _ Hi Hl).
  replace (currentAgentIndex c + 1) with (Z.succ (currentAgentIndex c)) by lia.
  match goal with
  | |- _ = ?m ?s => destruct (m s) as [[r c2] es]
  end.
  reflexivity.
Qed.

Lemma processNextAgent_invocation_fails c env inputs agent e :
  initialInputs c = Some inputs ->
  0 <= currentAgentIndex c + 1 ->
  agentSequence c !! Z.to_nat (currentAgentIndex c + 1) = Some agent ->
  In agent known_agents ->
  api_result (reply env) = inl e ->
  processNextAgent env c =
    (Returned tt,
     set_currentAgentIndex Z.succ c,
     [PostMessage (agentStarted agent);
      Fetch (endpoint_of agent) (payload_of agent inputs (set_currentAgentIndex Z.succ c));
      ConsoleError ("Error in agent " +:+ agent +:+ ":") e;
      PostMessage (error ("Agent " +:+ agent +:+ " failed: " +:+ String_of e))]).
Proof.
  intros Hin Hi Hl Hk Hfail.
  rewrite (processNextAgent_in_range _ _ _ _ Hin Hi Hl), (invoke_known _ _ _ _ Hk).
  unfold bind, try_catch, postMessage, emit.
  rewrite callApiEndpoint_run, Hfail. reflexivity.
Qed.

(** Once the invocation has returned, the reply is in the store, whatever
    the editor and the rest of the handler do afterwards. *)
Lemma processNextAgent_stores_reply c env inputs agent raw :
  initialInputs c = Some inputs ->
  0 <= currentAgentIndex c + 1 ->
  agentSequence c !! Z.to_nat (currentAgentIndex c + 1) = Some agent ->
  In agent known_agents ->
  api_result (reply env) = inr raw ->
  agentOutputs (fields (processNextAgent env c)) = <[agent := raw]> (agentOutputs c).
Proof.
  intros Hin Hi Hl Hk Hok.
  rewrite (processNextAgent_in_range _ _ _ _ Hin Hi Hl), (invoke_known _ _ _ _ Hk).
  unfold bind, try_catch, postMessage, emit, modify.
  rewrite callApiEndpoint_run, Hok.
  pose proof (openOutputInEditor_outputs agent raw (bench env)
                (set_agentOutputs <[agent := raw]> (set_currentAgentIndex Z.succ c))) as Hed.
  destruct (openOutputInEditor agent raw (bench env) _) as [[[[] | e] c2] es]; simpl in *.
  - destruct (Object_keys raw); simpl; exact Hed.
  - exact Hed.
Qed.

(** The dispatch that goes well: reply received, editor opened, review
    requested. *)
Lemma processNextAgent_awaits_review c env inputs agent raw tasks :
  initialInputs c = Some inputs ->
  0 <= currentAgentIndex c + 1 ->
  agentSequence c !! Z.to_nat (currentAgentIndex c + 1) = Some agent ->
  In agent known_agents ->
  api_result (reply env) = inr raw ->
  createDirectory (bench env) = None -> writeFile (bench env) = None ->
  openTextDocument (bench env) = None -> showTextDocument (bench env) = None ->
  Object_keys raw = inr tasks ->
  let tempFilePath := agent +:+ "_" +:+ decimalN (Date_now (bench env)) +:+ ".json" in
  processNextAgent env c =
    (Returned tt,
     set_tempFilePaths <[agent := tempFilePath]>
       (set_agentOutputs <[agent := raw]> (set_currentAgentIndex Z.succ c)),
     [PostMessage (agentStarted agent);
      Fetch (endpoint_of agent) (payload_of agent inputs (set_currentAgentIndex Z.succ c));
      CreateDirectory; WriteFile tempFilePath raw;
      OpenTextDocument tempFilePath; ShowTextDocument tempFilePath;
      ShowInformationMessage
        (agent +:+ " results are now open in the editor. Review and validate when ready.")
        (Some ("Validate", OnValidate agent));
      PostMessage (validateAgent agent tasks raw)]).
Proof.
  intros Hin Hi Hl Hk Hok H1 H2 H3 H4 Hkeys tempFilePath.
  rewrite (processNextAgent_in_range _ _ _ _ Hin Hi Hl), (invoke_known _ _ _ _ Hk).
  unfold bind, try_catch, postMessage, emit, modify.
  rewrite callApiEndpoint_run, Hok.
  rewrite (openOutputInEditor_calm _ _ _ _ H1 H2 H3 H4), Hkeys.
  reflexivity.
Qed.

(** Every dispatch of a known agent announces it and sends its request
    before anything else. *)
Lemma processNextAgent_sends c env inputs agent :
  initialInputs c = Some inputs ->
  0 <= currentAgentIndex c + 1 ->
  agentSequence c !! Z.to_nat (currentAgentIndex c + 1) = Some agent ->
  In agent known_agents ->
  exists rest,
    emitted (processNextAgent env c) =
      PostMessage (agentStarted agent) ::
      Fetch (endpoint_of agent) (payload_of agent inputs (set_currentAgentIndex Z.succ c)) ::
      rest.
Proof.
  intros Hin Hi Hl Hk.
  rewrite (processNextAgent_in_range _ _ _ _ Hin Hi Hl), (invoke_known _ _ _ _ Hk).
  unfold bind, try_catch, postMessage, emit, modify.
  rewrite callApiEndpoint_run.
  destruct (api_result (reply env)) as [e | raw]; [eexists; reflexivity |].
  destruct (openOutputInEditor agent raw (bench env) _) as [[[[] | e] c2] es];
    [destruct (Object_keys raw) |]; eexists; reflexivity.
Qed.

End Dispatch.

(** ** The review submission *)

Section Review.

Lemma validateEach_acknowledged agent props answers tasks :
  (forall t, In t tasks -> In t (map fst props)) ->
  forall k c,
    agentOutputs c !! agent = Some (JObj props) ->
    (forall j, exists ack, api_result (answers j) = inr ack) ->
    validateEach agent tasks k answers c =
      (Returned tt, c, acknowledgements agent (JObj props) tasks).
Proof.
  induction tasks as [| t rest IH]; intros Hsub k c Hst Hack; [reflexivity |].
  cbn [validateEach]. unfold bind at 1 2, get at 1.
  assert (stored c agent = JObj props) as Hs by (unfold stored; by rewrite Hst).
  rewrite validateTask_run, Hs. cbv zeta.
  destruct (Hack k) as [ack ->].
  destruct (obj_get_key t props) as [x Hx]; [apply Hsub; by left |].
  assert (get_property (JObj props) t = x) as Hg by (simpl; by rewrite Hx).
  rewrite Hg. cbn [set_property]. rewrite (obj_set_same _ _ _ Hx).
  rewrite (set_agentOutputs_insert_id _ _ _ Hst).
  rewrite IH; auto; [| intros; apply Hsub; by right].
  cbn [acknowledgements flat_map app]. rewrite Hg. reflexivity.
Qed.

(** The loop stops at the first task whose request fails: the tasks
    before it are acknowledged, the ones after it are not sent, and the
    object in the store is as submitted. *)
Lemma validateEach_stops agent props answers e failing rest before :
  (forall t, In t (before ++ failing :: rest) -> In t (map fst props)) ->
  forall k c,
    agentOutputs c !! agent = Some (JObj props) ->
    (forall j, (j < length before)%nat -> exists ack, api_result (answers (k + j)%nat) = inr ack) ->
    api_result (answers (k + length before)%nat) = inl e ->
    validateEach agent (before ++ failing :: rest) k answers c =
      (Threw e, c,
       acknowledgements agent (JObj props) before ++
       [Fetch "/agent/validate"
          (JObj [("task_name", JStr failing);
                 ("modified_output", get_property (JObj props) failing)])]).
Proof.
  induction before as [| t before IH]; intros Hsub k c Hst Hack Hfail.
  - cbn [app validateEach length] in *. unfold bind at 1 2, get at 1.
    assert (stored c agent = JObj props) as Hs by (unfold stored; by rewrite Hst).
    rewrite validateTask_run, Hs. cbv zeta.
    rewrite Nat.add_0_r in Hfail. rewrite Hfail. reflexivity.
  - cbn [app validateEach length] in *. unfold bind at 1 2, get at 1.
    assert (stored c agent = JObj props) as Hs by (unfold stored; by rewrite Hst).
    rewrite validateTask_run, Hs. cbv zeta.
    destruct (Hack 0%nat) as [ack Hk]; [lia |]. rewrite Nat.add_0_r in Hk. rewrite Hk.
    destruct (obj_get_key t props) as [x Hx]; [apply Hsub; by left |].
    assert (get_property (JObj props) t = x) as Hg by (simpl; by rewrite Hx).
    rewrite Hg. cbn [set_property]. rewrite (obj_set_same _ _ _ Hx).
    rewrite (set_agentOutputs_insert_id _ _ _ Hst).
    rewrite IH; auto.
    + cbn [acknowledgements flat_map app]. rewrite Hg. reflexivity.
    + intros; apply Hsub; by right.
    + intros j Hj. replace (S k + j)%nat with (k + S j)%nat by lia. apply Hack. lia.
    + replace (S k + length before)%nat with (k + S (length before))%nat by lia. exact Hfail.
Qed.

Lemma stored_insert c name value :
  agentOutputs (set_agentOutputs <[name := value]> c) !! name = Some value.
Proof. unfold set_agentOutputs; simpl. apply lookup_insert_eq. Qed.

(** The submission whose text is not JSON. *)
Lemma validateCurrentAgentOutput_unparsable agent rv c path e :
  tempFilePaths c !! agent = Some path ->
  document rv = inr (Unparsable e) ->
  validateCurrentAgentOutput agent rv c =
    (Returned tt, c, [OpenTextDocument path; ShowErrorMessage (invalidJsonMessage e)]).
Proof.
  intros Hp Hd. unfold validateCurrentAgentOutput, try_catch, bind, get.
  rewrite Hp. cbn. rewrite Hd. cbn. destruct e; reflexivity.
Qed.

(** The submission of an object whose tasks are all acknowledged. *)
Lemma validateCurrentAgentOutput_accepted agent rv c path props :
  tempFilePaths c !! agent = Some path ->
  document rv = inr (Parses (JObj props)) ->
  (forall k, exists ack, api_result (validation rv k) = inr ack) ->
  validateCurrentAgentOutput agent rv c =
    (Returned tt, set_agentOutputs <[agent := JObj props]> c,
     OpenTextDocument path ::
     acknowledgements agent (JObj props) (map fst props) ++
     [PostMessage (agentValidated agent true);
      ShowInformationMessage (agent +:+ " output validated successfully.")
        (Some ("Continue", OnContinue))]).
Proof.
  intros Hp Hd Hack. unfold validateCurrentAgentOutput, try_catch.
  unfold bind at 1, get at 1. rewrite Hp.
  unfold bind at 1 2, emit at 1. rewrite Hd. cbn [lift ret].
  unfold bind at 1, JSON_parse, ret at 1. unfold bind at 1, modify at 1.
  unfold bind at 1. cbn [Object_keys lift ret]. unfold bind at 1.
  rewrite (validateEach_acknowledged agent props (validation rv) (map fst props));
    auto using stored_insert.
Qed.

End Review.

(** ** Steps of a run *)

Section Steps.

Lemma commit_run {A} (w : World) (open : list callback) (m : M A) :
  commit w open m =
    {| ctrl := fields (m (ctrl w));
       pending := open ++ offered (emitted (m (ctrl w)));
       log := log w ++ emitted (m (ctrl w)) |}.
Proof. unfold commit. destruct (m (ctrl w)) as [[r c] es]. reflexivity. Qed.

Lemma onDidReceiveMessage_start data env c c1 es :
  processNextAgent env (restarted data) = (Returned tt, c1, es) ->
  onDidReceiveMessage (MsgStartAgents data) env c =
    (Returned tt, c1, PostMessage (setAgentSequence (agents data)) :: es).
Proof.
  intros H. unfold onDidReceiveMessage, try_catch, bind, modify, postMessage, emit.
  rewrite H. reflexivity.
Qed.

Lemma answer_In cb l : In cb l -> exists rest, answer cb l = Some rest.
Proof.
  induction l as [| cb' l IH]; simpl; [tauto |].
  intros Hin. destruct (decide (cb' = cb)); [eauto |].
  destruct IH as [rest ->]; [destruct Hin; congruence | simpl; eauto].
Qed.

Lemma offered_app es1 es2 : offered (es1 ++ es2) = offered es1 ++ offered es2.
Proof.
  induction es1 as [| e es1 IH]; [reflexivity |].
  destruct e as [| | text [[label cb] |] | | | | | | |]; simpl; rewrite ?IH; reflexivity.
Qed.

Lemma offered_acknowledgements agent value tasks :
  offered (acknowledgements agent value tasks) = [].
Proof. induction tasks as [| t tasks IH]; [reflexivity | exact IH]. Qed.

End Steps.

(** ** Properties of the pipeline *)

Section Pipeline.

(** C5. With the sequence [Requirements], when the invocation fails the
    index stands at 0, the store is empty, the webview gets exactly one
    [error] message, "Agent Requirements failed: ...", after the single
    [agentStarted], and no button is put on screen: nothing else is
    dispatched. *)
Theorem requirements_invocation_error w data env e :
  agents data = ["Requirements"] ->
  api_result (reply env) = inl e ->
  currentAgentIndex (ctrl (step w (Receive (MsgStartAgents data) env))) = 0 /\
  agentOutputs (ctrl (step w (Receive (MsgStartAgents data) env))) = ∅ /\
  log (step w (Receive (MsgStartAgents data) env)) =
    log w ++
    [PostMessage (setAgentSequence ["Requirements"]);
     PostMessage (agentStarted "Requirements");
     Fetch "/agent/requirements"
       (JObj [("user_requirements", JStr (requirements data));
              ("project_context", JStr (context data));
              ("title", JStr (title data))]);
     ConsoleError "Error in agent Requirements:" e;
     PostMessage (error ("Agent Requirements failed: " +:+ String_of e))] /\
  pending (step w (Receive (MsgStartAgents data) env)) = pending w.
Proof.
  intros Hseq Hfail. cbn [step]. rewrite commit_run.
  rewrite (onDidReceiveMessage_start data env (ctrl w)
             (set_currentAgentIndex Z.succ (restarted data))
             [PostMessage (agentStarted "Requirements");
              Fetch (endpoint_of "Requirements")
                (payload_of "Requirements" data (set_currentAgentIndex Z.succ (restarted data)));
              ConsoleError ("Error in agent " +:+ "Requirements" +:+ ":") e;
              PostMessage (error ("Agent " +:+ "Requirements" +:+ " failed: " +:+ String_of e))]).
  - rewrite Hseq. cbn [fields emitted ctrl log pending fst snd offered].
    rewrite app_nil_r. repeat split.
  - apply processNextAgent_invocation_fails; cbn; rewrite ?Hseq; auto; try lia; tauto.
Qed.

Lemma requirements_invocation_error_witness :
  agentOutputs (ctrl (step boot (Receive (MsgStartAgents (form ["Requirements"])) (refuses 500))))
    = ∅.
Proof.
  apply (requirements_invocation_error boot (form ["Requirements"]) (refuses 500)
           (JsError "Error" "API call failed with status 500") eq_refl eq_refl).
Defined.

(** C3, as the code has it. For an agent whose payload reads earlier
    outputs, building the payload never fails: the request is always sent,
    its outcome is that of the request alone, and the field of a
    predecessor carries whatever the store holds for it, which is
    [undefined] when the store has no entry. *)
Theorem absent_predecessor_is_sent_undefined agent inputs c r field pred :
  In (field, pred) (predecessors agent) ->
  (forall c',
     invoke agent inputs c r c' =
       (match api_result r with inl e => Threw e | inr v => Returned v end,
        c', [Fetch (endpoint_of agent) (payload_of agent inputs c)])) /\
  own_property (payload_of agent inputs c) field = Some (stored c pred) /\
  (agentOutputs c !! pred = None ->
   own_property (payload_of agent inputs c) field = Some JUndefined).
Proof.
  intros Hin.
  assert (In agent known_agents /\
          own_property (payload_of agent inputs c) field = Some (stored c pred))
    as [Hk Hown].
  { unfold predecessors in Hin.
    destruct (String.eqb_spec agent "Architecture") as [-> | _];
      [| destruct (String.eqb_spec agent "Skeletons") as [-> | _];
         [| destruct (String.eqb_spec agent "Generator") as [-> | _]; [| destruct Hin]]];
      simpl in Hin; intuition (try discriminate);
      match goal with H : (_, _) = (_, _) |- _ => injection H as <- <- end;
      try reflexivity; simpl; tauto. }
  split; [| split]; [| exact Hown |].
  - intros c'. rewrite (invoke_known _ _ _ _ Hk). apply callApiEndpoint_run.
  - intros Hnone. rewrite Hown. unfold stored. by rewrite Hnone.
Qed.

Lemma absent_predecessor_is_sent_undefined_witness :
  own_property (payload_of "Architecture" (form ["Architecture"]) (restarted (form ["Architecture"])))
    "requirement_output" = Some JUndefined.
Proof.
  apply (absent_predecessor_is_sent_undefined "Architecture" (form ["Architecture"])
           (restarted (form ["Architecture"])) acknowledged
           "requirement_output" "Requirements").
  - simpl. tauto.
  - reflexivity.
Defined.

(** C3 fails as stated: with the sequence [Architecture] alone the store
    has no entry for Requirements or KnowledgeBase, and the payload is
    built, with both fields [undefined], and sent; the agent then goes to
    review like any other. *)
Lemma architecture_dispatched_without_predecessors :
  agentOutputs (restarted (form ["Architecture"])) !! "Requirements" = None /\
  log (step boot (Receive (MsgStartAgents (form ["Architecture"]))
                    (answers (JObj [("design", JStr "layers")])))) =
    [PostMessage (setAgentSequence ["Architecture"]);
     PostMessage (agentStarted "Architecture");
     Fetch "/agent/architecture"
       (JObj [("user_requirements", JStr "a shop");
              ("project_context", JStr "web");
              ("title", JStr "Shop");
              ("requirement_output", JUndefined);
              ("knowledge_output", JUndefined)]);
     CreateDirectory;
     WriteFile "Architecture_1700000000000.json" (JObj [("design", JStr "layers")]);
     OpenTextDocument "Architecture_1700000000000.json";
     ShowTextDocument "Architecture_1700000000000.json";
     ShowInformationMessage
       "Architecture results are now open in the editor. Review and validate when ready."
       (Some ("Validate", OnValidate "Architecture"));
     PostMessage (validateAgent "Architecture" ["design"] (JObj [("design", JStr "layers")]))].
Proof. split; reflexivity. Qed.

(** C4, as the code has it. When the request of one task fails during a
    submission, the tasks before it stay acknowledged and the store keeps
    the submitted object with every value in it; the tasks after it are
    not sent; and the human gets one error notification, whose text is
    made from the error of the request alone. *)
Theorem failed_task_keeps_siblings agent rv c path props before failing rest e :
  tempFilePaths c !! agent = Some path ->
  document rv = inr (Parses (JObj props)) ->
  map fst props = before ++ failing :: rest ->
  (forall j, (j < length before)%nat -> exists ack, api_result (validation rv j) = inr ack) ->
  api_result (validation rv (length before)) = inl e ->
  validateCurrentAgentOutput agent rv c =
    (Returned tt, set_agentOutputs <[agent := JObj props]> c,
     OpenTextDocument path ::
     acknowledgements agent (JObj props) before ++
     [Fetch "/agent/validate"
        (JObj [("task_name", JStr failing);
               ("modified_output", get_property (JObj props) failing)]);
      ShowErrorMessage (invalidJsonMessage e)]).
Proof.
  intros Hp Hd Hkeys Hack Hfail. unfold validateCurrentAgentOutput, try_catch.
  unfold bind at 1, get at 1. rewrite Hp.
  unfold bind at 1 2, emit at 1. rewrite Hd. cbn [lift ret].
  unfold bind at 1, JSON_parse, ret at 1. unfold bind at 1, modify at 1.
  unfold bind at 1. cbn [Object_keys lift ret]. unfold bind at 1.
  rewrite Hkeys.
  rewrite (validateEach_stops agent props (validation rv) e failing rest before);
    auto using stored_insert.
  - destruct e; cbn; rewrite <- app_assoc; reflexivity.
  - intros t Ht. rewrite Hkeys. exact Ht.
Qed.

Lemma failed_task_keeps_siblings_witness :
  fields (validateCurrentAgentOutput "Architecture" second_rejected (ctrl awaiting_architecture))
    = set_agentOutputs
        <["Architecture" := JObj [("design", JStr "layers"); ("risks", JStr "none")]]>
        (ctrl awaiting_architecture).
Proof.
  assert (tempFilePaths (ctrl awaiting_architecture) !! "Architecture"
            = Some "Architecture_1700000000000.json") as Hp by reflexivity.
  assert (forall j, (j < length ["design"])%nat ->
                    exists ack, api_result (validation second_rejected j) = inr ack) as Hack.
  { intros [| j] Hj; [by exists (JObj []) | simpl in Hj; lia]. }
  rewrite (failed_task_keeps_siblings "Architecture" second_rejected
             (ctrl awaiting_architecture) "Architecture_1700000000000.json"
             [("design", JStr "layers"); ("risks", JStr "none")]
             ["design"] "risks" []
             (JsError "Error" "API call failed with status 500")
             Hp eq_refl eq_refl Hack eq_refl).
  reflexivity.
Defined.

(** C4 fails as stated: when the second task, "risks", is rejected, the
    only report is the notification below, and it does not mention the
    task. *)
Lemma failure_report_does_not_name_task :
  log (step awaiting_architecture (PressValidate "Architecture" second_rejected)) =
    log awaiting_architecture ++
    [OpenTextDocument "Architecture_1700000000000.json";
     Fetch "/agent/validate"
       (JObj [("task_name", JStr "design"); ("modified_output", JStr "layers")]);
     PostMessage (taskValidated "Architecture" "design" true);
     Fetch "/agent/validate"
       (JObj [("task_name", JStr "risks"); ("modified_output", JStr "none")]);
     ShowErrorMessage
       "Invalid JSON format: API call failed with status 500. Please fix the errors and try again."]
  /\ ~ names_failed_task
         (emitted (validateCurrentAgentOutput "Architecture" second_rejected
                     (ctrl awaiting_architecture)))
         "risks".
Proof.
  split; [reflexivity |].
  intros [text [Hin Hocc]]. vm_compute in Hin.
  destruct Hin as [[H | [H | [H | [H | [H | []]]]]] | [H | [H | [H | [H | [H | []]]]]]];
    try discriminate.
  injection H as <-. vm_compute in Hocc. discriminate.
Qed.

(** C6, as the code has it. A submission whose text is not JSON (the
    parser throws) changes nothing in the controller: the index, the
    store and the registered document stay as they were, and the human is
    shown the parser's message. *)
Theorem unparsable_submission_changes_nothing agent rv c path e :
  tempFilePaths c !! agent = Some path ->
  document rv = inr (Unparsable e) ->
  validateCurrentAgentOutput agent rv c =
    (Returned tt, c, [OpenTextDocument path; ShowErrorMessage (invalidJsonMessage e)]).
Proof.
  intros Hp Hd. exact (validateCurrentAgentOutput_unparsable agent rv c path e Hp Hd).
Qed.

Lemma unparsable_submission_changes_nothing_witness :
  validateCurrentAgentOutput "Requirements"
    {| document := inr (Unparsable (JsError "SyntaxError" "Unexpected end of JSON input"));
       validation := fun _ => acknowledged |}
    (set_tempFilePaths <["Requirements" := "Requirements_1.json"]> initial)
    = (Returned tt,
       set_tempFilePaths <["Requirements" := "Requirements_1.json"]> initial,
       [OpenTextDocument "Requirements_1.json";
        ShowErrorMessage
          "Invalid JSON format: Unexpected end of JSON input. Please fix the errors and try again."]).
Proof.
  assert (tempFilePaths (set_tempFilePaths <["Requirements" := "Requirements_1.json"]> initial)
            !! "Requirements" = Some "Requirements_1.json") as Hp by reflexivity.
  exact (unparsable_submission_changes_nothing "Requirements"
           {| document := inr (Unparsable (JsError "SyntaxError" "Unexpected end of JSON input"));
              validation := fun _ => acknowledged |}
           (set_tempFilePaths <["Requirements" := "Requirements_1.json"]> initial)
           "Requirements_1.json"
           (JsError "SyntaxError" "Unexpected end of JSON input") Hp eq_refl).
Defined.

(** C6 fails as stated: the text [42] is JSON but no mapping of tasks,
    yet the submission replaces the stored output by 42, reports no
    error, declares the agent validated and offers to continue. *)
Lemma number_submission_is_accepted :
  agentOutputs (ctrl awaiting_requirements) !! "Requirements"
    = Some (JObj [("stories", JStr "login")]) /\
  agentOutputs (ctrl (step awaiting_requirements
                        (PressValidate "Requirements" (submits (JNum 42)))))
    !! "Requirements" = Some (JNum 42) /\
  log (step awaiting_requirements (PressValidate "Requirements" (submits (JNum 42)))) =
    log awaiting_requirements ++
    [OpenTextDocument "Requirements_1700000000000.json";
     PostMessage (agentValidated "Requirements" true);
     ShowInformationMessage "Requirements output validated successfully."
       (Some ("Continue", OnContinue))] /\
  pending (step awaiting_requirements (PressValidate "Requirements" (submits (JNum 42))))
    = [OnContinue].
Proof. repeat split. Qed.

(** The text [null] is JSON too: the handler reports it as invalid, after
    it has put [null] in the store. *)
Example null_submission_overwrites_store :
  agentOutputs (ctrl (step awaiting_requirements
                        (PressValidate "Requirements" (submits JNull))))
    !! "Requirements" = Some JNull /\
  log (step awaiting_requirements (PressValidate "Requirements" (submits JNull))) =
    log awaiting_requirements ++
    [OpenTextDocument "Requirements_1700000000000.json";
     ShowErrorMessage
       "Invalid JSON format: Cannot convert undefined or null to object. Please fix the errors and try again."].
Proof. repeat split. Qed.

Lemma first_dispatch_awaits_review data env agent others raw tasks :
  agents data = agent :: others ->
  In agent known_agents ->
  api_result (reply env) = inr raw ->
  undisturbed (bench env) ->
  Object_keys raw = inr tasks ->
  processNextAgent env (restarted data) =
    (Returned tt,
     set_tempFilePaths
       <[agent := agent +:+ "_" +:+ decimalN (Date_now (bench env)) +:+ ".json"]>
       (set_agentOutputs <[agent := raw]> (set_currentAgentIndex Z.succ (restarted data))),
     [PostMessage (agentStarted agent);
      Fetch (endpoint_of agent)
        (payload_of agent data (set_currentAgentIndex Z.succ (restarted data)));
      CreateDirectory;
      WriteFile (agent +:+ "_" +:+ decimalN (Date_now (bench env)) +:+ ".json") raw;
      OpenTextDocument (agent +:+ "_" +:+ decimalN (Date_now (bench env)) +:+ ".json");
      ShowTextDocument (agent +:+ "_" +:+ decimalN (Date_now (bench env)) +:+ ".json");
      ShowInformationMessage
        (agent +:+ " results are now open in the editor. Review and validate when ready.")
        (Some ("Validate", OnValidate agent));
      PostMessage (validateAgent agent tasks raw)]).
Proof.
  intros Hseq Hk Hok (Hd1 & Hd2 & Hd3 & Hd4) Hkeys.
  apply processNextAgent_awaits_review; auto; cbn; rewrite ?Hseq; auto. lia.
Qed.

(** C7. With the sequence [Requirements, Architecture], once Requirements
    has replied and the human's submission (an object, edited or not)
    has been accepted with every task acknowledged, the store holds the
    submitted object, and the request the [Continue] button sends for
    Architecture carries that very object as [requirement_output]. *)
Theorem edited_output_reaches_architecture w data env1 raw tasks rv props env2 :
  agents data = ["Requirements"; "Architecture"] ->
  api_result (reply env1) = inr raw ->
  undisturbed (bench env1) ->
  Object_keys raw = inr tasks ->
  document rv = inr (Parses (JObj props)) ->
  (forall k, exists ack, api_result (validation rv k) = inr ack) ->
  agentOutputs (ctrl (run w [Receive (MsgStartAgents data) env1;
                             PressValidate "Requirements" rv]))
    !! "Requirements" = Some (JObj props) /\
  exists rest,
    log (run w [Receive (MsgStartAgents data) env1;
                PressValidate "Requirements" rv;
                PressContinue env2]) =
      log (run w [Receive (MsgStartAgents data) env1;
                  PressValidate "Requirements" rv]) ++
      PostMessage (agentStarted "Architecture") ::
      Fetch "/agent/architecture"
        (JObj [("user_requirements", JStr (requirements data));
               ("project_context", JStr (context data));
               ("title", JStr (title data));
               ("requirement_output", JObj props);
               ("knowledge_output", JUndefined)]) ::
      rest.
Proof.
  intros Hseq Hok (Hd1 & Hd2 & Hd3 & Hd4) Hkeys Hdoc Hack.
  cbn [run fold_left].
  (* the start: Requirements replies and goes to review *)
  pose proof (first_dispatch_awaits_review data env1 "Requirements" ["Architecture"] raw tasks
                Hseq ltac:(simpl; tauto) Hok (conj Hd1 (conj Hd2 (conj Hd3 Hd4))) Hkeys)
    as Hstart.
  apply (onDidReceiveMessage_start data env1 (ctrl w)) in Hstart.
  set (w1 := step w (Receive (MsgStartAgents data) env1)).
  assert (ctrl w1 = fields (onDidReceiveMessage (MsgStartAgents data) env1 (ctrl w)) /\
          pending w1 = pending w ++ [OnValidate "Requirements"]) as [Hc1 Hp1].
  { unfold w1. cbn [step]. rewrite commit_run. cbn [ctrl pending].
    rewrite Hstart. split; reflexivity. }
  rewrite Hstart in Hc1. cbn [fields fst snd] in Hc1.
  (* the submission *)
  destruct (answer_In (OnValidate "Requirements") (pending w1)) as [open1 Ha1];
    [rewrite Hp1; apply in_or_app; right; by left |].
  set (w2 := step w1 (PressValidate "Requirements" rv)).
  assert (tempFilePaths (ctrl w1) !! "Requirements" =
            Some ("Requirements" +:+ "_" +:+ decimalN (Date_now (bench env1)) +:+ ".json"))
    as Hpath.
  { rewrite Hc1. cbn [tempFilePaths set_tempFilePaths]. apply lookup_insert_eq. }
  pose proof (validateCurrentAgentOutput_accepted _ _ _ _ _ Hpath Hdoc Hack) as Hsub.
  assert (ctrl w2 = set_agentOutputs <["Requirements" := JObj props]> (ctrl w1) /\
          pending w2 = open1 ++ [OnContinue]) as [Hc2 Hp2].
  { unfold w2. cbn [step]. rewrite Ha1, commit_run, Hsub. cbn [ctrl pending fields emitted fst snd].
    split; [reflexivity |]. f_equal. cbn [offered].
    by rewrite offered_app, offered_acknowledgements. }
  split; [rewrite Hc2; apply stored_insert |].
  (* the continuation *)
  destruct (answer_In OnContinue (pending w2)) as [open2 Ha2];
    [rewrite Hp2; apply in_or_app; right; by left |].
  destruct (processNextAgent_sends (ctrl w2) env2 data "Architecture") as [rest Hrest].
  - rewrite Hc2, Hc1. reflexivity.
  - rewrite Hc2, Hc1. cbn. lia.
  - rewrite Hc2, Hc1. cbn. by rewrite Hseq.
  - simpl. tauto.
  - exists rest. cbn [step]. rewrite Ha2, commit_run. cbn [log]. f_equal.
    rewrite Hrest. f_equal. f_equal. rewrite Hc2, Hc1.
    unfold payload_of, stored. cbn.
    rewrite lookup_insert_eq.
    rewrite !lookup_insert_ne by discriminate. rewrite lookup_empty. reflexivity.
Qed.

Lemma edited_output_reaches_architecture_witness :
  agentOutputs (ctrl (run boot [Receive (MsgStartAgents (form ["Requirements"; "Architecture"]))
                                  (answers (JObj [("stories", JStr "login")]));
                                PressValidate "Requirements"
                                  (submits (JObj [("stories", JStr "login and logout")]))]))
    !! "Requirements" = Some (JObj [("stories", JStr "login and logout")]).
Proof.
  apply (edited_output_reaches_architecture boot (form ["Requirements"; "Architecture"])
           (answers (JObj [("stories", JStr "login")]))
           (JObj [("stories", JStr "login")]) ["stories"]
           (submits (JObj [("stories", JStr "login and logout")]))
           [("stories", JStr "login and logout")]
           (answers JNull)).
  - reflexivity.
  - reflexivity.
  - repeat split.
  - reflexivity.
  - reflexivity.
  - intros k. by exists (JObj []).
Defined.

End Pipeline.

(** ** What handlers leave alone *)

Section Respects.

Context {R : Controller -> Controller -> Prop} {P : event -> Prop}.
Hypothesis R_refl : forall c, R c c.
Hypothesis R_trans : forall c1 c2 c3, R c1 c2 -> R c2 c3 -> R c1 c3.

Lemma respects_ret {A} (a : A) : respects R P (ret a).
Proof. intros c. split; [apply R_refl | constructor]. Qed.

Lemma respects_throw {A} e : respects R P (@throw A e).
Proof. intros c. split; [apply R_refl | constructor]. Qed.

Lemma respects_get : respects R P get.
Proof. intros c. split; [apply R_refl | constructor]. Qed.

Lemma respects_emit e : P e -> respects R P (emit e).
Proof. intros He c. split; [apply R_refl | by repeat constructor]. Qed.

Lemma respects_modify f : (forall c, R c (f c)) -> respects R P (modify f).
Proof. intros Hf c. split; [apply Hf | constructor]. Qed.

Lemma respects_lift {A} (r : thrown + A) : respects R P (lift r).
Proof. destruct r; [apply respects_throw | apply respects_ret]. Qed.

Lemma respects_await r : respects R P (await r).
Proof. destruct r; [apply respects_throw | apply respects_ret]. Qed.

Lemma respects_bind {A B} (m : M A) (k : A -> M B) :
  respects R P m -> (forall a, respects R P (k a)) -> respects R P (bind m k).
Proof.
  intros Hm Hk c. unfold bind. specialize (Hm c).
  destruct (m c) as [[[a | e] c1] es1]; cbn [fields emitted fst snd] in *; [| exact Hm].
  specialize (Hk a c1). destruct (k a c1) as [[r c2] es2]; cbn [fields emitted fst snd] in *.
  destruct Hm as [Hr1 Hs1], Hk as [Hr2 Hs2]. split; [eauto | by apply Forall_app].
Qed.

Lemma respects_try_catch {A} (m : M A) (h : thrown -> M A) :
  respects R P m -> (forall e, respects R P (h e)) -> respects R P (try_catch m h).
Proof.
  intros Hm Hh c. unfold try_catch. specialize (Hm c).
  destruct (m c) as [[[a | e] c1] es1]; cbn [fields emitted fst snd] in *; [exact Hm |].
  specialize (Hh e c1). destruct (h e c1) as [[r c2] es2]; cbn [fields emitted fst snd] in *.
  destruct Hm as [Hr1 Hs1], Hh as [Hr2 Hs2]. split; [eauto | by apply Forall_app].
Qed.

End Respects.

Section Order.

Lemma same_position_refl c : same_position c c.
Proof. reflexivity. Qed.

Lemma same_position_trans c1 c2 c3 :
  same_position c1 c2 -> same_position c2 c3 -> same_position c1 c3.
Proof. unfold same_position. congruence. Qed.

Lemma keeps_entries_refl c : keeps_entries c c.
Proof. split; auto. Qed.

Lemma keeps_entries_trans c1 c2 c3 :
  keeps_entries c1 c2 -> keeps_entries c2 c3 -> keeps_entries c1 c3.
Proof. intros [Hp1 He1] [Hp2 He2]. split; [congruence | auto]. Qed.

Lemma keeps_entries_insert c name value :
  keeps_entries c (set_agentOutputs <[name := value]> c).
Proof.
  split; [reflexivity |]. intros other Hs. cbn [set_agentOutputs agentOutputs].
  apply lookup_insert_is_Some. destruct (decide (name = other)); auto.
Qed.

Lemma keeps_entries_paths c f : keeps_entries c (set_tempFilePaths f c).
Proof. split; [reflexivity | auto]. Qed.

Lemma same_position_outputs c f : same_position c (set_agentOutputs f c).
Proof. reflexivity. Qed.

Lemma same_position_paths c f : same_position c (set_tempFilePaths f c).
Proof. reflexivity. Qed.

Create HintDb respect.

#[local] Hint Resolve same_position_refl same_position_trans keeps_entries_refl
  keeps_entries_trans keeps_entries_insert keeps_entries_paths same_position_outputs
  same_position_paths : respect.

(** Repeated steps through the structure of a handler body. *)
Ltac respecting :=
  repeat first
    [ solve [eauto with respect]
    | apply respects_ret; solve [eauto with respect]
    | apply respects_throw; solve [eauto with respect]
    | apply respects_get; solve [eauto with respect]
    | apply respects_lift; solve [eauto with respect]
    | apply respects_await; solve [eauto with respect]
    | apply respects_bind; [solve [eauto with respect] | | intros ?]
    | apply respects_try_catch; [solve [eauto with respect] | | intros ?]
    | apply respects_emit; [solve [eauto with respect] | solve [repeat split]]
    | apply respects_modify; intros ?; solve [eauto with respect] ].

Lemma dispatches_app es1 es2 acc :
  dispatches (es1 ++ es2) acc = dispatches es2 (dispatches es1 acc).
Proof.
  revert acc; induction es1 as [| e es1 IH]; intros acc; [reflexivity |].
  destruct e as [[] | | | | | | | | |]; simpl; apply IH.
Qed.

Lemma dispatches_silent es acc : Forall silent es -> dispatches es acc = acc.
Proof.
  induction 1 as [| e es He _ IH]; [reflexivity |].
  destruct e as [[] | | | | | | | | |]; simpl in *; solve [exact IH | destruct He].
Qed.

Lemma offered_buttonless es : Forall buttonless es -> offered es = [].
Proof.
  induction 1 as [| e es He _ IH]; [reflexivity |].
  destruct e as [| | text [[label cb] |] | | | | | | |]; simpl in *; solve [exact IH | destruct He].
Qed.

Lemma quiet_silent es : Forall quiet es -> Forall silent es.
Proof. intros H. eapply Forall_impl; [exact H |]. by intros e [Hs _]. Qed.

Lemma quiet_buttonless es : Forall quiet es -> Forall buttonless es.
Proof. intros H. eapply Forall_impl; [exact H |]. by intros e [_ Hb]. Qed.

Lemma discreet_neutral {A} (m : M A) : discreet m -> neutral m.
Proof.
  intros Hm c. destruct (Hm c) as [[Hp _] Hq]. split; [exact Hp | by apply quiet_silent].
Qed.

Lemma discreet_callApiEndpoint endpoint data r : discreet (callApiEndpoint endpoint data r).
Proof.
  unfold callApiEndpoint. respecting.
  destruct r as [e | status body]; [| destruct (res_ok status)]; respecting.
Qed.

#[local] Hint Resolve discreet_callApiEndpoint : respect.

Lemma discreet_invoke agent inputs c r : discreet (invoke agent inputs c r).
Proof.
  unfold invoke.
  repeat match goal with
         | |- context [String.eqb agent ?s] => destruct (String.eqb agent s); cbv iota
         end;
    respecting.
Qed.

Lemma discreet_validateTask agentName taskName output r :
  discreet (validateTask agentName taskName output r).
Proof. unfold validateTask, postMessage. respecting. Qed.

#[local] Hint Resolve discreet_invoke discreet_validateTask : respect.

Lemma discreet_validateEach agent answers tasks :
  forall k, discreet (validateEach agent tasks k answers).
Proof.
  induction tasks as [| t tasks IH]; intros k; cbn [validateEach]; respecting.
Qed.

#[local] Hint Resolve discreet_validateEach : respect.

Lemma discreet_failed_request : forall err : thrown,
  discreet (emit (ConsoleError "Error handling message:" err) ;;
            postMessage (error ("Failed to process request: " +:+ String_of err))).
Proof. intros err. unfold postMessage. respecting. Qed.

Lemma neutral_failed_request : forall err : thrown,
  neutral (emit (ConsoleError "Error handling message:" err) ;;
           postMessage (error ("Failed to process request: " +:+ String_of err))).
Proof. intros err. apply discreet_neutral, discreet_failed_request. Qed.

Lemma neutral_openOutputInEditor agent output w : neutral (openOutputInEditor agent output w).
Proof. unfold openOutputInEditor. respecting. Qed.

Lemma neutral_invoke agent inputs c r : neutral (invoke agent inputs c r).
Proof. apply discreet_neutral, discreet_invoke. Qed.

Lemma neutral_validateEach agent answers tasks k :
  neutral (validateEach agent tasks k answers).
Proof. apply discreet_neutral, discreet_validateEach. Qed.

#[local] Hint Resolve neutral_openOutputInEditor neutral_invoke neutral_validateEach : respect.

Lemma neutral_validateCurrentAgentOutput agent rv :
  neutral (validateCurrentAgentOutput agent rv).
Proof.
  unfold validateCurrentAgentOutput, JSON_parse, postMessage.
  repeat first
    [ progress respecting
    | match goal with
      | |- respects _ _ (match ?x with _ => _ end) => destruct x
      end ].
Qed.

Lemma moves_try_catch {A} (m : M A) (h : thrown -> M A) c :
  moves c (m c) -> (forall e, neutral (h e)) -> moves c (try_catch m h c).
Proof.
  intros Hm Hh. unfold try_catch, moves in *.
  destruct (m c) as [[[a | e] c1] es1]; cbn [fields emitted fst snd] in *; [exact Hm |].
  specialize (Hh e c1). destruct (h e c1) as [[r c2] es2]; cbn [fields emitted fst snd] in *.
  destruct Hh as [Hp Hs]. unfold same_position, position in Hp. injection Hp as Hsq Hix Hin.
  destruct Hm as (Hm1 & Hm2 & Hm3 & Hm4).
  repeat split; try congruence.
  rewrite dispatches_app, Hm4. by apply dispatches_silent.
Qed.

(** [processNextAgent] moves the index by one and announces exactly the
    agent at the new index, when the sequence has one there. *)
Lemma processNextAgent_moves env c :
  -1 <= currentAgentIndex c ->
  (initialInputs c = None -> agentSequence c = []) ->
  moves c (processNextAgent env c).
Proof.
  intros Hi Hnone. unfold processNextAgent.
  unfold bind at 1 2, modify at 1, get at 1.
  cbn [set_currentAgentIndex initialInputs agentSequence currentAgentIndex].
  replace (Z.succ (currentAgentIndex c)) with (currentAgentIndex c + 1) by lia.
  destruct (initialInputs c) as [inputs |] eqn:Hin.
  - destruct (Z.leb_spec (Z.of_nat (length (agentSequence c))) (currentAgentIndex c + 1))
      as [Hout | Hlt].
    + unfold moves; cbn. rewrite Hin. repeat split.
      rewrite !take_ge by lia. reflexivity.
    + destruct (lookup_lt_is_Some_2 (agentSequence c) (Z.to_nat (currentAgentIndex c + 1)))
        as [agent Hl]; [lia |].
      assert (0 <= currentAgentIndex c + 1) as Hge by lia.
      rewrite (element_lookup _ _ _ Hge Hl).
      match goal with
      | |- moves _ (let (p, es2) := (let (p0, es3) := bind _ ?k ?s in _) in _) =>
          assert (neutral (k tt)) as Hn
      end.
      { cbv beta. respecting. }
      cbv beta in Hn.
      unfold bind at 1, postMessage at 1, emit at 1.
      match goal with
      | |- context [try_catch ?b ?h ?s] =>
          destruct (Hn s) as [Hp Hs]; destruct (try_catch b h s) as [[r c2] es]
      end.
      cbn [fields emitted fst snd] in *. unfold same_position, position in Hp.
      cbn [set_currentAgentIndex agentSequence currentAgentIndex initialInputs] in Hp.
      injection Hp as Hsq Hix Hinp.
      unfold moves; cbn [fields emitted fst snd app dispatches].
      repeat split; try congruence; [lia |].
      rewrite dispatches_silent by exact Hs.
      replace (Z.to_nat (currentAgentIndex c + 2)) with (S (Z.to_nat (currentAgentIndex c + 1)))
        by lia.
      symmetry. by apply take_S_r.
  - unfold moves; cbn. rewrite Hin, (Hnone eq_refl). repeat split.
    by rewrite !take_nil.
Qed.

Lemma in_order_neutral {A} (w : World) (open : list callback) (m : M A) :
  in_order w -> neutral m -> in_order (commit w open m).
Proof.
  intros (Hi & Hnone & Hd) Hm. rewrite commit_run. destruct (Hm (ctrl w)) as [Hp Hs].
  unfold same_position, position in Hp. injection Hp as Hsq Hix Hin.
  unfold in_order; cbn [ctrl log]. rewrite Hsq, Hix, Hin. repeat split; auto.
  unfold dispatched. rewrite dispatches_app. rewrite dispatches_silent by exact Hs. exact Hd.
Qed.

Lemma in_order_moves {A} (w : World) (open : list callback) (m : M A) :
  in_order w -> moves (ctrl w) (m (ctrl w)) -> in_order (commit w open m).
Proof.
  intros (Hi & Hnone & Hd) (Hsq & Hin & Hix & Hdis). rewrite commit_run.
  unfold in_order; cbn [ctrl log]. rewrite Hsq, Hix, Hin. repeat split; auto; [lia |].
  unfold dispatched in *. rewrite dispatches_app, Hd.
  replace (currentAgentIndex (ctrl w) + 1 + 1) with (currentAgentIndex (ctrl w) + 2) by lia.
  exact Hdis.
Qed.

Lemma onDidReceiveMessage_start_run data env c :
  onDidReceiveMessage (MsgStartAgents data) env c =
    (ended (try_catch (processNextAgent env)
              (fun err =>
                 emit (ConsoleError "Error handling message:" err) ;;
                 postMessage (error ("Failed to process request: " +:+ String_of err)))
              (restarted data)),
     fields (try_catch (processNextAgent env)
               (fun err =>
                  emit (ConsoleError "Error handling message:" err) ;;
                  postMessage (error ("Failed to process request: " +:+ String_of err)))
               (restarted data)),
     PostMessage (setAgentSequence (agents data)) ::
     emitted (try_catch (processNextAgent env)
                (fun err =>
                   emit (ConsoleError "Error handling message:" err) ;;
                   postMessage (error ("Failed to process request: " +:+ String_of err)))
                (restarted data))).
Proof.
  unfold onDidReceiveMessage, try_catch.
  unfold bind at 1 2, modify at 1, postMessage at 1, emit at 1.
  destruct (processNextAgent env (restarted data)) as [[[[] | e] c1] es1]; reflexivity.
Qed.

(** A [startAgents] message begins the count again. *)
Lemma in_order_start w open data env :
  in_order (commit w open (onDidReceiveMessage (MsgStartAgents data) env)).
Proof.
  rewrite commit_run, onDidReceiveMessage_start_run. cbn [fields emitted fst snd].
  assert (-1 <= currentAgentIndex (restarted data)) as Hi by (simpl; lia).
  assert (initialInputs (restarted data) = None -> agentSequence (restarted data) = [])
    as Hnone by discriminate.
  destruct (moves_try_catch (processNextAgent env) _ (restarted data)
              (processNextAgent_moves env (restarted data) Hi Hnone)
              neutral_failed_request) as (Hsq & Hin & Hix & Hdis).
  unfold in_order; cbn [ctrl log]. rewrite Hsq, Hin, Hix.
  cbn [restarted agentSequence currentAgentIndex initialInputs] in *.
  repeat split; [lia | discriminate |].
  unfold dispatched. rewrite dispatches_app. cbn [dispatches].
  exact Hdis.
Qed.

(** The messages that do not dispatch. *)
Lemma discreet_message message env :
  guided (Receive message env) -> discreet (onDidReceiveMessage message env).
Proof.
  destruct message; cbn [guided]; try tauto; intros _;
    unfold onDidReceiveMessage, postMessage, saveData; respecting.
Qed.

Lemma in_order_step w s : in_order w -> in_order (step w s).
Proof.
  intros Hw.
  destruct s as [[data | | agentName taskName output | data | data] env
                | agent rv | env | cb]; cbn [step].
  - apply in_order_start.
  - apply in_order_moves; [exact Hw |]. unfold onDidReceiveMessage.
    apply moves_try_catch; [| exact neutral_failed_request].
    destruct Hw as (Hi & Hnone & _). by apply processNextAgent_moves.
  - apply in_order_neutral; [exact Hw |]. by apply discreet_neutral, discreet_message.
  - apply in_order_neutral; [exact Hw |]. by apply discreet_neutral, discreet_message.
  - apply in_order_neutral; [exact Hw |]. by apply discreet_neutral, discreet_message.
  - destruct (answer (OnValidate agent) (pending w)); [| exact Hw].
    apply in_order_neutral; [exact Hw | apply neutral_validateCurrentAgentOutput].
  - destruct (answer OnContinue (pending w)); [| exact Hw].
    apply in_order_moves; [exact Hw |].
    destruct Hw as (Hi & Hnone & _). by apply processNextAgent_moves.
  - destruct (answer cb (pending w)); exact Hw.
Qed.

Lemma in_order_run ss : forall w, in_order w -> in_order (run w ss).
Proof.
  induction ss as [| s ss IH]; intros w Hw; [exact Hw |].
  cbn [run fold_left]. apply IH. by apply in_order_step.
Qed.

Lemma in_order_boot : in_order boot.
Proof. repeat split. simpl. lia. Qed.

(** ** Buttons *)

Lemma openOutputInEditor_button agent output w c :
  keeps_entries c (fields (openOutputInEditor agent output w c)) /\
  (offered (emitted (openOutputInEditor agent output w c)) = [] \/
   offered (emitted (openOutputInEditor agent output w c)) = [OnValidate agent]).
Proof.
  destruct w as [now [e1 |] [e2 |] [e3 |] [e4 |]];
    (split; [split; [reflexivity | auto] | cbn; auto]).
Qed.

(** The [try] block of [processNextAgent] with its [catch]: nothing
    leaves the store and at most the [Validate] button of the agent is
    offered. *)
Lemma dispatch_button agent inputs c env c1 :
  exists r c' es,
    try_catch
      (output <- invoke agent inputs c (reply env) ;;
       modify (set_agentOutputs <[agent := output]>) ;;
       openOutputInEditor agent output (bench env) ;;
       tasks <- lift (Object_keys output) ;;
       postMessage (validateAgent agent tasks output))
      (fun err =>
         emit (ConsoleError ("Error in agent " +:+ agent +:+ ":") err) ;;
         postMessage (error ("Agent " +:+ agent +:+ " failed: " +:+ String_of err)))
      c1 = (r, c', es) /\
    keeps_entries c1 c' /\
    (offered es = [] \/ offered es = [OnValidate agent]).
Proof.
  unfold try_catch. unfold bind at 1.
  destruct (discreet_invoke agent inputs c (reply env) c1) as [Hk2 Hq2].
  destruct (invoke agent inputs c (reply env) c1) as [[[output | e] c2] es2];
    cbn [fields emitted fst snd] in *.
  - unfold bind at 1, modify at 1. unfold bind at 1.
    destruct (openOutputInEditor_button agent output (bench env)
                (set_agentOutputs <[agent := output]> c2)) as [Hk4 Hb4].
    pose proof (keeps_entries_insert c2 agent output) as Hk3.
    destruct (openOutputInEditor agent output (bench env) _) as [[[[] | e4] c4] es4];
      cbn [fields emitted fst snd] in *.
    + unfold bind at 1. destruct (Object_keys output) as [e5 | tasks]; cbn;
        (eexists _, _, _; split; [reflexivity |]);
        (split; [eauto using keeps_entries_trans |]);
        rewrite !offered_app, (offered_buttonless es2) by (by apply quiet_buttonless);
        cbn; rewrite ?app_nil_r; exact Hb4.
    + cbn. eexists _, _, _; split; [reflexivity |].
      split; [eauto using keeps_entries_trans |].
      rewrite !offered_app, (offered_buttonless es2) by (by apply quiet_buttonless).
      cbn; rewrite ?app_nil_r; exact Hb4.
  - cbn. eexists _, _, _; split; [reflexivity |]. split; [exact Hk2 |]. left.
    rewrite !offered_app, (offered_buttonless es2) by (by apply quiet_buttonless).
    reflexivity.
Qed.

Lemma processNextAgent_button env c :
  -1 <= currentAgentIndex c ->
  exists r c' es,
    processNextAgent env c = (r, c', es) /\
    (forall name, is_Some (agentOutputs c !! name) -> is_Some (agentOutputs c' !! name)) /\
    (offered es = [] \/
     exists agent,
       offered es = [OnValidate agent] /\
       agentSequence c !! Z.to_nat (currentAgentIndex c + 1) = Some agent).
Proof.
  intros Hi. unfold processNextAgent.
  unfold bind at 1 2, modify at 1, get at 1.
  cbn [set_currentAgentIndex initialInputs agentSequence currentAgentIndex].
  replace (Z.succ (currentAgentIndex c)) with (currentAgentIndex c + 1) by lia.
  destruct (initialInputs c) as [inputs |] eqn:Hin.
  - destruct (Z.leb_spec (Z.of_nat (length (agentSequence c))) (currentAgentIndex c + 1))
      as [Hout | Hlt].
    + cbn. eexists _, _, _; split; [reflexivity |]. split; auto.
    + destruct (lookup_lt_is_Some_2 (agentSequence c) (Z.to_nat (currentAgentIndex c + 1)))
        as [agent Hl]; [lia |].
      assert (0 <= currentAgentIndex c + 1) as Hge by lia.
      rewrite (element_lookup _ _ _ Hge Hl).
      unfold bind at 1, postMessage at 1, emit at 1.
      match goal with
      | |- context [try_catch (bind (invoke agent inputs ?c0 _) _) _ ?c1] =>
          destruct (dispatch_button agent inputs c0 env c1) as (r & c' & es & -> & Hk & Hb)
      end.
      cbn. eexists _, _, _; split; [reflexivity |]. split.
      * intros name Hs. by apply Hk.
      * destruct Hb as [Hb | Hb]; [by left | right; eauto].
  - cbn. eexists _, _, _; split; [reflexivity |]. split; auto.
Qed.

(** A submission drops no entry and offers at most the [Continue] button,
    which it offers only after it has told the webview that the agent is
    validated, the submitted value being in the store. *)
Lemma validateCurrentAgentOutput_button agent rv c :
  exists r c' es,
    validateCurrentAgentOutput agent rv c = (r, c', es) /\
    keeps_entries c c' /\
    (offered es = [] \/
     (offered es = [OnContinue] /\
      In (PostMessage (agentValidated agent true)) es /\
      is_Some (agentOutputs c' !! agent))).
Proof.
  unfold validateCurrentAgentOutput, try_catch. unfold bind at 1, get at 1.
  destruct (tempFilePaths c !! agent) as [path |].
  - unfold bind at 1 2, emit at 1.
    destruct (document rv) as [e | [e | value]]; cbn [lift ret throw fst snd].
    + destruct e; cbn; (eexists _, _, _; split; [reflexivity |]);
        (split; [apply keeps_entries_refl | by left]).
    + destruct e; cbn; (eexists _, _, _; split; [reflexivity |]);
        (split; [apply keeps_entries_refl | by left]).
    + unfold bind at 1, JSON_parse, ret at 1. unfold bind at 1, modify at 1.
      unfold bind at 1.
      pose proof (keeps_entries_insert c agent value) as Hk1.
      destruct (Object_keys value) as [e | tasks]; cbn [lift ret throw fst snd].
      * destruct e; cbn; (eexists _, _, _; split; [reflexivity |]);
          (split; [exact Hk1 | by left]).
      * unfold bind at 1.
        destruct (discreet_validateEach agent (validation rv) tasks 0%nat
                    (set_agentOutputs <[agent := value]> c)) as [Hk2 Hq2].
        destruct (validateEach agent tasks 0 (validation rv) _) as [[[[] | e] c2] es2];
          cbn [fields emitted fst snd] in *.
        -- cbn. eexists _, _, _; split; [reflexivity |].
           split; [eauto using keeps_entries_trans |]. right.
           cbn [offered app]. rewrite ?offered_app.
           rewrite (offered_buttonless es2) by (by apply quiet_buttonless).
           split; [reflexivity |]. split.
           ++ right. apply in_or_app. right. by left.
           ++ apply Hk2. rewrite stored_insert. eauto.
        -- destruct e; cbn; (eexists _, _, _; split; [reflexivity |]);
             (split; [eauto using keeps_entries_trans |]); left;
             cbn [offered app]; rewrite ?offered_app;
             rewrite (offered_buttonless es2) by (by apply quiet_buttonless);
             reflexivity.
  - cbn. eexists _, _, _; split; [reflexivity |].
    split; [apply keeps_entries_refl | by left].
Qed.

(** ** Runs that advance with the buttons only *)

Lemma validated_later w w' agent :
  (forall e, In e (log w) -> In e (log w')) ->
  (forall name, is_Some (agentOutputs (ctrl w) !! name) ->
                is_Some (agentOutputs (ctrl w') !! name)) ->
  validated w agent -> validated w' agent.
Proof. intros Hl Hk [Hin Hs]. split; auto. Qed.

Lemma on_rails_discreet {A} (w : World) (m : M A) :
  on_rails w -> discreet m -> on_rails (commit w (pending w) m).
Proof.
  intros (Hi & Hin & Hrev & Hpen) Hm. rewrite commit_run.
  destruct (Hm (ctrl w)) as [[Hp Hk] Hq].
  unfold position in Hp. injection Hp as Hsq Hix Hinp.
  assert (forall agent, validated w agent ->
            validated {| ctrl := fields (m (ctrl w));
                         pending := pending w ++ offered (emitted (m (ctrl w)));
                         log := log w ++ emitted (m (ctrl w)) |} agent) as Hlater.
  { intros agent. apply validated_later; cbn [ctrl log]; auto.
    intros e He. apply in_or_app. by left. }
  unfold on_rails, reviewed_so_far. cbn [ctrl pending log].
  rewrite Hsq, Hix, Hinp, (offered_buttonless _ (quiet_buttonless _ Hq)), app_nil_r.
  split; [exact Hi |]. split; [exact Hin |]. split.
  - intros j agent Hj Hl. apply Hlater. eapply Hrev; eauto.
  - destruct Hpen as [Hp | [(agent & Hp & Hl) | (Hp & Hv)]]; [by left | right; left; eauto |].
    right; right. split; [exact Hp |]. intros agent Hl. apply Hlater. by apply Hv.
Qed.

Lemma on_rails_validate w agent rv :
  on_rails w -> on_rails (step w (PressValidate agent rv)).
Proof.
  intros Hw. pose proof Hw as (Hi & Hin & Hrev & Hpen). cbn [step].
  destruct Hpen as [Hp | [(current & Hp & Hl) | (Hp & Hv)]]; rewrite Hp; cbn [answer].
  - exact Hw.
  - destruct (decide (OnValidate current = OnValidate agent)) as [Heq | _];
      cbn [option_map]; [| exact Hw].
    injection Heq as ->. rewrite commit_run.
    destruct (validateCurrentAgentOutput_button agent rv (ctrl w))
      as (r & c' & es & -> & [Hpos Hk] & Hb).
    cbn [fields emitted fst snd app].
    unfold position in Hpos. injection Hpos as Hsq Hix Hinp.
    assert (forall a, validated w a ->
              validated {| ctrl := c'; pending := offered es; log := log w ++ es |} a)
      as Hlater.
    { intros a. apply validated_later; cbn [ctrl log]; auto.
      intros e He. apply in_or_app. by left. }
    unfold on_rails, reviewed_so_far. cbn [ctrl pending log]. rewrite Hsq, Hix, Hinp.
    split; [exact Hi |]. split; [exact Hin |]. split.
    + intros j a Hj Hla. apply Hlater. eapply Hrev; eauto.
    + destruct Hb as [Hb | (Hb & Hposted & Hentry)]; [by left |].
      right; right. split; [exact Hb |]. intros a Hla.
      assert (a = agent) as -> by congruence.
      split; cbn [ctrl log]; [apply in_or_app; by right | exact Hentry].
  - exact Hw.
Qed.

Lemma on_rails_continue w env :
  on_rails w -> on_rails (step w (PressContinue env)).
Proof.
  intros Hw. pose proof Hw as (Hi & Hin & Hrev & Hpen). cbn [step].
  destruct Hpen as [Hp | [(current & Hp & Hl) | (Hp & Hv)]]; rewrite Hp; cbn [answer].
  - exact Hw.
  - exact Hw.
  - destruct (decide (OnContinue = OnContinue)) as [_ | Hne]; [| by destruct Hne].
    rewrite commit_run.
    assert (-1 <= currentAgentIndex (ctrl w)) as Hm1 by lia.
    pose proof (processNextAgent_moves env (ctrl w) Hm1 ltac:(intros; contradiction))
      as (Hsq & Hinp & Hix & _).
    destruct (processNextAgent_button env (ctrl w) Hm1) as (r & c' & es & Hrun & Hk & Hb).
    rewrite Hrun in *. cbn [fields emitted fst snd app] in *.
    assert (forall a, validated w a ->
              validated {| ctrl := c'; pending := offered es; log := log w ++ es |} a)
      as Hlater.
    { intros a. apply validated_later; cbn [ctrl log]; auto.
      intros e He. apply in_or_app. by left. }
    unfold on_rails, reviewed_so_far. cbn [ctrl pending log]. rewrite Hsq, Hix, Hinp.
    split; [lia |]. split; [exact Hin |]. split.
    + intros j a Hj Hla. apply Hlater.
      destruct (Z.eq_dec (Z.of_nat j) (currentAgentIndex (ctrl w))) as [Heq | Hne].
      * apply Hv. rewrite <- Heq, Nat2Z.id. exact Hla.
      * eapply Hrev; eauto. lia.
    + destruct Hb as [Hb | (a & Hb & Hla)]; [by left | right; left; eauto].
Qed.

Lemma on_rails_dismiss w cb : on_rails w -> on_rails (step w (Dismiss cb)).
Proof.
  intros Hw. pose proof Hw as (Hi & Hin & Hrev & Hpen). cbn [step].
  destruct (answer cb (pending w)) as [open |] eqn:Ha; [| exact Hw].
  assert (open = []) as ->.
  { destruct Hpen as [Hp | [(current & Hp & Hl) | (Hp & Hv)]]; rewrite Hp in Ha;
      cbn [answer] in Ha; try discriminate;
      destruct (decide (_ = cb)); cbn in Ha; congruence. }
  split; [exact Hi |]. split; [exact Hin |]. split; [exact Hrev | by left].
Qed.

Lemma on_rails_step w s : guided s -> on_rails w -> on_rails (step w s).
Proof.
  intros Hs Hw. destruct s as [message env | agent rv | env | cb].
  - cbn [step]. apply on_rails_discreet; [exact Hw | by apply discreet_message].
  - by apply on_rails_validate.
  - by apply on_rails_continue.
  - by apply on_rails_dismiss.
Qed.

Lemma on_rails_run ss : Forall guided ss -> forall w, on_rails w -> on_rails (run w ss).
Proof.
  induction 1 as [| s ss Hs _ IH]; intros w Hw; [exact Hw |].
  cbn [run fold_left]. apply IH. by apply on_rails_step.
Qed.

(** A run begins on the rails. *)
Lemma on_rails_start data env :
  on_rails (step boot (Receive (MsgStartAgents data) env)).
Proof.
  cbn [step]. rewrite commit_run, onDidReceiveMessage_start_run.
  cbn [fields emitted fst snd boot ctrl pending log app].
  assert (-1 <= currentAgentIndex (restarted data)) as Hm1 by (simpl; lia).
  pose proof (processNextAgent_moves env (restarted data) Hm1 ltac:(discriminate))
    as (Hsq & Hinp & Hix & _).
  destruct (processNextAgent_button env (restarted data) Hm1)
    as (r & c' & es & Hrun & Hk & Hb).
  unfold try_catch. rewrite Hrun in *. cbn [fields emitted fst snd] in *.
  cbn [restarted agentSequence currentAgentIndex initialInputs] in *.
  destruct r as [[] | e]; cbn [fields emitted fst snd offered].
  - unfold on_rails, reviewed_so_far. cbn [ctrl pending log]. rewrite Hsq, Hix, Hinp.
    split; [lia |]. split; [discriminate |]. split; [intros; lia |].
    destruct Hb as [Hb | (a & Hb & Hla)]; [by left | right; left; eauto].
  - pose proof (discreet_failed_request e c') as Hh.
    match type of Hh with
    | context [fields ?x] => destruct x as [[r2 c2] es2]
    end.
    destruct Hh as [[Hpos _] Hq]. cbn [fields emitted fst snd] in *.
    unfold position in Hpos. injection Hpos as Hsq2 Hix2 Hinp2.
    unfold on_rails, reviewed_so_far. cbn [ctrl pending log].
    rewrite Hsq2, Hix2, Hinp2, Hsq, Hix, Hinp.
    rewrite offered_app, (offered_buttonless es2 (quiet_buttonless _ Hq)), app_nil_r.
    split; [lia |]. split; [discriminate |]. split; [intros; lia |].
    destruct Hb as [Hb | (a & Hb & Hla)]; [by left | right; left; eauto].
Qed.

(** ** Where the entries of the store come from *)

Lemma invoke_fields agent inputs c r c1 : fields (invoke agent inputs c r c1) = c1.
Proof.
  unfold invoke.
  repeat match goal with
         | |- context [String.eqb agent ?s] => destruct (String.eqb agent s); cbv iota
         end;
    rewrite ?callApiEndpoint_run; reflexivity.
Qed.

Lemma openOutputInEditor_shape agent output w c :
  agentOutputs (fields (openOutputInEditor agent output w c)) = agentOutputs c /\
  (tempFilePaths (fields (openOutputInEditor agent output w c)) = tempFilePaths c \/
   exists path,
     tempFilePaths (fields (openOutputInEditor agent output w c))
       = <[agent := path]> (tempFilePaths c)).
Proof.
  destruct w as [now [e1 |] [e2 |] [e3 |] [e4 |]];
    (split; [reflexivity | cbn; eauto]).
Qed.

Lemma dispatch_neutral agent inputs c env :
  neutral
    (try_catch
       (output <- invoke agent inputs c (reply env) ;;
        modify (set_agentOutputs <[agent := output]>) ;;
        openOutputInEditor agent output (bench env) ;;
        tasks <- lift (Object_keys output) ;;
        postMessage (validateAgent agent tasks output))
       (fun err =>
          emit (ConsoleError ("Error in agent " +:+ agent +:+ ":") err) ;;
          postMessage (error ("Agent " +:+ agent +:+ " failed: " +:+ String_of err)))).
Proof. unfold postMessage. respecting. Qed.

(** What the [try] block of [processNextAgent] and its [catch] leave
    behind: nothing, or the reply in the store, with or without the
    review document registered. *)
Lemma dispatch_shape agent inputs c env c1 :
  exists r c' es,
    try_catch
      (output <- invoke agent inputs c (reply env) ;;
       modify (set_agentOutputs <[agent := output]>) ;;
       openOutputInEditor agent output (bench env) ;;
       tasks <- lift (Object_keys output) ;;
       postMessage (validateAgent agent tasks output))
      (fun err =>
         emit (ConsoleError ("Error in agent " +:+ agent +:+ ":") err) ;;
         postMessage (error ("Agent " +:+ agent +:+ " failed: " +:+ String_of err)))
      c1 = (r, c', es) /\
    ((agentOutputs c' = agentOutputs c1 /\ tempFilePaths c' = tempFilePaths c1) \/
     (exists output,
        agentOutputs c' = <[agent := output]> (agentOutputs c1) /\
        (tempFilePaths c' = tempFilePaths c1 \/
         exists path, tempFilePaths c' = <[agent := path]> (tempFilePaths c1)))).
Proof.
  unfold try_catch. unfold bind at 1.
  pose proof (invoke_fields agent inputs c (reply env) c1) as Hf.
  destruct (invoke agent inputs c (reply env) c1) as [[[output | e] c2] es2];
    cbn [fields emitted fst snd] in Hf; subst c2.
  - unfold bind at 1, modify at 1. unfold bind at 1.
    destruct (openOutputInEditor_shape agent output (bench env)
                (set_agentOutputs <[agent := output]> c1)) as [Ho Ht].
    destruct (openOutputInEditor agent output (bench env) _) as [[[[] | e4] c4] es4];
      cbn [fields emitted fst snd] in *.
    + unfold bind at 1. destruct (Object_keys output) as [e5 | tasks]; cbn;
        (eexists _, _, _; split; [reflexivity |]); right; exists output; eauto.
    + cbn. eexists _, _, _; split; [reflexivity |]. right; exists output; eauto.
  - cbn. eexists _, _, _; split; [reflexivity |]. by left.
Qed.

Lemma processNextAgent_accounted env c acc :
  -1 <= currentAgentIndex c ->
  entries_accounted c acc ->
  exists r c' es,
    processNextAgent env c = (r, c', es) /\
    entries_accounted c' (dispatches es acc).
Proof.
  intros Hi [Hpaths Hentries]. unfold processNextAgent.
  unfold bind at 1 2, modify at 1, get at 1.
  cbn [set_currentAgentIndex initialInputs agentSequence currentAgentIndex].
  replace (Z.succ (currentAgentIndex c)) with (currentAgentIndex c + 1) by lia.
  destruct (initialInputs c) as [inputs |] eqn:Hin.
  - destruct (Z.leb_spec (Z.of_nat (length (agentSequence c))) (currentAgentIndex c + 1))
      as [Hout | Hlt].
    + cbn. eexists _, _, _; split; [reflexivity |]. split; auto.
    + destruct (lookup_lt_is_Some_2 (agentSequence c) (Z.to_nat (currentAgentIndex c + 1)))
        as [agent Hl]; [lia |].
      assert (0 <= currentAgentIndex c + 1) as Hge by lia.
      rewrite (element_lookup _ _ _ Hge Hl).
      unfold bind at 1, postMessage at 1, emit at 1.
      match goal with
      | |- context [try_catch (bind (invoke agent inputs ?c0 _) _) _ ?c1] =>
          pose proof (dispatch_neutral agent inputs c0 env c1) as [_ Hs];
          destruct (dispatch_shape agent inputs c0 env c1) as (r & c' & es & Hrun & Hshape);
          rewrite Hrun in *
      end.
      cbn [fields emitted fst snd app dispatches set_currentAgentIndex agentOutputs
             tempFilePaths] in *.
      eexists _, _, _; split; [reflexivity |]. cbn [app dispatches].
      rewrite (dispatches_silent es _ Hs).
      destruct Hshape as [[Ho Ht] | (output & Ho & Ht)]; unfold entries_accounted; rewrite Ho.
      * rewrite Ht. split; [exact Hpaths |].
        intros name Hn. apply in_or_app. left. by apply Hentries.
      * split.
        -- intros name Hn. apply lookup_insert_is_Some.
           destruct (decide (agent = name)) as [-> | Hne]; [by left | right].
           split; [exact Hne |]. apply Hpaths.
           destruct Ht as [Ht | [path Ht]]; rewrite Ht in Hn; [exact Hn |].
           apply lookup_insert_is_Some in Hn. destruct Hn as [Heq | [_ Hn]]; [| exact Hn].
           by destruct Hne.
        -- intros name Hn. apply in_or_app.
           apply lookup_insert_is_Some in Hn.
           destruct Hn as [<- | [_ Hn]]; [right; by left | left; by apply Hentries].
  - cbn. eexists _, _, _; split; [reflexivity |]. split; auto.
Qed.

Lemma validateTask_domain agentName taskName output r c :
  no_new_entries c (validateTask agentName taskName output r c).
Proof.
  rewrite validateTask_run. cbv zeta.
  destruct (api_result r) as [e | ack]; [by split |].
  destruct (set_property (stored c agentName) taskName output) as [e | updated] eqn:Hset;
    [by split |].
  split; [reflexivity |]. cbn. intros name Hn.
  apply lookup_insert_is_Some in Hn. destruct Hn as [<- | [_ Hn]]; [| exact Hn].
  unfold stored in Hset. destruct (agentOutputs c !! agentName); [eauto | discriminate].
Qed.

Lemma validateEach_domain agent answers tasks :
  forall k c, no_new_entries c (validateEach agent tasks k answers c).
Proof.
  induction tasks as [| t tasks IH]; intros k c; [by split |].
  cbn [validateEach]. unfold bind at 1 2, get at 1.
  destruct (validateTask_domain agent t (get_property (stored c agent) t) (answers k) c)
    as [Ht Ho].
  destruct (validateTask agent t _ (answers k) c) as [[[[] | e] c1] es1];
    cbn [fields emitted fst snd] in *; [| by split].
  destruct (IH (S k) c1) as [Ht2 Ho2].
  destruct (validateEach agent tasks (S k) answers c1) as [[r2 c2] es2];
    cbn [fields emitted fst snd] in *.
  split; cbn [fields fst snd]; [congruence | auto].
Qed.

Lemma validateCurrentAgentOutput_domain agent rv c :
  (forall name, is_Some (tempFilePaths c !! name) -> is_Some (agentOutputs c !! name)) ->
  no_new_entries c (validateCurrentAgentOutput agent rv c).
Proof.
  intros Hpaths.
  unfold validateCurrentAgentOutput, try_catch. unfold bind at 1, get at 1.
  destruct (tempFilePaths c !! agent) as [path |] eqn:Hp.
  - assert (is_Some (agentOutputs c !! agent)) as Hentry by (apply Hpaths; eauto).
    assert (forall value name,
              is_Some (agentOutputs (set_agentOutputs <[agent := value]> c) !! name) ->
              is_Some (agentOutputs c !! name)) as Hsame.
    { intros value name Hn. cbn in Hn. apply lookup_insert_is_Some in Hn.
      destruct Hn as [<- | [_ Hn]]; auto. }
    unfold bind at 1 2, emit at 1.
    destruct (document rv) as [e | [e | value]]; cbn [lift ret throw fst snd].
    + destruct e; cbn; by split.
    + destruct e; cbn; by split.
    + unfold bind at 1, JSON_parse, ret at 1. unfold bind at 1, modify at 1.
      unfold bind at 1.
      destruct (Object_keys value) as [e | tasks]; cbn [lift ret throw fst snd].
      * destruct e; cbn; (split; [reflexivity | apply Hsame]).
      * unfold bind at 1.
        destruct (validateEach_domain agent (validation rv) tasks 0%nat
                    (set_agentOutputs <[agent := value]> c)) as [Ht Ho].
        destruct (validateEach agent tasks 0 (validation rv) _) as [[[[] | e] c2] es2];
          cbn [fields emitted fst snd] in *.
        -- cbn. split; [exact Ht |]. intros name Hn. eapply Hsame, Ho, Hn.
        -- destruct e; cbn; (split; [exact Ht |]); intros entry Hn; eapply Hsame, Ho, Hn.
  - cbn. by split.
Qed.

Lemma message_domain message env c :
  guided (Receive message env) ->
  no_new_entries c (onDidReceiveMessage message env c).
Proof.
  destruct message as [data | | agentName taskName output | data | data];
    cbn [guided]; try tauto; intros _; unfold onDidReceiveMessage, try_catch.
  - pose proof (validateTask_domain agentName taskName output (reply env) c) as Hd.
    destruct (validateTask agentName taskName output (reply env) c) as [[[[] | e] c1] es1];
      cbn [fields emitted fst snd] in *; exact Hd.
  - unfold saveData. destruct (bench env) as [now [e1 |] [e2 |] d3 d4], data; cbn; by split.
  - cbn. by split.
Qed.

Lemma accounted_same w pending' c' es :
  accounted w ->
  Forall silent es ->
  keeps_entries (ctrl w) c' ->
  no_new_entries (A := unit) (ctrl w) (Returned tt, c', es) ->
  accounted {| ctrl := c'; pending := pending'; log := log w ++ es |}.
Proof.
  intros [Hpaths Hentries] Hs [_ Hkeep] [Ht Ho]. cbn [fields fst snd] in *.
  unfold accounted, entries_accounted, dispatched. cbn [ctrl log].
  rewrite dispatches_app, (dispatches_silent es _ Hs), Ht. split.
  - intros name Hn. by apply Hkeep, Hpaths.
  - intros name Hn. by apply Hentries, Ho.
Qed.

Lemma accounted_dispatch w pending' env :
  in_order w ->
  accounted w ->
  accounted {| ctrl := fields (processNextAgent env (ctrl w));
               pending := pending';
               log := log w ++ emitted (processNextAgent env (ctrl w)) |}.
Proof.
  intros (Hi & _ & _) Hacc.
  destruct (processNextAgent_accounted env (ctrl w) (dispatched (log w)) Hi Hacc)
    as (r & c' & es & -> & Hres).
  unfold accounted, dispatched. cbn [ctrl log fields emitted fst snd].
  by rewrite dispatches_app.
Qed.

Lemma accounted_step w s : in_order w -> accounted w -> accounted (step w s).
Proof.
  intros Hord Hacc.
  destruct s as [[data | | agentName taskName output | data | data] env
                | agent rv | env | cb]; cbn [step]; rewrite ?commit_run.
  - (* startAgents *)
    rewrite onDidReceiveMessage_start_run. cbn [fields emitted fst snd].
    assert (-1 <= currentAgentIndex (restarted data)) as Hm1 by (simpl; lia).
    assert (entries_accounted (restarted data) []) as Hempty.
    { split; intros name [x Hx]; cbn in Hx; by rewrite lookup_empty in Hx. }
    destruct (processNextAgent_accounted env (restarted data) [] Hm1 Hempty)
      as (r & c' & es & Hrun & Hres).
    unfold try_catch. rewrite Hrun.
    unfold accounted, dispatched. cbn [ctrl log].
    destruct r as [[] | e]; cbn -[String_of String.append];
      rewrite dispatches_app; cbn [dispatches]; [exact Hres |].
    rewrite dispatches_app. exact Hres.
  - (* continueAgent *)
    unfold onDidReceiveMessage, try_catch.
    pose proof Hord as (Hi & _ & _).
    destruct (processNextAgent_accounted env (ctrl w) (dispatched (log w)) Hi Hacc)
      as (r & c' & es & -> & Hres).
    unfold accounted, dispatched. cbn [ctrl log].
    destruct r as [[] | e]; cbn -[String_of String.append];
      rewrite dispatches_app; [exact Hres |].
    rewrite dispatches_app. exact Hres.
  - pose proof (discreet_message (MsgValidateTask agentName taskName output) env I (ctrl w))
      as [Hk Hq].
    pose proof (message_domain (MsgValidateTask agentName taskName output) env (ctrl w) I)
      as Hd.
    apply accounted_same; auto using quiet_silent.
  - pose proof (discreet_message (MsgSaveData data) env I (ctrl w)) as [Hk Hq].
    pose proof (message_domain (MsgSaveData data) env (ctrl w) I) as Hd.
    apply accounted_same; auto using quiet_silent.
  - pose proof (discreet_message (MsgLog data) env I (ctrl w)) as [Hk Hq].
    pose proof (message_domain (MsgLog data) env (ctrl w) I) as Hd.
    apply accounted_same; auto using quiet_silent.
  - destruct (answer (OnValidate agent) (pending w)) as [open |]; [| exact Hacc].
    rewrite commit_run.
    pose proof (neutral_validateCurrentAgentOutput agent rv (ctrl w)) as [_ Hs].
    pose proof (validateCurrentAgentOutput_domain agent rv (ctrl w) (proj1 Hacc)) as Hd.
    destruct (validateCurrentAgentOutput_button agent rv (ctrl w))
      as (r & c' & es & Hrun & Hk & _).
    rewrite Hrun in *. cbn [fields emitted fst snd] in *.
    apply accounted_same; auto.
  - destruct (answer OnContinue (pending w)) as [open |]; [| exact Hacc].
    rewrite commit_run. by apply accounted_dispatch.
  - destruct (answer cb (pending w)); exact Hacc.
Qed.

Lemma accounted_run ss : forall w, in_order w -> accounted w -> accounted (run w ss).
Proof.
  induction ss as [| s ss IH]; intros w Hord Hacc; [exact Hacc |].
  cbn [run fold_left]. apply IH; [by apply in_order_step | by apply accounted_step].
Qed.

Lemma accounted_boot : accounted boot.
Proof. split; intros name [x Hx]; cbn in Hx; by rewrite lookup_empty in Hx. Qed.

End Order.

Section Store.

(** An agent counted among the dispatched has had its [agentStarted]
    posted. *)
Lemma dispatches_started name es : forall acc,
  In name (dispatches es acc) ->
  In name acc \/ In (PostMessage (agentStarted name)) es.
Proof.
  induction es as [| e es IH]; intros acc Hin; [by left |].
  destruct e as [[seq | | agent | | | |] | | | | | | | | |]; cbn [dispatches] in Hin;
    try (destruct (IH _ Hin) as [H | H]; [by left | right; by right]).
  destruct (IH _ Hin) as [H | H]; [| right; by right].
  apply in_app_or in H as [H | [-> | []]]; [by left | right; by left].
Qed.

(** Whatever the backend makes of the tasks, the loop leaves the object
    of the store as it found it: a task that is acknowledged is written
    back with the value it has. *)
Lemma validateEach_keeps_object agent props answers tasks :
  (forall t, In t tasks -> In t (map fst props)) ->
  forall k c,
    agentOutputs c !! agent = Some (JObj props) ->
    fields (validateEach agent tasks k answers c) = c.
Proof.
  induction tasks as [| t rest IH]; intros Hsub k c Hst; [reflexivity |].
  cbn [validateEach]. unfold bind at 1 2, get at 1.
  assert (stored c agent = JObj props) as Hs by (unfold stored; by rewrite Hst).
  rewrite validateTask_run, Hs. cbv zeta.
  destruct (api_result (answers k)) as [e | ack]; [reflexivity |].
  destruct (obj_get_key t props) as [x Hx]; [apply Hsub; by left |].
  assert (get_property (JObj props) t = x) as Hg by (simpl; by rewrite Hx).
  rewrite Hg. cbn [set_property]. rewrite (obj_set_same _ _ _ Hx).
  rewrite (set_agentOutputs_insert_id _ _ _ Hst).
  specialize (IH (fun t' H => Hsub t' (or_intror H)) (S k) c Hst).
  destruct (validateEach agent rest (S k) answers c) as [[r c'] es]. exact IH.
Qed.

(** A submission that parses to an object is the agent's entry once the
    handler is through, accepted or not. *)
Lemma validateCurrentAgentOutput_stores_object agent rv c path props :
  tempFilePaths c !! agent = Some path ->
  document rv = inr (Parses (JObj props)) ->
  fields (validateCurrentAgentOutput agent rv c) = set_agentOutputs <[agent := JObj props]> c.
Proof.
  intros Hp Hd. unfold validateCurrentAgentOutput, try_catch.
  unfold bind at 1, get at 1. rewrite Hp.
  unfold bind at 1 2, emit at 1. rewrite Hd. cbn [lift ret].
  unfold bind at 1, JSON_parse, ret at 1. unfold bind at 1, modify at 1.
  unfold bind at 1. cbn [Object_keys lift ret]. unfold bind at 1.
  pose proof (validateEach_keeps_object agent props (validation rv) (map fst props)
                (fun t H => H) 0%nat (set_agentOutputs <[agent := JObj props]> c)
                (stored_insert c agent (JObj props))) as Hkeep.
  destruct (validateEach agent (map fst props) 0 (validation rv)
              (set_agentOutputs <[agent := JObj props]> c)) as [[[[] | e] c'] es];
    unfold fields in Hkeep; cbn [fst snd] in Hkeep; subst c'.
  - reflexivity.
  - destruct e; reflexivity.
Qed.

(** C1, as the code has it. Along every run the store holds an entry
    only for an agent whose dispatch has been announced ([agentStarted]
    posted); as soon as the invocation of a known agent returns, its
    reply is the agent's entry in the store, before any review and
    whatever the editor does; and a submission that parses to an object
    replaces the entry by the submitted object, whatever the backend
    then makes of its tasks. *)
Theorem store_entries_follow_dispatch :
  (forall ss name,
     is_Some (agentOutputs (ctrl (run boot ss)) !! name) ->
     In (PostMessage (agentStarted name)) (log (run boot ss))) /\
  (forall c env inputs agent raw,
     initialInputs c = Some inputs ->
     0 <= currentAgentIndex c + 1 ->
     agentSequence c !! Z.to_nat (currentAgentIndex c + 1) = Some agent ->
     In agent known_agents ->
     api_result (reply env) = inr raw ->
     agentOutputs (fields (processNextAgent env c)) !! agent = Some raw) /\
  (forall agent c rv path props,
     tempFilePaths c !! agent = Some path ->
     document rv = inr (Parses (JObj props)) ->
     agentOutputs (fields (validateCurrentAgentOutput agent rv c))
       = <[agent := JObj props]> (agentOutputs c)).
Proof.
  split; [| split].
  - intros ss name Hn.
    destruct (accounted_run ss boot in_order_boot accounted_boot) as [_ Hentries].
    destruct (dispatches_started name _ [] (Hentries name Hn)) as [[] | H]. exact H.
  - intros c env inputs agent raw Hin Hi Hl Hk Hok.
    rewrite (processNextAgent_stores_reply _ _ _ _ _ Hin Hi Hl Hk Hok).
    apply lookup_insert_eq.
  - intros agent c rv path props Hp Hd.
    by rewrite (validateCurrentAgentOutput_stores_object _ _ _ _ _ Hp Hd).
Qed.

Lemma store_entries_follow_dispatch_witness :
  agentOutputs (fields (processNextAgent (answers (JObj [("stories", JStr "login")]))
                          (restarted (form ["Requirements"]))))
    !! "Requirements" = Some (JObj [("stories", JStr "login")]) /\
  In (PostMessage (agentStarted "Requirements")) (log awaiting_requirements) /\
  agentOutputs (fields (validateCurrentAgentOutput "Architecture" second_rejected
                          (ctrl awaiting_architecture)))
    !! "Architecture" = Some (JObj [("design", JStr "layers"); ("risks", JStr "none")]).
Proof.
  split; [| split].
  - apply (proj1 (proj2 store_entries_follow_dispatch)
             (restarted (form ["Requirements"]))
             (answers (JObj [("stories", JStr "login")])) (form ["Requirements"])
             "Requirements" (JObj [("stories", JStr "login")])).
    + reflexivity.
    + simpl. lia.
    + reflexivity.
    + simpl. tauto.
    + reflexivity.
  - apply (proj1 store_entries_follow_dispatch
             [Receive (MsgStartAgents (form ["Requirements"]))
                (answers (JObj [("stories", JStr "login")]))]
             "Requirements").
    vm_compute. eauto.
  - rewrite (proj2 (proj2 store_entries_follow_dispatch)
               "Architecture" (ctrl awaiting_architecture) second_rejected
               "Architecture_1700000000000.json"
               [("design", JStr "layers"); ("risks", JStr "none")] eq_refl eq_refl).
    apply lookup_insert_eq.
Defined.

(** C1 fails as stated: once the invocation of Requirements has returned
    and while its [Validate] button is still unanswered, with no
    [agentValidated] posted, the store already holds the reply. *)
Lemma entry_present_while_awaiting_review :
  awaiting_review awaiting_requirements "Requirements" /\
  (forall s, ~ In (PostMessage (agentValidated "Requirements" s)) (log awaiting_requirements)) /\
  agentOutputs (ctrl awaiting_requirements) !! "Requirements"
    = Some (JObj [("stories", JStr "login")]).
Proof.
  split; [by left |]. split; [| reflexivity].
  intros s Hin. vm_compute in Hin.
  repeat (destruct Hin as [Hin | Hin]; [discriminate |]). exact Hin.
Qed.

End Store.

Section Sequence.

(** C2, as the code has it. Whatever messages arrive and buttons are
    pressed, in whatever order, the agents announced since the last
    [startAgents] are exactly the first agents of the sequence, in order,
    one per call of [processNextAgent]: an agent is dispatched only after
    every agent before it in the sequence has been dispatched in the same
    run, and nothing about the store enters this.  In a run that starts
    with [startAgents] and then receives neither [continueAgent] nor
    another [startAgents], so that it advances with the buttons only,
    every agent before the current position has had a submission accepted
    ([agentValidated] posted) and has an entry in the store. *)
Theorem dispatches_follow_sequence :
  (forall ss,
     dispatched (log (run boot ss)) =
       take (Z.to_nat (currentAgentIndex (ctrl (run boot ss)) + 1))
            (agentSequence (ctrl (run boot ss)))) /\
  (forall data env ss,
     Forall guided ss ->
     reviewed_so_far (run boot (Receive (MsgStartAgents data) env :: ss))).
Proof.
  split.
  - intros ss. apply (in_order_run ss boot in_order_boot).
  - intros data env ss Hss. cbn [run fold_left].
    apply (on_rails_run ss Hss). apply on_rails_start.
Qed.

Lemma dispatches_follow_sequence_witness :
  reviewed_so_far
    (run boot
       [Receive (MsgStartAgents (form ["Requirements"; "Architecture"]))
          (answers (JObj [("stories", JStr "login")]));
        PressValidate "Requirements" (submits (JObj [("stories", JStr "login")]));
        PressContinue (answers (JObj [("design", JStr "layers")]))]).
Proof.
  apply (proj2 dispatches_follow_sequence (form ["Requirements"; "Architecture"])
           (answers (JObj [("stories", JStr "login")]))
           [PressValidate "Requirements" (submits (JObj [("stories", JStr "login")]));
            PressContinue (answers (JObj [("design", JStr "layers")]))]).
  repeat constructor.
Defined.

(** C2 fails as stated: after the invocation of Requirements has failed
    the store is empty, and a [continueAgent] message dispatches
    Architecture all the same. *)
Lemma architecture_dispatched_after_failed_requirements :
  agentOutputs (ctrl (step boot (Receive (MsgStartAgents (form ["Requirements"; "Architecture"]))
                                   (refuses 500)))) = ∅ /\
  log (run boot [Receive (MsgStartAgents (form ["Requirements"; "Architecture"])) (refuses 500);
                 Receive MsgContinueAgent (answers (JObj [("design", JStr "layers")]))]) =
    log (step boot (Receive (MsgStartAgents (form ["Requirements"; "Architecture"]))
                      (refuses 500))) ++
    [PostMessage (agentStarted "Architecture");
     Fetch "/agent/architecture"
       (JObj [("user_requirements", JStr "a shop");
              ("project_context", JStr "web");
              ("title", JStr "Shop");
              ("requirement_output", JUndefined);
              ("knowledge_output", JUndefined)]);
     CreateDirectory;
     WriteFile "Architecture_1700000000000.json" (JObj [("design", JStr "layers")]);
     OpenTextDocument "Architecture_1700000000000.json";
     ShowTextDocument "Architecture_1700000000000.json";
     ShowInformationMessage
       "Architecture results are now open in the editor. Review and validate when ready."
       (Some ("Validate", OnValidate "Architecture"));
     PostMessage (validateAgent "Architecture" ["design"] (JObj [("design", JStr "layers")]))].
Proof. split; reflexivity. Qed.

(** The run of the sequence [KnowledgeBase, Requirements] in which every
    reply and validation succeeds: both outputs end in the store and the
    webview is told, in this order, of the sequence, then for each agent
    of its start, its review, its validated task and its validation, and
    at last of the completion. *)
Example two_agents_complete :
  let w := run boot
             [Receive (MsgStartAgents (form ["KnowledgeBase"; "Requirements"]))
                (answers (JObj [("stack", JStr "web")]));
              PressValidate "KnowledgeBase" (submits (JObj [("stack", JStr "web")]));
              PressContinue (answers (JObj [("stories", JStr "login")]));
              PressValidate "Requirements" (submits (JObj [("stories", JStr "login")]));
              PressContinue (answers JNull)] in
  currentAgentIndex (ctrl w) = 2 /\
  agentOutputs (ctrl w) !! "KnowledgeBase" = Some (JObj [("stack", JStr "web")]) /\
  agentOutputs (ctrl w) !! "Requirements" = Some (JObj [("stories", JStr "login")]) /\
  pending w = [] /\
  omap (fun e => match e with PostMessage m => Some m | _ => None end) (log w) =
    [setAgentSequence ["KnowledgeBase"; "Requirements"];
     agentStarted "KnowledgeBase";
     validateAgent "KnowledgeBase" ["stack"] (JObj [("stack", JStr "web")]);
     taskValidated "KnowledgeBase" "stack" true;
     agentValidated "KnowledgeBase" true;
     agentStarted "Requirements";
     validateAgent "Requirements" ["stories"] (JObj [("stories", JStr "login")]);
     taskValidated "Requirements" "stories" true;
     agentValidated "Requirements" true;
     agentsCompleted].
Proof. repeat split. Qed.

End Sequence.

(** ** Errors and edge cases of the handlers *)

Section Edges.

(** X1.  [callApiEndpoint] sends exactly one request and leaves the
    controller's fields alone.  It returns a value exactly when the
    response has a status from 200 to 299 and a body that [res.json()]
    reads, and the value is that body; with any other status it throws
    "API call failed with status <status>", whatever the body. *)
Theorem callApiEndpoint_returns_only_2xx_body endpoint data r c :
  fields (callApiEndpoint endpoint data r c) = c /\
  emitted (callApiEndpoint endpoint data r c) = [Fetch endpoint data] /\
  (forall v,
     ended (callApiEndpoint endpoint data r c) = Returned v <->
     exists status, r = HttpResponse status (inr v) /\ (200 <= status <= 299)%nat) /\
  (forall status body,
     r = HttpResponse status body ->
     ~ (200 <= status <= 299)%nat ->
     ended (callApiEndpoint endpoint data r c)
       = Threw (JsError "Error" ("API call failed with status " +:+ decimal status))).
Proof.
  rewrite callApiEndpoint_run. unfold fields, emitted, ended. cbn [fst snd].
  split; [reflexivity |]. split; [reflexivity |]. split.
  - intros v. split.
    + destruct r as [e | status body]; cbn [api_result]; [discriminate |].
      destruct (res_ok status) eqn:Hok; [| discriminate].
      destruct body as [e | v']; [discriminate |].
      intros [= ->]. exists status. split; [reflexivity |].
      unfold res_ok in Hok. apply andb_true_iff in Hok as [H1 H2].
      apply Nat.leb_le in H1. apply Nat.leb_le in H2. lia.
    + intros (status & -> & Hlo & Hhi). cbn [api_result]. unfold res_ok.
      apply Nat.leb_le in Hlo. apply Nat.leb_le in Hhi. rewrite Hlo, Hhi. reflexivity.
  - intros status body -> Hout. cbn [api_result].
    destruct (res_ok status) eqn:Hok; [| reflexivity].
    exfalso. apply Hout. unfold res_ok in Hok. apply andb_true_iff in Hok as [H1 H2].
    apply Nat.leb_le in H1. apply Nat.leb_le in H2. lia.
Qed.

(** X2.  A [startAgents] message whose list of agents is empty completes
    at once: the sequence is announced, then the end of the process; no
    request is sent and nothing is stored. *)
Theorem empty_sequence_completes_at_once w data env :
  agents data = [] ->
  step w (Receive (MsgStartAgents data) env) =
    {| ctrl := set_currentAgentIndex Z.succ (restarted data);
       pending := pending w;
       log := log w ++ PostMessage (setAgentSequence []) :: completion_notice |}.
Proof.
  intros Hnone. cbn [step]. rewrite commit_run.
  assert (onDidReceiveMessage (MsgStartAgents data) env (ctrl w) =
            (Returned tt, set_currentAgentIndex Z.succ (restarted data),
             PostMessage (setAgentSequence []) :: completion_notice)) as Hrun.
  { assert (processNextAgent env (restarted data) =
              (Returned tt, set_currentAgentIndex Z.succ (restarted data), completion_notice))
      as Hnext.
    { unfold processNextAgent, bind, modify, get, postMessage, emit. cbn.
      rewrite Hnone. reflexivity. }
    rewrite (onDidReceiveMessage_start _ _ (ctrl w) _ _ Hnext), Hnone. reflexivity. }
  rewrite Hrun. unfold fields, emitted. cbn. rewrite app_nil_r. reflexivity.
Qed.

Lemma empty_sequence_completes_at_once_witness :
  log (step boot (Receive (MsgStartAgents (form [])) (answers JNull))) =
    [PostMessage (setAgentSequence []); PostMessage agentsCompleted;
     ShowInformationMessage "SDLC Process completed successfully" None].
Proof.
  rewrite (empty_sequence_completes_at_once boot (form []) (answers JNull) eq_refl).
  reflexivity.
Defined.

Lemma continue_before_start_run env c :
  initialInputs c = None ->
  onDidReceiveMessage MsgContinueAgent env c =
    (Returned tt, set_currentAgentIndex Z.succ c, inputs_not_set_report).
Proof.
  intros Hnone.
  unfold onDidReceiveMessage, try_catch, processNextAgent, bind, modify, get. cbn.
  rewrite Hnone. reflexivity.
Qed.

(** X3.  Before any [startAgents], every [continueAgent] message is
    answered with the error "Failed to process request: Error: Initial
    inputs not set" and nothing else: no request is sent, no button is
    offered, the store and the registered documents stay as they are.
    The index counts each of these messages all the same. *)
Theorem continue_before_start_is_reported envs : forall w,
  initialInputs (ctrl w) = None ->
  agentOutputs (ctrl (run w (map (Receive MsgContinueAgent) envs))) = agentOutputs (ctrl w) /\
  tempFilePaths (ctrl (run w (map (Receive MsgContinueAgent) envs))) = tempFilePaths (ctrl w) /\
  agentSequence (ctrl (run w (map (Receive MsgContinueAgent) envs)))
    = agentSequence (ctrl w) /\
  initialInputs (ctrl (run w (map (Receive MsgContinueAgent) envs))) = None /\
  currentAgentIndex (ctrl (run w (map (Receive MsgContinueAgent) envs)))
    = currentAgentIndex (ctrl w) + Z.of_nat (length envs) /\
  pending (run w (map (Receive MsgContinueAgent) envs)) = pending w /\
  log (run w (map (Receive MsgContinueAgent) envs))
    = log w ++ concat (map (fun _ => inputs_not_set_report) envs).
Proof.
  induction envs as [| env rest IH]; intros w Hnone.
  - cbn [map run fold_left concat length]. rewrite app_nil_r, Z.add_0_r.
    repeat split; try reflexivity. exact Hnone.
  - cbn [map run fold_left concat length].
    change (fold_left step (map (Receive MsgContinueAgent) rest)
              (step w (Receive MsgContinueAgent env)))
      with (run (step w (Receive MsgContinueAgent env)) (map (Receive MsgContinueAgent) rest)).
    assert (step w (Receive MsgContinueAgent env) =
              {| ctrl := set_currentAgentIndex Z.succ (ctrl w);
                 pending := pending w;
                 log := log w ++ inputs_not_set_report |}) as Hstep.
    { cbn [step]. rewrite commit_run, (continue_before_start_run env (ctrl w) Hnone).
      unfold fields, emitted. cbn. rewrite app_nil_r. reflexivity. }
    rewrite Hstep.
    destruct (IH {| ctrl := set_currentAgentIndex Z.succ (ctrl w);
                    pending := pending w;
                    log := log w ++ inputs_not_set_report |} Hnone)
      as (Ho & Ht & Hs & Hi & Hx & Hp & Hl).
    cbn [ctrl pending log] in Ho, Ht, Hs, Hx, Hp, Hl.
    split; [exact Ho |]. split; [exact Ht |]. split; [exact Hs |]. split; [exact Hi |].
    split; [rewrite Hx; cbn [set_currentAgentIndex currentAgentIndex]; lia |].
    split; [exact Hp |]. rewrite Hl, <- app_assoc. reflexivity.
Qed.

Lemma continue_before_start_is_reported_witness :
  log (run boot [Receive MsgContinueAgent (answers JNull);
                 Receive MsgContinueAgent (answers JNull)])
    = inputs_not_set_report ++ inputs_not_set_report.
Proof.
  destruct (continue_before_start_is_reported [answers JNull; answers JNull] boot eq_refl)
    as (_ & _ & _ & _ & _ & _ & Hlog).
  exact Hlog.
Defined.

End Edges.

(** ** When the workbench or the store is not ready *)

Section Failures.

Lemma first_failure_cases b :
  first_failure b <> None ->
  exists e, first_failure b = Some e.
Proof. destruct (first_failure b) as [e |]; [eauto | congruence]. Qed.

(** X4.  When the agent has replied but a workbench call of
    [openOutputInEditor] fails, the reply stays in the store, the failure
    is posted to the webview as "Agent <agent> failed: <error>", and
    neither the [Validate] button nor the [validateAgent] message follows.
    The review document is registered only if the directory and the file
    were written. *)
Theorem editor_failure_offers_no_button c env inputs agent raw :
  initialInputs c = Some inputs ->
  0 <= currentAgentIndex c + 1 ->
  agentSequence c !! Z.to_nat (currentAgentIndex c + 1) = Some agent ->
  In agent known_agents ->
  api_result (reply env) = inr raw ->
  first_failure (bench env) <> None ->
  exists e,
    first_failure (bench env) = Some e /\
    ended (processNextAgent env c) = Returned tt /\
    agentOutputs (fields (processNextAgent env c)) = <[agent := raw]> (agentOutputs c) /\
    tempFilePaths (fields (processNextAgent env c)) =
      match createDirectory (bench env), writeFile (bench env) with
      | None, None =>
          <[agent := agent +:+ "_" +:+ decimalN (Date_now (bench env)) +:+ ".json"]>
            (tempFilePaths c)
      | _, _ => tempFilePaths c
      end /\
    offered (emitted (processNextAgent env c)) = [] /\
    In (PostMessage (error ("Agent " +:+ agent +:+ " failed: " +:+ String_of e)))
       (emitted (processNextAgent env c)) /\
    forall tasks outputs,
      ~ In (PostMessage (validateAgent agent tasks outputs))
           (emitted (processNextAgent env c)).
Proof.
  intros Hin Hge Hl Hknown Hraw Hfail.
  destruct (first_failure_cases _ Hfail) as [e He]. exists e.
  split; [exact He |].
  rewrite (processNextAgent_in_range c env inputs agent Hin Hge Hl).
  rewrite (invoke_known agent inputs _ (reply env) Hknown).
  unfold openOutputInEditor, first_failure in *.
  unfold bind, try_catch, postMessage, emit. cbn beta iota zeta.
  rewrite callApiEndpoint_run, Hraw.
  destruct (bench env) as [clock [e1 |] [e2 |] [e3 |] [e4 |]]; cbn in He;
    try discriminate; injection He as <-;
    cbn -[String.append String_of decimalN];
    (split; [reflexivity |]); (split; [reflexivity |]); (split; [reflexivity |]);
    (split; [reflexivity |]); (split; [auto 12 |]);
    intros tasks outputs Hmem; cbn in Hmem; intuition discriminate.
Qed.

Lemma editor_failure_offers_no_button_witness :
  exists e,
    first_failure
      {| Date_now := 7; createDirectory := None; writeFile := Some (JsThrown "disk full");
         openTextDocument := None; showTextDocument := None |} = Some e /\
    offered
      (emitted
         (processNextAgent
            {| reply := HttpResponse 200 (inr (JObj [("stories", JStr "login")]));
               bench := {| Date_now := 7; createDirectory := None;
                           writeFile := Some (JsThrown "disk full");
                           openTextDocument := None; showTextDocument := None |} |}
            (restarted (form ["Requirements"])))) = [].
Proof.
  destruct (editor_failure_offers_no_button
              (restarted (form ["Requirements"]))
              {| reply := HttpResponse 200 (inr (JObj [("stories", JStr "login")]));
                 bench := {| Date_now := 7; createDirectory := None;
                             writeFile := Some (JsThrown "disk full");
                             openTextDocument := None; showTextDocument := None |} |}
              (form ["Requirements"]) "Requirements" (JObj [("stories", JStr "login")]))
    as (e & He & _ & _ & _ & Hoff & _).
  - reflexivity.
  - simpl. lia.
  - reflexivity.
  - simpl. auto.
  - reflexivity.
  - simpl. discriminate.
  - exists e. split; [exact He | exact Hoff].
Defined.

(** X5.  Pressing [Validate] for an agent that has no registered review
    document, or whose document cannot be opened, changes nothing in the
    controller and sends no request: the error is logged and shown as
    "Error validating output: <message>". *)
Theorem validation_without_document_changes_nothing agent rv c :
  (tempFilePaths c !! agent = None ->
   validateCurrentAgentOutput agent rv c =
     (Returned tt, c,
      [ConsoleError "Error validating agent output:"
         (JsError "Error" ("No file found for agent " +:+ agent));
       ShowErrorMessage ("Error validating output: No file found for agent " +:+ agent)])) /\
  (forall path e,
     tempFilePaths c !! agent = Some path ->
     document rv = inl e ->
     validateCurrentAgentOutput agent rv c =
       (Returned tt, c,
        [OpenTextDocument path;
         ConsoleError "Error validating agent output:" e;
         ShowErrorMessage (validatingErrorMessage e)])).
Proof.
  split.
  - intros Hnone. unfold validateCurrentAgentOutput, try_catch, bind, get. cbn.
    rewrite Hnone. reflexivity.
  - intros path e Hpath Hdoc. unfold validateCurrentAgentOutput, try_catch, bind, get. cbn.
    rewrite Hpath, Hdoc. cbn. destruct e; reflexivity.
Qed.

(** X6.  A [validateTask] message for an agent that has no entry in the
    store, under a name that is no member of [Object.prototype] (so that
    the lookup gives [undefined]): the validation request is sent and
    acknowledged, then writing the task throws a [TypeError], which is
    posted to the webview as "Failed to process request: TypeError: ...";
    the store is unchanged and no [taskValidated] is posted. *)
Theorem validateTask_without_entry_is_reported agentName taskName output env c ack :
  inherited agentName = false ->
  agentOutputs c !! agentName = None ->
  api_result (reply env) = inr ack ->
  exists message,
    onDidReceiveMessage (MsgValidateTask agentName taskName output) env c =
      (Returned tt, c,
       [Fetch "/agent/validate"
          (JObj [("task_name", JStr taskName); ("modified_output", output)]);
        ConsoleError "Error handling message:" (JsError "TypeError" message);
        PostMessage (error ("Failed to process request: TypeError: " +:+ message))]).
Proof.
  intros _ Hnone Hack.
  exists ("Cannot set properties of undefined (setting '" +:+ taskName +:+ "')").
  unfold onDidReceiveMessage, try_catch. rewrite validateTask_run, Hack.
  unfold stored. rewrite Hnone. reflexivity.
Qed.

Lemma validateTask_without_entry_is_reported_witness :
  exists message,
    onDidReceiveMessage (MsgValidateTask "Requirements" "stories" (JStr "login"))
      (answers (JObj [])) initial =
      (Returned tt, initial,
       [Fetch "/agent/validate"
          (JObj [("task_name", JStr "stories"); ("modified_output", JStr "login")]);
        ConsoleError "Error handling message:" (JsError "TypeError" message);
        PostMessage (error ("Failed to process request: TypeError: " +:+ message))]).
Proof.
  apply (validateTask_without_entry_is_reported "Requirements" "stories" (JStr "login")
           (answers (JObj [])) initial (JObj [])); reflexivity.
Defined.

End Failures.

(** ** A reply that is no object *)

Section NullReply.

(** X7.  When the backend answers a known agent with the JSON value
    [null], the value is stored and opened for review and the [Validate]
    button is offered, and then listing its tasks fails: instead of
    [validateAgent] the webview is told "Agent <agent> failed: TypeError:
    Cannot convert undefined or null to object". *)
Theorem null_reply_is_opened_and_reported c env inputs agent :
  initialInputs c = Some inputs ->
  0 <= currentAgentIndex c + 1 ->
  agentSequence c !! Z.to_nat (currentAgentIndex c + 1) = Some agent ->
  In agent known_agents ->
  api_result (reply env) = inr JNull ->
  undisturbed (bench env) ->
  processNextAgent env c =
    (Returned tt,
     set_tempFilePaths
       <[agent := agent +:+ "_" +:+ decimalN (Date_now (bench env)) +:+ ".json"]>
       (set_agentOutputs <[agent := JNull]> (set_currentAgentIndex Z.succ c)),
     [PostMessage (agentStarted agent);
      Fetch (endpoint_of agent) (payload_of agent inputs (set_currentAgentIndex Z.succ c));
      CreateDirectory;
      WriteFile (agent +:+ "_" +:+ decimalN (Date_now (bench env)) +:+ ".json") JNull;
      OpenTextDocument (agent +:+ "_" +:+ decimalN (Date_now (bench env)) +:+ ".json");
      ShowTextDocument (agent +:+ "_" +:+ decimalN (Date_now (bench env)) +:+ ".json");
      ShowInformationMessage
        (agent +:+ " results are now open in the editor. Review and validate when ready.")
        (Some ("Validate", OnValidate agent));
      ConsoleError ("Error in agent " +:+ agent +:+ ":")
        (JsError "TypeError" "Cannot convert undefined or null to object");
      PostMessage
        (error ("Agent " +:+ agent
                +:+ " failed: TypeError: Cannot convert undefined or null to object"))]).
Proof.
  intros Hin Hge Hl Hknown Hraw (Hdir & Hwrite & Hopen & Hshow).
  rewrite (processNextAgent_in_range c env inputs agent Hin Hge Hl).
  rewrite (invoke_known agent inputs _ (reply env) Hknown).
  unfold bind, try_catch, postMessage, emit. cbn beta iota zeta.
  rewrite callApiEndpoint_run, Hraw. cbn beta iota zeta. unfold modify at 1.
  cbn beta iota zeta.
  rewrite (openOutputInEditor_calm agent JNull (bench env) _ Hdir Hwrite Hopen Hshow).
  reflexivity.
Qed.

Lemma null_reply_is_opened_and_reported_witness :
  pending (step boot (Receive (MsgStartAgents (form ["Requirements"])) (answers JNull)))
    = [OnValidate "Requirements"] /\
  agentOutputs (ctrl (step boot (Receive (MsgStartAgents (form ["Requirements"]))
                                   (answers JNull)))) !! "Requirements" = Some JNull.
Proof.
  assert (undisturbed (bench (answers JNull))) as Hcalm by (repeat split).
  assert (In "Requirements" known_agents) as Hknown by (simpl; auto).
  assert (agentSequence (restarted (form ["Requirements"]))
            !! Z.to_nat (currentAgentIndex (restarted (form ["Requirements"])) + 1)
          = Some "Requirements") as Hl by reflexivity.
  assert (0 <= currentAgentIndex (restarted (form ["Requirements"])) + 1) as Hge
    by (simpl; lia).
  pose proof (null_reply_is_opened_and_reported (restarted (form ["Requirements"]))
                (answers JNull) (form ["Requirements"]) "Requirements"
                eq_refl Hge Hl Hknown eq_refl Hcalm) as Hrun.
  cbn [step]. rewrite commit_run.
  rewrite (onDidReceiveMessage_start _ _ (ctrl boot) _ _ Hrun).
  split; reflexivity.
Defined.

End NullReply.

(** ** Writing tasks into the store *)

Section Tasks.

Lemma obj_get_set_eq k v props : obj_get k (obj_set k v props) = Some v.
Proof.
  induction props as [| [k' v'] rest IH]; cbn.
  - rewrite String.eqb_refl. reflexivity.
  - destruct (String.eqb k' k) eqn:Hk; cbn; rewrite Hk; [reflexivity | exact IH].
Qed.

Lemma obj_get_set_ne k k' v props :
  k' <> k -> obj_get k' (obj_set k v props) = obj_get k' props.
Proof.
  intros Hne. induction props as [| [k0 v0] rest IH]; cbn.
  - destruct (String.eqb k k') eqn:Hk; [| reflexivity].
    apply String.eqb_eq in Hk. congruence.
  - destruct (String.eqb k0 k) eqn:Hk; cbn.
    + apply String.eqb_eq in Hk. subst k0.
      destruct (String.eqb k k') eqn:Hk'; [| reflexivity].
      apply String.eqb_eq in Hk'. congruence.
    + rewrite IH. reflexivity.
Qed.

Lemma keys_obj_set k v props :
  map fst (obj_set k v props) =
    match obj_get k props with
    | Some _ => map fst props
    | None => map fst props ++ [k]
    end.
Proof.
  induction props as [| [k' v'] rest IH]; cbn; [reflexivity |].
  destruct (String.eqb k' k) eqn:Hk; cbn; [reflexivity |].
  rewrite IH. destruct (obj_get k rest); reflexivity.
Qed.

Lemma nth_error_list_set i v items : nth_error (list_set i v items) i = Some v.
Proof.
  revert i. induction items as [| x rest IH]; intros i.
  - assert (list_set i v [] = repeat JUndefined i ++ [v]) as -> by (destruct i; reflexivity).
    induction i as [| i IHi]; [reflexivity | exact IHi].
  - destruct i as [| i]; cbn; [reflexivity | apply IH].
Qed.

Lemma set_property_again target k v updated :
  set_property target k v = inr updated -> set_property updated k v = inr updated.
Proof.
  destruct target as [| | b | n | s | items | props];
    cbn -[is_character]; try discriminate.
  all: try (match goal with
            | |- context [is_character ?t ?name] => destruct (is_character t name)
            end; discriminate).
  - destruct (array_index k) as [i |] eqn:Hi; intros [= <-]; cbn; rewrite Hi.
    + rewrite (list_set_same i v (list_set i v items)); [reflexivity |].
      apply nth_error_list_set.
    + reflexivity.
  - intros [= <-]. cbn.
    rewrite (obj_set_same k v (obj_set k v props)); [reflexivity |].
    apply obj_get_set_eq.
Qed.

(** X8.  A task validated for an agent whose entry is an object is
    written into that entry and nowhere else: the task (any name but
    [__proto__], whose assignment is no property write) then reads as the
    validated value, every other task of the entry reads as before, and
    the rest of the controller is untouched.  The keys of a task that was
    there keep their order; a new task whose name is no array index comes
    last. *)
Theorem validateTask_writes_one_task agentName taskName output r c props ack :
  agentOutputs c !! agentName = Some (JObj props) ->
  api_result r = inr ack ->
  String.eqb taskName "__proto__" = false ->
  exists props',
    fields (validateTask agentName taskName output r c)
      = set_agentOutputs <[agentName := JObj props']> c /\
    obj_get taskName props' = Some output /\
    (forall t, t <> taskName -> obj_get t props' = obj_get t props) /\
    match obj_get taskName props with
    | Some _ => map fst props' = map fst props
    | None => array_index taskName = None -> map fst props' = map fst props ++ [taskName]
    end.
Proof.
  intros Hentry Hack _. exists (obj_set taskName output props).
  rewrite validateTask_run, Hack. unfold stored. rewrite Hentry. cbn.
  split; [reflexivity |]. split; [apply obj_get_set_eq |].
  split; [intros t Hne; apply obj_get_set_ne; exact Hne |].
  pose proof (keys_obj_set taskName output props) as Hkeys.
  destruct (obj_get taskName props); [exact Hkeys | intros _; exact Hkeys].
Qed.

Lemma validateTask_writes_one_task_witness :
  exists props',
    fields (validateTask "Requirements" "risks" (JStr "none") acknowledged
              (ctrl awaiting_requirements))
      = set_agentOutputs <["Requirements" := JObj props']> (ctrl awaiting_requirements) /\
    obj_get "risks" props' = Some (JStr "none") /\
    (forall t, t <> "risks" -> obj_get t props' = obj_get t [("stories", JStr "login")]) /\
    map fst props' = ["stories"; "risks"].
Proof.
  assert (agentOutputs (ctrl awaiting_requirements) !! "Requirements"
            = Some (JObj [("stories", JStr "login")])) as Hentry by reflexivity.
  destruct (validateTask_writes_one_task "Requirements" "risks" (JStr "none") acknowledged
              (ctrl awaiting_requirements) [("stories", JStr "login")] (JObj [])
              Hentry eq_refl eq_refl) as (props' & Hfields & Hget & Hothers & Hkeys).
  exists props'. split; [exact Hfields |]. split; [exact Hget |].
  split; [exact Hothers | exact (Hkeys eq_refl)].
Defined.

(** X9.  Validating the same task with the same value a second time
    leaves the controller as the first validation left it, whatever the
    entry of the agent was. *)
Theorem validateTask_twice_is_once agentName taskName output r1 r2 c ack1 ack2 :
  api_result r1 = inr ack1 ->
  api_result r2 = inr ack2 ->
  fields (validateTask agentName taskName output r2
            (fields (validateTask agentName taskName output r1 c)))
    = fields (validateTask agentName taskName output r1 c).
Proof.
  intros Hack1 Hack2. rewrite (validateTask_run agentName taskName output r1 c), Hack1.
  cbv zeta.
  destruct (set_property (stored c agentName) taskName output) as [e | updated] eqn:Hset.
  - unfold fields at 2 3. cbn [fst snd].
    rewrite validateTask_run, Hack2. cbv zeta. rewrite Hset. reflexivity.
  - unfold fields at 2 3. cbn [fst snd].
    rewrite validateTask_run, Hack2. cbv zeta.
    unfold stored at 1. rewrite stored_insert. cbn [default id].
    rewrite (set_property_again _ _ _ _ Hset). unfold fields. cbn [fst snd].
    unfold set_agentOutputs. cbn. rewrite insert_insert_eq. reflexivity.
Qed.

Lemma validateTask_twice_is_once_witness :
  fields (validateTask "Requirements" "stories" (JStr "edited") acknowledged
            (fields (validateTask "Requirements" "stories" (JStr "edited") acknowledged
                       (ctrl awaiting_requirements))))
    = fields (validateTask "Requirements" "stories" (JStr "edited") acknowledged
                (ctrl awaiting_requirements)).
Proof.
  exact (validateTask_twice_is_once "Requirements" "stories" (JStr "edited")
           acknowledged acknowledged (ctrl awaiting_requirements) (JObj []) (JObj [])
           eq_refl eq_refl).
Defined.

End Tasks.

(** ** Submissions and their requests *)

Section Submissions.

Lemma requests_app es1 es2 : requests (es1 ++ es2) = requests es1 ++ requests es2.
Proof.
  induction es1 as [| e rest IH]; [reflexivity |].
  destruct e; cbn; rewrite IH; reflexivity.
Qed.

Lemma acknowledged_tasks_app es1 es2 :
  acknowledged_tasks (es1 ++ es2) = acknowledged_tasks es1 ++ acknowledged_tasks es2.
Proof.
  induction es1 as [| e rest IH]; [reflexivity |].
  destruct e as [m | | | | | | | | |]; cbn; try exact IH.
  destruct m; cbn; rewrite IH; reflexivity.
Qed.

Lemma requests_acknowledgements agent value tasks :
  requests (acknowledgements agent value tasks)
    = map (fun t => validation_request (t, get_property value t)) tasks.
Proof.
  induction tasks as [| t rest IH]; [reflexivity |].
  cbn. unfold acknowledgements in IH. rewrite IH. reflexivity.
Qed.

Lemma acknowledged_tasks_acknowledgements agent value tasks :
  acknowledged_tasks (acknowledgements agent value tasks) = map (fun t => (agent, t)) tasks.
Proof.
  induction tasks as [| t rest IH]; [reflexivity |].
  cbn. unfold acknowledgements in IH. rewrite IH. reflexivity.
Qed.

(** With distinct keys, each key reads as the value listed with it. *)
Lemma obj_get_listed props :
  List.NoDup (map fst props) ->
  forall k v, In (k, v) props -> obj_get k props = Some v.
Proof.
  induction props as [| [k0 v0] rest IH]; intros Hnd k v Hmem; [destruct Hmem |].
  cbn in Hnd. inversion Hnd as [| ? ? Hfresh Hrest]; subst.
  destruct Hmem as [[= -> ->] | Hmem]; cbn.
  - rewrite String.eqb_refl. reflexivity.
  - destruct (String.eqb k0 k) eqn:Hk; [| apply IH; assumption].
    apply String.eqb_eq in Hk. subst k0. exfalso. apply Hfresh.
    apply (in_map fst) in Hmem. exact Hmem.
Qed.

Lemma requests_of_tasks props :
  List.NoDup (map fst props) ->
  map (fun t => validation_request (t, get_property (JObj props) t)) (map fst props)
    = map validation_request props.
Proof.
  intros Hnd. rewrite map_map. apply map_ext_in. intros [k v] Hmem.
  cbn. rewrite (obj_get_listed props Hnd k v Hmem). reflexivity.
Qed.

(** X10.  A submission that parses to a value without keys (an empty
    object or array, a number, a boolean, an empty string) is accepted
    without a single request to the backend: the value replaces the
    agent's entry and the [Continue] button is offered. *)
Theorem taskless_submission_needs_no_backend agent rv c path value :
  tempFilePaths c !! agent = Some path ->
  document rv = inr (Parses value) ->
  Object_keys value = inr [] ->
  validateCurrentAgentOutput agent rv c =
    (Returned tt, set_agentOutputs <[agent := value]> c,
     [OpenTextDocument path;
      PostMessage (agentValidated agent true);
      ShowInformationMessage (agent +:+ " output validated successfully.")
        (Some ("Continue", OnContinue))]).
Proof.
  intros Hpath Hdoc Hkeys.
  unfold validateCurrentAgentOutput, try_catch, bind, get. cbn.
  rewrite Hpath, Hdoc. cbn. rewrite Hkeys. reflexivity.
Qed.

Lemma taskless_submission_needs_no_backend_witness :
  validateCurrentAgentOutput "Requirements"
    {| document := inr (Parses (JObj [])); validation := fun _ => NetworkFailure (JsThrown "down") |}
    (ctrl awaiting_requirements) =
    (Returned tt, set_agentOutputs <["Requirements" := JObj []]> (ctrl awaiting_requirements),
     [OpenTextDocument "Requirements_1700000000000.json";
      PostMessage (agentValidated "Requirements" true);
      ShowInformationMessage "Requirements output validated successfully."
        (Some ("Continue", OnContinue))]).
Proof.
  assert (tempFilePaths (ctrl awaiting_requirements) !! "Requirements"
            = Some "Requirements_1700000000000.json") as Hpath by reflexivity.
  exact (taskless_submission_needs_no_backend "Requirements"
           {| document := inr (Parses (JObj []));
              validation := fun _ => NetworkFailure (JsThrown "down") |}
           (ctrl awaiting_requirements) "Requirements_1700000000000.json" (JObj [])
           Hpath eq_refl eq_refl).
Defined.

(** X11.  An accepted submission of an object with distinct keys sends
    one validation request per task, in the order of the keys, each with
    the value submitted for that task, and acknowledges the tasks to the
    webview in the same order; the object becomes the agent's entry and
    the [Continue] button is offered. *)
Theorem accepted_submission_validates_each_task_once agent rv c path props :
  tempFilePaths c !! agent = Some path ->
  document rv = inr (Parses (JObj props)) ->
  List.NoDup (map fst props) ->
  (forall k, exists ack, api_result (validation rv k) = inr ack) ->
  requests (emitted (validateCurrentAgentOutput agent rv c)) = map validation_request props /\
  acknowledged_tasks (emitted (validateCurrentAgentOutput agent rv c))
    = map (fun task => (agent, fst task)) props /\
  offered (emitted (validateCurrentAgentOutput agent rv c)) = [OnContinue] /\
  agentOutputs (fields (validateCurrentAgentOutput agent rv c))
    = <[agent := JObj props]> (agentOutputs c).
Proof.
  intros Hpath Hdoc Hnd Hack.
  rewrite (validateCurrentAgentOutput_accepted agent rv c path props Hpath Hdoc Hack).
  unfold emitted, fields. cbn [fst snd].
  split; [| split; [| split]].
  - cbn [requests]. rewrite requests_app, requests_acknowledgements. cbn [requests].
    rewrite app_nil_r. apply requests_of_tasks. exact Hnd.
  - cbn [acknowledged_tasks].
    rewrite acknowledged_tasks_app, acknowledged_tasks_acknowledgements.
    cbn [acknowledged_tasks]. rewrite app_nil_r, map_map. reflexivity.
  - cbn [offered]. rewrite offered_app, offered_acknowledgements. reflexivity.
  - reflexivity.
Qed.

Lemma accepted_submission_validates_each_task_once_witness :
  requests
    (emitted
       (validateCurrentAgentOutput "Architecture"
          (submits (JObj [("design", JStr "tiers"); ("risks", JStr "few")]))
          (ctrl awaiting_architecture)))
    = [("/agent/validate",
        JObj [("task_name", JStr "design"); ("modified_output", JStr "tiers")]);
       ("/agent/validate",
        JObj [("task_name", JStr "risks"); ("modified_output", JStr "few")])].
Proof.
  assert (tempFilePaths (ctrl awaiting_architecture) !! "Architecture"
            = Some "Architecture_1700000000000.json") as Hpath by reflexivity.
  assert (List.NoDup ["design"; "risks"]) as Hnd.
  { constructor; [simpl; intuition discriminate |].
    constructor; [simpl; intuition | constructor]. }
  exact (proj1 (accepted_submission_validates_each_task_once "Architecture"
                  (submits (JObj [("design", JStr "tiers"); ("risks", JStr "few")]))
                  (ctrl awaiting_architecture) "Architecture_1700000000000.json"
                  [("design", JStr "tiers"); ("risks", JStr "few")]
                  Hpath eq_refl Hnd
                  (fun _ => ex_intro _ (JObj []) eq_refl))).
Defined.

(** X12.  [saveData] never touches the controller, offers a button or
    calls the backend.  It makes the directory, writes the data it is
    given to [user_inputs.json] and confirms the save when both workbench
    calls succeed; when one fails, the error is posted to the webview
    instead.  A message without data writes no file: once the directory
    is made, the buffer cannot be built from [undefined], and that error
    is what is posted. *)
Theorem saveData_leaves_controller_alone data env c :
  fields (onDidReceiveMessage (MsgSaveData data) env c) = c /\
  ended (onDidReceiveMessage (MsgSaveData data) env c) = Returned tt /\
  offered (emitted (onDidReceiveMessage (MsgSaveData data) env c)) = [] /\
  requests (emitted (onDidReceiveMessage (MsgSaveData data) env c)) = [] /\
  emitted (onDidReceiveMessage (MsgSaveData data) env c) =
    match createDirectory (bench env) with
    | Some e =>
        [CreateDirectory;
         ConsoleError "Error handling message:" e;
         PostMessage (error ("Failed to process request: " +:+ String_of e))]
    | None =>
        match data with
        | JUndefined =>
            [CreateDirectory;
             ConsoleError "Error handling message:" no_text_error;
             PostMessage (error ("Failed to process request: " +:+ String_of no_text_error))]
        | _ =>
            match writeFile (bench env) with
            | Some e =>
                [CreateDirectory; WriteFile "user_inputs.json" data;
                 ConsoleError "Error handling message:" e;
                 PostMessage (error ("Failed to process request: " +:+ String_of e))]
            | None =>
                [CreateDirectory; WriteFile "user_inputs.json" data;
                 ShowInformationMessage "Input and results saved successfully" None]
            end
        end
    end.
Proof.
  unfold onDidReceiveMessage, saveData, try_catch, bind, emit, await, postMessage.
  destruct (createDirectory (bench env)) as [e1 |];
    [| destruct data; [| destruct (writeFile (bench env)) as [e2 |] ..]];
    cbn -[String.append String_of no_text_error]; repeat split; reflexivity.
Qed.

End Submissions.

(** ** How handlers end *)

Section Endings.

Lemma ended_bind {A B} (m : M A) (k : A -> M B) c :
  ended (bind m k c) =
    match ended (m c) with
    | Returned a => ended (k a (fields (m c)))
    | Threw e => Threw e
    end.
Proof.
  unfold bind, ended, fields. destruct (m c) as [[[a | e] c1] es1]; cbn; [| reflexivity].
  destruct (k a c1) as [[r c2] es2]. reflexivity.
Qed.

Lemma try_catch_returns (m : M unit) (h : thrown -> M unit) c :
  (forall e c1, ended (h e c1) = Returned tt) -> ended (try_catch m h c) = Returned tt.
Proof.
  intros Hh. unfold try_catch, ended. destruct (m c) as [[[[] | e] c1] es1]; [reflexivity |].
  specialize (Hh e c1). unfold ended in Hh. destruct (h e c1) as [[r c2] es2]. exact Hh.
Qed.

Lemma onDidReceiveMessage_returns message env c :
  ended (onDidReceiveMessage message env c) = Returned tt.
Proof. apply try_catch_returns. reflexivity. Qed.

Lemma validateCurrentAgentOutput_returns agent rv c :
  ended (validateCurrentAgentOutput agent rv c) = Returned tt.
Proof. apply try_catch_returns. intros [name message | text] c1; reflexivity. Qed.

Lemma processNextAgent_returns env c inputs :
  initialInputs c = Some inputs -> ended (processNextAgent env c) = Returned tt.
Proof.
  intros Hin. unfold processNextAgent.
  rewrite ended_bind. cbn [modify ended fields fst snd].
  rewrite ended_bind. cbn [get ended fields fst snd].
  cbn [set_currentAgentIndex initialInputs]. rewrite Hin.
  destruct (Z.of_nat _ <=? _); [reflexivity |].
  rewrite ended_bind. cbn [postMessage emit ended fields fst snd].
  apply try_catch_returns. reflexivity.
Qed.

Lemma same_plan_refl c : same_plan c c.
Proof. reflexivity. Qed.

Lemma same_plan_trans c1 c2 c3 : same_plan c1 c2 -> same_plan c2 c3 -> same_plan c1 c3.
Proof. unfold same_plan. congruence. Qed.

Lemma same_position_plan c c' : same_position c c' -> same_plan c c'.
Proof. unfold same_position, same_plan, position, plan. congruence. Qed.

Lemma respects_weaken {A} (R R' : Controller -> Controller -> Prop) (P P' : event -> Prop)
  (m : M A) :
  (forall c c', R c c' -> R' c c') -> (forall e, P e -> P' e) ->
  respects R P m -> respects R' P' m.
Proof.
  intros HR HP Hm c. destruct (Hm c) as [Hc Hes]. split; [auto |].
  eapply Forall_impl; [exact Hes | exact HP].
Qed.

Lemma neutral_plan {A} (m : M A) : neutral m -> respects same_plan any_event m.
Proof.
  apply respects_weaken; [exact same_position_plan | intros e _; exact I].
Qed.

Lemma processNextAgent_plan env : respects same_plan any_event (processNextAgent env).
Proof.
  unfold processNextAgent.
  apply respects_bind; [exact same_plan_trans | |].
  { apply respects_modify. reflexivity. }
  intros _. apply respects_bind; [exact same_plan_trans | apply respects_get, same_plan_refl |].
  intros c0. destruct (initialInputs c0) as [inputs |];
    [| apply respects_throw, same_plan_refl].
  destruct (Z.of_nat _ <=? _).
  - apply respects_bind; [exact same_plan_trans | |];
      [| intros _]; apply respects_emit; solve [exact same_plan_refl | exact I].
  - apply respects_bind; [exact same_plan_trans | |].
    + apply respects_emit; [exact same_plan_refl | exact I].
    + intros _. apply neutral_plan, dispatch_neutral.
Qed.

Lemma message_plan message env :
  (forall data, message <> MsgStartAgents data) ->
  respects same_plan any_event (onDidReceiveMessage message env).
Proof.
  intros Hkeep. destruct message as [data | | agentName taskName output | data | data].
  - destruct (Hkeep data eq_refl).
  - unfold onDidReceiveMessage.
    apply respects_try_catch; [exact same_plan_trans | apply processNextAgent_plan |].
    intros e. apply neutral_plan, neutral_failed_request.
  - apply neutral_plan, discreet_neutral, discreet_message. exact I.
  - apply neutral_plan, discreet_neutral, discreet_message. exact I.
  - apply neutral_plan, discreet_neutral, discreet_message. exact I.
Qed.

Lemma start_plan data env c :
  plan (fields (onDidReceiveMessage (MsgStartAgents data) env c)) = (agents data, Some data).
Proof.
  rewrite onDidReceiveMessage_start_run. unfold fields at 1. cbn [fst snd].
  assert (respects same_plan any_event
            (try_catch (processNextAgent env)
               (fun err =>
                  emit (ConsoleError "Error handling message:" err) ;;
                  postMessage (error ("Failed to process request: " +:+ String_of err)))))
    as Hplan.
  { apply respects_try_catch; [exact same_plan_trans | apply processNextAgent_plan |].
    intros e. apply neutral_plan, neutral_failed_request. }
  destruct (Hplan (restarted data)) as [Hsame _]. exact Hsame.
Qed.

(** A stimulus other than [startAgents] leaves the plan alone. *)
Lemma step_plan w s :
  (forall data env, s <> Receive (MsgStartAgents data) env) ->
  plan (ctrl (step w s)) = plan (ctrl w).
Proof.
  intros Hkeep. destruct s as [message env | agent rv | env | cb]; cbn [step].
  - rewrite commit_run. cbn [ctrl].
    apply (message_plan message env).
    intros data ->. exact (Hkeep data env eq_refl).
  - destruct (answer (OnValidate agent) (pending w)) as [rest |]; [| reflexivity].
    rewrite commit_run. cbn [ctrl].
    apply (neutral_plan _ (neutral_validateCurrentAgentOutput agent rv)).
  - destruct (answer OnContinue (pending w)) as [rest |]; [| reflexivity].
    rewrite commit_run. cbn [ctrl]. apply (processNextAgent_plan env).
  - destruct (answer cb (pending w)) as [rest |]; reflexivity.
Qed.

Lemma unset_before w s :
  (forall data env, s <> Receive (MsgStartAgents data) env) ->
  initialInputs (ctrl (step w s)) = None -> initialInputs (ctrl w) = None.
Proof.
  intros Hkeep Hnone. pose proof (step_plan w s Hkeep) as Hplan.
  unfold plan in Hplan. congruence.
Qed.

Lemma started_if_offered_guided w message env :
  guided (Receive message env) ->
  started_if_offered w -> started_if_offered (step w (Receive message env)).
Proof.
  intros Hguided Hw Hnone.
  assert (initialInputs (ctrl w) = None) as Hbefore.
  { apply (unset_before w (Receive message env)); [| exact Hnone].
    intros data env' [= -> _]. exact Hguided. }
  cbn [step]. rewrite commit_run. cbn [pending].
  destruct (discreet_message message env Hguided (ctrl w)) as [_ Hquiet].
  rewrite (offered_buttonless _ (quiet_buttonless _ Hquiet)), app_nil_r.
  exact (Hw Hbefore).
Qed.

Lemma started_if_offered_press w s :
  pressing s -> started_if_offered w -> started_if_offered (step w s).
Proof.
  intros Hpress Hw Hnone.
  assert (initialInputs (ctrl w) = None) as Hbefore.
  { apply (unset_before w s); [| exact Hnone].
    intros data env ->. exact Hpress. }
  destruct s as [message env | agent rv | env | cb]; [destruct Hpress | | |];
    cbn [step]; rewrite (Hw Hbefore); cbn [answer]; exact (Hw Hbefore).
Qed.

Lemma started_if_offered_step w s : started_if_offered w -> started_if_offered (step w s).
Proof.
  intros Hw.
  destruct s as [message env | agent rv | env | cb];
    [| apply started_if_offered_press; [exact I | exact Hw] ..].
  destruct message as [data | | agentName taskName output | data | data];
    [| | apply started_if_offered_guided; [exact I | exact Hw] ..].
  - intros Hnone. cbn [step] in Hnone. rewrite commit_run in Hnone. cbn [ctrl] in Hnone.
    pose proof (start_plan data env (ctrl w)) as Hplan. unfold plan in Hplan.
    congruence.
  - intros Hnone.
    assert (initialInputs (ctrl w) = None) as Hbefore.
    { apply (unset_before w (Receive MsgContinueAgent env)); [| exact Hnone].
      intros data env'. discriminate. }
    cbn [step]. rewrite commit_run. cbn [pending].
    rewrite (continue_before_start_run env (ctrl w) Hbefore).
    unfold emitted. cbn. rewrite app_nil_r. exact (Hw Hbefore).
Qed.

Lemma started_if_offered_run ss : forall w, started_if_offered w -> started_if_offered (run w ss).
Proof.
  induction ss as [| s rest IH]; intros w Hw; [exact Hw |].
  cbn. apply IH, started_if_offered_step, Hw.
Qed.

(** X13.  No handler ends in a rejection nobody handles.  The listener
    for the webview's messages and the handler behind [Validate] catch
    everything they throw; [processNextAgent] throws only while no inputs
    are set, and along every run a button is on screen only after a
    [startAgents], so the unawaited call behind [Continue] returns too. *)
Theorem handlers_never_reject :
  (forall message env c, ended (onDidReceiveMessage message env c) = Returned tt) /\
  (forall agent rv c, ended (validateCurrentAgentOutput agent rv c) = Returned tt) /\
  (forall ss env,
     pending (run boot ss) <> [] ->
     ended (processNextAgent env (ctrl (run boot ss))) = Returned tt).
Proof.
  split; [exact onDidReceiveMessage_returns |].
  split; [exact validateCurrentAgentOutput_returns |].
  intros ss env Hbutton.
  assert (started_if_offered (run boot ss)) as Hinv.
  { apply started_if_offered_run. intros _. reflexivity. }
  destruct (initialInputs (ctrl (run boot ss))) as [inputs |] eqn:Hin.
  - exact (processNextAgent_returns env _ inputs Hin).
  - destruct (Hbutton (Hinv Hin)).
Qed.

End Endings.

(** ** Requests, retries and restarts *)

Section Retries.

Lemma requests_offline es : Forall offline es -> requests es = [].
Proof.
  induction 1 as [| e rest He _ IH]; [reflexivity |].
  destruct e; cbn; solve [exact IH | destruct He].
Qed.

Lemma offline_openOutputInEditor agent output w :
  respects same_plan offline (openOutputInEditor agent output w).
Proof.
  unfold openOutputInEditor.
  apply respects_try_catch; [exact same_plan_trans | |].
  - repeat first
      [ apply respects_bind; [exact same_plan_trans | | intros _]
      | apply respects_emit; [exact same_plan_refl | exact I]
      | apply respects_await; exact same_plan_refl
      | apply respects_modify; reflexivity ].
  - intros e. apply respects_bind; [exact same_plan_trans | | intros _].
    + apply respects_emit; [exact same_plan_refl | exact I].
    + apply respects_throw. exact same_plan_refl.
Qed.

Lemma one_request endpoint data r (k : jsval -> M unit) (h : thrown -> M unit) c :
  (forall v, respects same_plan offline (k v)) ->
  (forall e, respects same_plan offline (h e)) ->
  requests (emitted (try_catch (v <- callApiEndpoint endpoint data r ;; k v) h c))
    = [(endpoint, data)].
Proof.
  intros Hk Hh. unfold try_catch, bind. rewrite callApiEndpoint_run.
  destruct (api_result r) as [e | v].
  - destruct (Hh e c) as [_ Hes]. destruct (h e c) as [[r' c2] es2].
    unfold emitted in *. cbn [snd] in *. cbn [app requests].
    rewrite (requests_offline _ Hes). reflexivity.
  - destruct (Hk v c) as [_ Hes]. destruct (k v c) as [[[[] | e] c2] es2];
      unfold emitted in Hes; cbn [snd] in Hes.
    + unfold emitted. cbn [snd app requests]. rewrite (requests_offline _ Hes). reflexivity.
    + destruct (Hh e c2) as [_ Hes']. destruct (h e c2) as [[r' c3] es3].
      unfold emitted in *. cbn [snd] in *. cbn [app requests].
      rewrite requests_app, (requests_offline _ Hes), (requests_offline _ Hes').
      reflexivity.
Qed.

(** The dispatch of a known agent sends its request and no other. *)
Lemma dispatch_requests agent inputs c env c1 :
  In agent known_agents ->
  requests
    (emitted
       (try_catch
          (output <- invoke agent inputs c (reply env) ;;
           modify (set_agentOutputs <[agent := output]>) ;;
           openOutputInEditor agent output (bench env) ;;
           tasks <- lift (Object_keys output) ;;
           postMessage (validateAgent agent tasks output))
          (fun err =>
             emit (ConsoleError ("Error in agent " +:+ agent +:+ ":") err) ;;
             postMessage (error ("Agent " +:+ agent +:+ " failed: " +:+ String_of err)))
          c1))
    = [(endpoint_of agent, payload_of agent inputs c)].
Proof.
  intros Hknown. rewrite (invoke_known agent inputs c (reply env) Hknown).
  apply one_request.
  - intros output.
    apply respects_bind; [exact same_plan_trans | apply respects_modify; reflexivity |].
    intros _. apply respects_bind;
      [exact same_plan_trans | apply offline_openOutputInEditor |].
    intros _. apply respects_bind;
      [exact same_plan_trans | apply respects_lift; exact same_plan_refl |].
    intros tasks. apply respects_emit; [exact same_plan_refl | exact I].
  - intros err. apply respects_bind; [exact same_plan_trans | | intros _];
      apply respects_emit; solve [exact same_plan_refl | exact I].
Qed.

(** X14.  One run of [processNextAgent] sends at most one request: none
    at all, or the request of the agent at the next position of the
    sequence, to that agent's endpoint and with that agent's payload.
    A failed request is never sent again. *)
Theorem dispatch_sends_at_most_one_request env c :
  requests (emitted (processNextAgent env c)) = [] \/
  exists agent inputs,
    initialInputs c = Some inputs /\
    agentSequence c !! Z.to_nat (currentAgentIndex c + 1) = Some agent /\
    In agent known_agents /\
    requests (emitted (processNextAgent env c)) =
      [(endpoint_of agent, payload_of agent inputs (set_currentAgentIndex Z.succ c))].
Proof.
  destruct (initialInputs c) as [inputs |] eqn:Hin.
  2: { left. unfold processNextAgent, bind, modify, get. cbn. rewrite Hin. reflexivity. }
  destruct (Z.of_nat (length (agentSequence c)) <=? currentAgentIndex c + 1) eqn:Hend.
  { left. unfold processNextAgent, bind, modify, get. cbn.
    rewrite Hin. unfold Z.succ. rewrite Hend. reflexivity. }
  destruct (currentAgentIndex c + 1 <? 0) eqn:Hneg.
  { left. unfold processNextAgent, bind, modify, get. cbn -[invoke openOutputInEditor].
    rewrite Hin. unfold Z.succ. rewrite Hend. unfold element. rewrite Hneg.
    cbn. reflexivity. }
  apply Z.ltb_ge in Hneg. apply Z.leb_gt in Hend.
  destruct (lookup_lt_is_Some_2 (agentSequence c) (Z.to_nat (currentAgentIndex c + 1)))
    as [agent Hl]; [lia |].
  rewrite (processNextAgent_in_range c env inputs agent Hin Hneg Hl).
  destruct (in_dec string_dec agent known_agents) as [Hknown | Hunknown].
  - right. exists agent, inputs.
    split; [reflexivity |]. split; [exact Hl |]. split; [exact Hknown |].
    pose proof (dispatch_requests agent inputs (set_currentAgentIndex Z.succ c) env
                  (set_currentAgentIndex Z.succ c) Hknown) as Hone.
    unfold bind at 1. unfold postMessage at 1. unfold emit at 1.
    destruct (try_catch _ _ _) as [[r c2] es2] in Hone |- *.
    unfold emitted in *. cbn [snd] in *. cbn [app requests]. exact Hone.
  - left. rewrite (invoke_unknown agent inputs _ (reply env) Hunknown).
    reflexivity.
Qed.

Lemma silent_press w s : pressing s -> pending w = [] -> step w s = w.
Proof.
  intros Hpress Hnone.
  destruct s as [message env | agent rv | env | cb]; [destruct Hpress | | |];
    cbn [step]; rewrite Hnone; reflexivity.
Qed.

Lemma silent_presses ss : forall w, Forall pressing ss -> pending w = [] -> run w ss = w.
Proof.
  induction ss as [| s rest IH]; intros w Hall Hnone; [reflexivity |].
  inversion Hall as [| ? ? Hs Hrest]; subst. cbn.
  rewrite (silent_press w s Hs Hnone). apply IH; assumption.
Qed.

(** X15.  The [Validate] button is spent by the press.  When the
    submitted text does not parse, the controller is as before, the
    error notification carries no button, and with no other button on
    screen no press can do anything any more: the run goes on only with a
    message of the webview. *)
Theorem rejected_submission_cannot_be_retried w agent rv path e :
  pending w = [OnValidate agent] ->
  tempFilePaths (ctrl w) !! agent = Some path ->
  document rv = inr (Unparsable e) ->
  ctrl (step w (PressValidate agent rv)) = ctrl w /\
  pending (step w (PressValidate agent rv)) = [] /\
  log (step w (PressValidate agent rv)) =
    log w ++ [OpenTextDocument path; ShowErrorMessage (invalidJsonMessage e)] /\
  forall ss,
    Forall pressing ss ->
    run (step w (PressValidate agent rv)) ss = step w (PressValidate agent rv).
Proof.
  intros Hbutton Hpath Hdoc.
  assert (step w (PressValidate agent rv) =
            {| ctrl := ctrl w; pending := [];
               log := log w ++ [OpenTextDocument path; ShowErrorMessage (invalidJsonMessage e)] |})
    as Hstep.
  { cbn [step]. rewrite Hbutton. cbn [answer].
    destruct (decide (OnValidate agent = OnValidate agent)) as [_ | Hne]; [| congruence].
    rewrite commit_run.
    rewrite (validateCurrentAgentOutput_unparsable agent rv (ctrl w) path e Hpath Hdoc).
    reflexivity. }
  rewrite Hstep. cbn [ctrl pending log].
  split; [reflexivity |]. split; [reflexivity |]. split; [reflexivity |].
  intros ss Hall. apply silent_presses; [exact Hall | reflexivity].
Qed.

Lemma rejected_submission_cannot_be_retried_witness :
  run (step awaiting_requirements
         (PressValidate "Requirements"
            {| document := inr (Unparsable (JsError "SyntaxError" "Unexpected end of JSON input"));
               validation := fun _ => acknowledged |}))
      [PressValidate "Requirements" (submits (JObj [])); PressContinue (answers JNull)]
    = step awaiting_requirements
        (PressValidate "Requirements"
           {| document := inr (Unparsable (JsError "SyntaxError" "Unexpected end of JSON input"));
              validation := fun _ => acknowledged |}).
Proof.
  assert (tempFilePaths (ctrl awaiting_requirements) !! "Requirements"
            = Some "Requirements_1700000000000.json") as Hpath by reflexivity.
  apply (rejected_submission_cannot_be_retried awaiting_requirements "Requirements"
           {| document := inr (Unparsable (JsError "SyntaxError" "Unexpected end of JSON input"));
              validation := fun _ => acknowledged |}
           "Requirements_1700000000000.json"
           (JsError "SyntaxError" "Unexpected end of JSON input")
           eq_refl Hpath eq_refl).
  repeat constructor.
Defined.

End Retries.

(** ** The end of the sequence *)

(** Handler bodies built from the monad's operations keep the plan; what
    their events satisfy is checked event by event. *)
Ltac planned :=
  repeat first
    [ assumption
    | apply respects_ret; exact same_plan_refl
    | apply respects_throw; exact same_plan_refl
    | apply respects_get; exact same_plan_refl
    | apply respects_lift; exact same_plan_refl
    | apply respects_await; exact same_plan_refl
    | apply respects_modify; reflexivity
    | apply respects_emit;
        [ exact same_plan_refl
        | first [exact I | reflexivity | split; [reflexivity | discriminate]] ]
    | apply respects_bind; [exact same_plan_trans | | intros ?]
    | apply respects_try_catch; [exact same_plan_trans | | intros ?] ].

Section Completion.

Lemma processNextAgent_end env c inputs :
  initialInputs c = Some inputs ->
  Z.of_nat (length (agentSequence c)) <= currentAgentIndex c + 1 ->
  processNextAgent env c =
    (Returned tt, set_currentAgentIndex Z.succ c, completion_notice).
Proof.
  intros Hin Hend. unfold processNextAgent, bind, modify, get. cbn.
  rewrite Hin. unfold Z.succ.
  destruct (Z.leb_spec (Z.of_nat (length (agentSequence c))) (currentAgentIndex c + 1));
    [reflexivity | lia].
Qed.

Lemma answer_incl cb l rest : answer cb l = Some rest -> incl rest l.
Proof.
  revert rest. induction l as [| cb' l IH]; intros rest; cbn; [discriminate |].
  destruct (decide (cb' = cb)) as [_ | _].
  - intros [= <-]. apply incl_tl, incl_refl.
  - destruct (answer cb l) as [rest' |]; cbn; [| discriminate].
    intros [= <-]. apply incl_cons; [left; reflexivity |].
    apply incl_tl, IH. reflexivity.
Qed.

Lemma continuing_at_the_end w s inputs :
  initialInputs (ctrl w) = Some inputs ->
  Z.of_nat (length (agentSequence (ctrl w))) <= currentAgentIndex (ctrl w) + 1 ->
  continuing s ->
  match s with
  | PressContinue _ =>
      match answer OnContinue (pending w) with
      | Some open =>
          step w s = {| ctrl := set_currentAgentIndex Z.succ (ctrl w);
                        pending := open;
                        log := log w ++ completion_notice |}
      | None => step w s = w
      end
  | _ =>
      step w s = {| ctrl := set_currentAgentIndex Z.succ (ctrl w);
                    pending := pending w;
                    log := log w ++ completion_notice |}
  end.
Proof.
  intros Hin Hend Hs.
  pose proof (processNextAgent_end) as Hrun.
  destruct s as [[data | | agentName taskName output | data | data] env | agent rv | env | cb];
    try destruct Hs.
  - cbn [step]. rewrite commit_run.
    assert (onDidReceiveMessage MsgContinueAgent env (ctrl w) =
              (Returned tt, set_currentAgentIndex Z.succ (ctrl w), completion_notice)) as ->.
    { unfold onDidReceiveMessage, try_catch. rewrite (Hrun env (ctrl w) inputs Hin Hend).
      reflexivity. }
    cbn. rewrite app_nil_r. reflexivity.
  - cbn [step]. destruct (answer OnContinue (pending w)) as [rest |] eqn:Hanswer;
      [| reflexivity].
    rewrite commit_run, (Hrun env (ctrl w) inputs Hin Hend).
    cbn. rewrite app_nil_r. reflexivity.
Qed.

(** X16.  Once the index has reached the last agent, going on, by the
    [continueAgent] message or the [Continue] button and however often,
    dispatches nothing: every [continueAgent] message and every press of
    a [Continue] button still on screen announces the end of the process
    again and makes the index count on by one, while the store, the
    registered documents, the sequence and the inputs stay as they are,
    no request is sent and no button is offered. *)
Theorem continuing_after_the_end_dispatches_nothing ss : forall w inputs,
  initialInputs (ctrl w) = Some inputs ->
  Z.of_nat (length (agentSequence (ctrl w))) <= currentAgentIndex (ctrl w) + 1 ->
  Forall continuing ss ->
  agentOutputs (ctrl (run w ss)) = agentOutputs (ctrl w) /\
  tempFilePaths (ctrl (run w ss)) = tempFilePaths (ctrl w) /\
  plan (ctrl (run w ss)) = plan (ctrl w) /\
  currentAgentIndex (ctrl (run w ss))
    = currentAgentIndex (ctrl w) + Z.of_nat (continued (pending w) ss) /\
  log (run w ss) = log w ++ concat (repeat completion_notice (continued (pending w) ss)) /\
  incl (pending (run w ss)) (pending w).
Proof.
  induction ss as [| s rest IH]; intros w inputs Hin Hend Hall.
  - cbn [run fold_left repeat concat continued].
    do 3 (split; [reflexivity |]).
    split; [cbn; lia |]. split; [rewrite app_nil_r; reflexivity | apply incl_refl].
  - inversion Hall as [| ? ? Hs Hrest]; subst. cbn [run fold_left].
    change (fold_left step rest (step w s)) with (run (step w s) rest).
    pose proof (continuing_at_the_end w s inputs Hin Hend Hs) as Hstep.
    assert (forall open,
              step w s = {| ctrl := set_currentAgentIndex Z.succ (ctrl w);
                            pending := open;
                            log := log w ++ completion_notice |} ->
              incl open (pending w) ->
              agentOutputs (ctrl (run (step w s) rest)) = agentOutputs (ctrl w) /\
              tempFilePaths (ctrl (run (step w s) rest)) = tempFilePaths (ctrl w) /\
              plan (ctrl (run (step w s) rest)) = plan (ctrl w) /\
              currentAgentIndex (ctrl (run (step w s) rest))
                = currentAgentIndex (ctrl w) + Z.of_nat (S (continued open rest)) /\
              log (run (step w s) rest)
                = log w ++ concat (repeat completion_notice (S (continued open rest))) /\
              incl (pending (run (step w s) rest)) (pending w)) as Hgo.
    { intros open Hw Hopen.
      destruct (IH (step w s) inputs) as (Ho & Ht & Hplan & Hi & Hl & Hpend);
        [rewrite Hw; exact Hin | rewrite Hw; cbn; lia | exact Hrest |].
      rewrite Hw in Ho, Ht, Hplan, Hi, Hl, Hpend. rewrite Hw.
      cbn [ctrl pending log] in Ho, Ht, Hplan, Hi, Hl, Hpend.
      split; [exact Ho |]. split; [exact Ht |]. split; [exact Hplan |].
      split; [rewrite Hi; cbn [set_currentAgentIndex currentAgentIndex]; lia |].
      split; [rewrite Hl, <- app_assoc; reflexivity |].
      intros cb Hcb. apply Hopen, Hpend, Hcb. }
    destruct s as [[data | | agentName taskName output | data | data] env | agent rv | env | cb];
      try destruct Hs.
    + cbn [continued]. apply Hgo; [exact Hstep | apply incl_refl].
    + cbn [continued].
      destruct (answer OnContinue (pending w)) as [open |] eqn:Hanswer.
      * apply Hgo; [exact Hstep | exact (answer_incl _ _ _ Hanswer)].
      * rewrite Hstep. apply (IH w inputs Hin Hend Hrest).
Qed.

Lemma continuing_after_the_end_dispatches_nothing_witness :
  log (run awaiting_requirements
         [Dismiss (OnValidate "Requirements");
          Receive MsgContinueAgent (answers JNull);
          PressContinue (answers JNull);
          Receive MsgContinueAgent (answers JNull)])
    = log (run awaiting_requirements [Dismiss (OnValidate "Requirements")])
      ++ completion_notice ++ completion_notice.
Proof.
  destruct (continuing_after_the_end_dispatches_nothing
              [Receive MsgContinueAgent (answers JNull);
               PressContinue (answers JNull);
               Receive MsgContinueAgent (answers JNull)]
              (run awaiting_requirements [Dismiss (OnValidate "Requirements")])
              (form ["Requirements"]))
    as (_ & _ & _ & _ & Hlog & _).
  - reflexivity.
  - simpl. lia.
  - repeat constructor.
  - exact Hlog.
Defined.




End Completion.

(** ** When the end of the process is announced *)

Section Announcement.

Lemma unfinished_callApiEndpoint endpoint data r :
  respects same_plan unfinished (callApiEndpoint endpoint data r).
Proof.
  unfold callApiEndpoint. destruct r as [e | status body]; [| destruct (res_ok status)];
    planned.
Qed.

Lemma unfinished_invoke agent inputs c r : respects same_plan unfinished (invoke agent inputs c r).
Proof.
  unfold invoke.
  repeat match goal with
         | |- context [String.eqb ?a ?b] => destruct (String.eqb a b)
         end; first [apply unfinished_callApiEndpoint | planned].
Qed.

Lemma unfinished_openOutputInEditor agent output w :
  respects same_plan unfinished (openOutputInEditor agent output w).
Proof. unfold openOutputInEditor. planned. Qed.

Lemma unfinished_validateTask agentName taskName output r :
  respects same_plan unfinished (validateTask agentName taskName output r).
Proof.
  unfold validateTask.
  apply respects_bind; [exact same_plan_trans | apply unfinished_callApiEndpoint |].
  intros _. planned.
Qed.

Lemma unfinished_validateEach agent answers tasks :
  forall k, respects same_plan unfinished (validateEach agent tasks k answers).
Proof.
  induction tasks as [| t rest IH]; intros k; cbn [validateEach]; [planned |].
  apply respects_bind; [exact same_plan_trans | planned |].
  intros c0. apply respects_bind; [exact same_plan_trans | apply unfinished_validateTask |].
  intros _. apply IH.
Qed.

Lemma unfinished_validateCurrentAgentOutput agent rv :
  respects same_plan unfinished (validateCurrentAgentOutput agent rv).
Proof.
  unfold validateCurrentAgentOutput.
  apply respects_try_catch; [exact same_plan_trans | | intros [name message | text]; planned].
  apply respects_bind; [exact same_plan_trans | planned |].
  intros c0. destruct (tempFilePaths c0 !! agent) as [path |]; [| planned].
  apply respects_bind; [exact same_plan_trans | planned |].
  intros _. apply respects_bind; [exact same_plan_trans | planned |].
  intros content.
  apply respects_try_catch;
    [exact same_plan_trans | | intros [name message | text]; planned].
  apply respects_bind;
    [exact same_plan_trans | destruct content; cbn [JSON_parse]; planned |].
  intros value. apply respects_bind; [exact same_plan_trans | planned |].
  intros _. apply respects_bind; [exact same_plan_trans | planned |].
  intros tasks. apply respects_bind;
    [exact same_plan_trans | apply unfinished_validateEach |].
  intros _. planned.
Qed.

Lemma unfinished_message message env :
  guided (Receive message env) ->
  respects same_plan unfinished (onDidReceiveMessage message env).
Proof.
  intros Hguided. unfold onDidReceiveMessage.
  apply respects_try_catch; [exact same_plan_trans | | intros e; planned].
  destruct message as [data | | agentName taskName output | data | data];
    try destruct Hguided.
  - apply unfinished_validateTask.
  - unfold saveData. planned.
  - planned.
Qed.

Lemma unfinished_dispatch agent inputs c env :
  respects same_plan unfinished
    (try_catch
       (output <- invoke agent inputs c (reply env) ;;
        modify (set_agentOutputs <[agent := output]>) ;;
        openOutputInEditor agent output (bench env) ;;
        tasks <- lift (Object_keys output) ;;
        postMessage (validateAgent agent tasks output))
       (fun err =>
          emit (ConsoleError ("Error in agent " +:+ agent +:+ ":") err) ;;
          postMessage (error ("Agent " +:+ agent +:+ " failed: " +:+ String_of err)))).
Proof.
  apply respects_try_catch; [exact same_plan_trans | | intros e; planned].
  apply respects_bind; [exact same_plan_trans | apply unfinished_invoke |].
  intros output. apply respects_bind; [exact same_plan_trans | planned |].
  intros _. apply respects_bind;
    [exact same_plan_trans | apply unfinished_openOutputInEditor |].
  intros _. planned.
Qed.

Lemma unfinished_absent es :
  Forall unfinished es -> ~ In (PostMessage agentsCompleted) es.
Proof.
  intros Hall Hmem. rewrite List.Forall_forall in Hall.
  exact (Hall _ Hmem).
Qed.

Lemma announced_only_at_the_end env c :
  In (PostMessage agentsCompleted) (emitted (processNextAgent env c)) ->
  Z.of_nat (length (agentSequence c)) <= currentAgentIndex c + 1.
Proof.
  unfold processNextAgent, bind at 1 2, modify, get. cbn [fst snd].
  cbn [set_currentAgentIndex initialInputs agentSequence currentAgentIndex].
  destruct (initialInputs c) as [inputs |]; [| intros []].
  unfold Z.succ.
  destruct (Z.leb_spec (Z.of_nat (length (agentSequence c))) (currentAgentIndex c + 1))
    as [Hend | Hin]; [intros _; exact Hend |].
  unfold bind at 1. unfold postMessage at 1. unfold emit at 1.
  match goal with
  | |- context [try_catch ?body ?handler ?c1] =>
      assert (Forall unfinished (emitted (try_catch body handler c1))) as Hes
        by exact (proj2 (unfinished_dispatch
                           (element (agentSequence c) (currentAgentIndex c + 1))
                           inputs c1 env c1));
      revert Hes; destruct (try_catch body handler c1) as [[r c2] es2]
  end.
  unfold emitted. cbn [snd app].
  intros Hes [Hhead | Htail]; [discriminate | destruct (unfinished_absent _ Hes Htail)].
Qed.

Lemma announced_same {A} (w : World) (open : list callback) (m : M A) :
  respects same_plan unfinished m ->
  currentAgentIndex (fields (m (ctrl w))) = currentAgentIndex (ctrl w) ->
  announced_at_the_end w -> announced_at_the_end (commit w open m).
Proof.
  intros Hm Hindex Hw. rewrite commit_run. unfold announced_at_the_end. cbn [ctrl log].
  destruct (Hm (ctrl w)) as [Hplan Hes]. unfold same_plan, plan in Hplan.
  injection Hplan as Hseq _. rewrite Hseq, Hindex.
  intros Hmem. apply in_app_or in Hmem as [Hold | Hnew]; [exact (Hw Hold) |].
  destruct (unfinished_absent _ Hes Hnew).
Qed.

Lemma announced_step w s :
  guided s -> in_order w -> announced_at_the_end w -> announced_at_the_end (step w s).
Proof.
  intros Hguided Horder Hw.
  destruct s as [message env | agent rv | env | cb]; cbn [step].
  - apply announced_same; [apply unfinished_message, Hguided | | exact Hw].
    destruct (discreet_message message env Hguided (ctrl w)) as [[Hpos _] _].
    unfold position in Hpos. congruence.
  - destruct (answer (OnValidate agent) (pending w)) as [rest |]; [| exact Hw].
    apply announced_same; [apply unfinished_validateCurrentAgentOutput | | exact Hw].
    destruct (neutral_validateCurrentAgentOutput agent rv (ctrl w)) as [Hpos _].
    unfold same_position, position in Hpos. congruence.
  - destruct (answer OnContinue (pending w)) as [rest |]; [| exact Hw].
    rewrite commit_run. unfold announced_at_the_end. cbn [ctrl log].
    destruct Horder as (Hlow & Hunset & _).
    destruct (processNextAgent_moves env (ctrl w) Hlow Hunset) as (Hseq & _ & Hindex & _).
    rewrite Hseq, Hindex.
    intros Hmem. apply in_app_or in Hmem as [Hold | Hnew].
    + specialize (Hw Hold). lia.
    + exact (announced_only_at_the_end env (ctrl w) Hnew).
  - destruct (answer cb (pending w)) as [rest |]; exact Hw.
Qed.

Lemma guided_run ss : forall w,
  Forall guided ss -> in_order w -> announced_at_the_end w ->
  announced_at_the_end (run w ss) /\ plan (ctrl (run w ss)) = plan (ctrl w).
Proof.
  induction ss as [| s rest IH]; intros w Hall Horder Hw; [split; [exact Hw | reflexivity] |].
  inversion Hall as [| ? ? Hs Hrest]; subst. cbn [run fold_left].
  change (fold_left step rest (step w s)) with (run (step w s) rest).
  destruct (IH (step w s) Hrest (in_order_step w s Horder) (announced_step w s Hs Horder Hw))
    as [Hend Hplan].
  split; [exact Hend |]. rewrite Hplan. apply step_plan.
  intros data env ->. exact Hs.
Qed.

Lemma start_run data env c :
  exists c1 es,
    processNextAgent env (restarted data) = (Returned tt, c1, es) /\
    onDidReceiveMessage (MsgStartAgents data) env c =
      (Returned tt, c1, PostMessage (setAgentSequence (agents data)) :: es) /\
    agentSequence c1 = agents data /\
    initialInputs c1 = Some data /\
    currentAgentIndex c1 = 0.
Proof.
  assert (-1 <= currentAgentIndex (restarted data)) as Hlow by (cbn; lia).
  pose proof (processNextAgent_returns env (restarted data) data eq_refl) as Hret.
  pose proof (processNextAgent_moves env (restarted data) Hlow) as Hmoves.
  destruct (processNextAgent env (restarted data)) as [[r c1] es] eqn:Hrun.
  unfold ended in Hret. cbn [fst] in Hret. subst r.
  destruct Hmoves as (Hseq & Hinputs & Hindex & _); [cbn; discriminate |].
  exists c1, es. split; [reflexivity |].
  split; [exact (onDidReceiveMessage_start data env c c1 es Hrun) |].
  split; [exact Hseq |]. split; [exact Hinputs | exact Hindex].
Qed.

Lemma announced_start data env :
  announced_at_the_end (step boot (Receive (MsgStartAgents data) env)).
Proof.
  destruct (start_run data env (ctrl boot)) as (c1 & es & Hrun & Hstart & Hseq & _ & Hindex).
  cbn [step]. rewrite commit_run, Hstart. unfold announced_at_the_end, fields, emitted.
  cbn [ctrl log fst snd boot app]. rewrite Hseq, Hindex.
  intros [Hhead | Htail]; [discriminate |].
  pose proof (announced_only_at_the_end env (restarted data)) as Hend.
  rewrite Hrun in Hend. exact (Hend Htail).
Qed.

(** X18.  In a run started by one [startAgents] and advanced with the
    buttons only, the end of the process is announced only after every
    agent of the sequence has had a submission accepted and has an entry
    in the store. *)
Theorem completion_means_every_agent_validated data env ss :
  Forall guided ss ->
  In (PostMessage agentsCompleted)
     (log (run boot (Receive (MsgStartAgents data) env :: ss))) ->
  forall agent,
    In agent (agents data) ->
    validated (run boot (Receive (MsgStartAgents data) env :: ss)) agent.
Proof.
  intros Hall Hdone agent Hmem.
  change (run boot (Receive (MsgStartAgents data) env :: ss))
    with (run (step boot (Receive (MsgStartAgents data) env)) ss) in *.
  pose proof (on_rails_run ss Hall _ (on_rails_start data env)) as (_ & _ & Hreviewed & _).
  destruct (guided_run ss (step boot (Receive (MsgStartAgents data) env)) Hall
              (in_order_step boot _ in_order_boot) (announced_start data env))
    as [Hend Hplan].
  assert (plan (ctrl (step boot (Receive (MsgStartAgents data) env)))
            = (agents data, Some data)) as Hstart.
  { cbn [step]. rewrite commit_run. apply start_plan. }
  rewrite Hstart in Hplan.
  assert (agentSequence (ctrl (run (step boot (Receive (MsgStartAgents data) env)) ss))
            = agents data) as Hseq by (unfold plan in Hplan; congruence).
  specialize (Hend Hdone). rewrite Hseq in Hend.
  apply list_elem_of_In, list_elem_of_lookup_1 in Hmem as [j Hj].
  apply (Hreviewed j agent).
  - pose proof (lookup_lt_Some _ _ _ Hj). lia.
  - rewrite Hseq. exact Hj.
Qed.

Lemma completion_means_every_agent_validated_witness :
  validated
    (run boot
       [Receive (MsgStartAgents (form ["KnowledgeBase"; "Requirements"]))
          (answers (JObj [("stack", JStr "web")]));
        PressValidate "KnowledgeBase" (submits (JObj [("stack", JStr "web")]));
        PressContinue (answers (JObj [("stories", JStr "login")]));
        PressValidate "Requirements" (submits (JObj [("stories", JStr "login")]));
        PressContinue (answers JNull)])
    "Requirements".
Proof.
  apply (completion_means_every_agent_validated
           (form ["KnowledgeBase"; "Requirements"])
           (answers (JObj [("stack", JStr "web")]))
           [PressValidate "KnowledgeBase" (submits (JObj [("stack", JStr "web")]));
            PressContinue (answers (JObj [("stories", JStr "login")]));
            PressValidate "Requirements" (submits (JObj [("stories", JStr "login")]));
            PressContinue (answers JNull)]).
  - repeat constructor.
  - vm_compute. repeat (first [left; reflexivity | right]).
  - simpl. auto.
Defined.

End Announcement.

(** ** The form of the webview *)

Section Form.

Lemma trimEnd_kept ch rest : trimEnd (String ch rest) <> "" \/ is_white_space ch = true.
Proof.
  cbn [trimEnd]. destruct (trimEnd rest); [| left; discriminate].
  destruct (is_white_space ch); [right; reflexivity | left; discriminate].
Qed.

Lemma falsy_trim s : falsy (trim s) = blank s.
Proof.
  unfold trim, blank, falsy. induction s as [| ch rest IH]; [reflexivity |].
  cbn [trimStart list_ascii_of_string forallb].
  destruct (is_white_space ch) eqn:Hch; [exact IH |].
  cbn [andb]. destruct (trimEnd_kept ch rest) as [Hkept | Hwhite]; [| congruence].
  destruct (trimEnd (String ch rest)); [congruence | reflexivity].
Qed.

Lemma checked_values_known b : sublist (checked_values b) known_agents.
Proof.
  destruct b as [[] [] [] [] []]; cbn;
    repeat first [apply sublist_nil | apply sublist_skip | apply sublist_cons].
Qed.

Lemma known_agents_distinct : List.NoDup known_agents.
Proof.
  unfold known_agents.
  repeat (constructor; [cbn; intuition discriminate |]). constructor.
Qed.

Lemma checked_values_ordered b i agent field pred :
  checked_values b !! i = Some agent ->
  In (field, pred) (predecessors agent) ->
  In pred (checked_values b) ->
  exists j, (j < i)%nat /\ checked_values b !! j = Some pred.
Proof.
  intros Hi Hpred Hsel.
  destruct b as [[] [] [] [] []]; cbn in Hi, Hsel;
    repeat (destruct i as [| i]; cbn in Hi; try discriminate Hi);
    injection Hi as <-; cbn in Hpred;
    repeat (destruct Hpred as [Hpred | Hpred]); try contradiction;
    injection Hpred as <- <-;
    first
      [ exfalso; clear -Hsel; intuition discriminate
      | exists 0%nat; split; [lia | reflexivity]
      | exists 1%nat; split; [lia | reflexivity]
      | exists 2%nat; split; [lia | reflexivity]
      | exists 3%nat; split; [lia | reflexivity] ].
Qed.

(** X19.  [startSdlcProcess] posts [startAgents] only for a complete
    form: none of the three fields is blank and at least one box is
    checked.  The message then carries the three texts as typed and the
    values of the checked boxes in the order of the page, the form gives
    way to the progress list, and that list has one fresh panel per
    selected agent, the first with the spinner.  In every other case the
    page stays as it is and an alert is the only effect. *)
Theorem startSdlcProcess_posts_only_complete_forms p :
  (blank (requirements_value p) || blank (context_value p) || blank (title_value p) = true ->
   startSdlcProcess p = (p, [Alert "Please fill in all fields"])) /\
  (blank (requirements_value p) || blank (context_value p) || blank (title_value p) = false ->
   checked_values (checkboxes p) = [] ->
   startSdlcProcess p = (p, [Alert "Please select at least one agent"])) /\
  (forall p' message,
     startSdlcProcess p = (p', [VscodePostMessage message]) ->
     blank (requirements_value p) = false /\
     blank (context_value p) = false /\
     blank (title_value p) = false /\
     checked_values (checkboxes p) <> [] /\
     message = MsgStartAgents {| requirements := requirements_value p;
                                 context := context_value p;
                                 title := title_value p;
                                 agents := checked_values (checkboxes p) |} /\
     inputForm_hidden p' = true /\
     progressPanel_hidden p' = false /\
     selectedAgents p' = checked_values (checkboxes p) /\
     map panel_agent (agentProgress p') = checked_values (checkboxes p) /\
     map panel_status (agentProgress p') = map (fun _ => "Waiting...") (agentProgress p') /\
     map panel_spinners (agentProgress p')
       = match agentProgress p' with [] => [] | _ :: rest => 1%nat :: map (fun _ => 0%nat) rest end).
Proof.
  unfold startSdlcProcess. rewrite !falsy_trim.
  split; [intros ->; reflexivity |].
  split.
  - intros -> ->. reflexivity.
  - intros p' message.
    destruct (blank (requirements_value p) || blank (context_value p)
              || blank (title_value p)) eqn:Hblank; [discriminate |].
    apply orb_false_iff in Hblank as [Hblank Htitle].
    apply orb_false_iff in Hblank as [Hreq Hctx].
    destruct (checked_values (checkboxes p)) as [| first others] eqn:Hchecked;
      [discriminate |].
    cbn [length Nat.eqb]. intros [= <- <-].
    cbn [inputForm_hidden progressPanel_hidden selectedAgents agentProgress].
    repeat (split; [first [assumption | reflexivity | discriminate] |]).
    unfold updateAgentProgressDisplay. cbn [fresh_panels map panel_agent panel_status
                                           panel_spinners Nat.eqb].
    assert (forall index l, map panel_agent (fresh_panels index l) = l) as Hnames.
    { intros index l. revert index. induction l as [| a l IH]; intros index;
        cbn; [reflexivity | rewrite IH; reflexivity]. }
    assert (forall index l,
              map panel_status (fresh_panels index l)
                = map (fun _ => "Waiting...") (fresh_panels index l)) as Hstatus.
    { intros index l. revert index. induction l as [| a l IH]; intros index;
        cbn; [reflexivity | rewrite IH; reflexivity]. }
    assert (forall index l,
              map panel_spinners (fresh_panels (S index) l)
                = map (fun _ => 0%nat) (fresh_panels (S index) l)) as Hnone.
    { intros index l. revert index. induction l as [| a l IH]; intros index;
        cbn; [reflexivity | rewrite IH; reflexivity]. }
    rewrite Hnames, Hstatus, Hnone. repeat split.
Qed.

End Form.

(** ** The agents the form selects *)

Section Selection.

Lemma startSdlcProcess_agents p p' data :
  startSdlcProcess p = (p', [VscodePostMessage (MsgStartAgents data)]) ->
  agents data = checked_values (checkboxes p) /\ agents data <> [].
Proof.
  unfold startSdlcProcess.
  destruct (falsy _ || falsy _ || falsy _); [discriminate |].
  destruct (checked_values (checkboxes p)) as [| first others] eqn:Hchecked;
    [discriminate |].
  cbn [length Nat.eqb]. intros [= <- <-]. cbn [agents]. split; [reflexivity | discriminate].
Qed.

Lemma form_order p p' data :
  startSdlcProcess p = (p', [VscodePostMessage (MsgStartAgents data)]) ->
  forall i agent field pred,
    agents data !! i = Some agent ->
    In (field, pred) (predecessors agent) ->
    In pred (agents data) ->
    exists j, (j < i)%nat /\ agents data !! j = Some pred.
Proof.
  intros Hstart. destruct (startSdlcProcess_agents p p' data Hstart) as [-> _].
  intros i agent field pred. apply checked_values_ordered.
Qed.

(** X20.  The agents a [startAgents] message of the form names are
    never empty, are all among the five the controller's [switch] knows,
    come without repetition and in the order of the pipeline; so every
    selected agent whose output another selected agent reads comes before
    that agent in the sequence. *)
Theorem form_selects_known_agents_in_order p p' data :
  startSdlcProcess p = (p', [VscodePostMessage (MsgStartAgents data)]) ->
  agents data <> [] /\
  sublist (agents data) known_agents /\
  List.NoDup (agents data) /\
  (forall agent, In agent (agents data) -> In agent known_agents) /\
  (forall i agent field pred,
     agents data !! i = Some agent ->
     In (field, pred) (predecessors agent) ->
     In pred (agents data) ->
     exists j, (j < i)%nat /\ agents data !! j = Some pred).
Proof.
  intros Hstart. destruct (startSdlcProcess_agents p p' data Hstart) as [-> Hsome].
  pose proof (checked_values_known (checkboxes p)) as Hsub.
  split; [exact Hsome |]. split; [exact Hsub |].
  split.
  { apply NoDup_ListNoDup. eapply sublist_NoDup; [| exact Hsub].
    apply NoDup_ListNoDup, known_agents_distinct. }
  split.
  { intros agent Hmem. apply list_elem_of_In.
    eapply sublist_submseteq, elem_of_submseteq in Hsub; [exact Hsub |].
    apply list_elem_of_In, Hmem. }
  rewrite <- (proj1 (startSdlcProcess_agents p p' data Hstart)).
  exact (form_order p p' data Hstart).
Qed.

Lemma form_selects_known_agents_in_order_witness :
  List.NoDup ["Requirements"; "Architecture"; "Generator"] /\
  exists j, (j < 1)%nat /\ ["Requirements"; "Architecture"; "Generator"] !! j = Some "Requirements".
Proof.
  destruct (form_selects_known_agents_in_order
              {| requirements_value := "a shop"; context_value := "web"; title_value := "Shop";
                 checkboxes := {| kb := false; req := true; arch := true;
                                  skel := false; gen := true |};
                 inputForm_hidden := false; progressPanel_hidden := true;
                 currentAgentPanel_hidden := true; completionPanel_hidden := true;
                 currentAgentName := ""; currentAgentStatus := None; agentProgress := [];
                 banners := []; selectedAgents := []; state_agentSequence := None |}
              _ _ eq_refl)
    as (_ & _ & Hdistinct & _ & Horder).
  split; [exact Hdistinct |].
  apply (Horder 1%nat "Architecture" "requirement_output" "Requirements").
  - reflexivity.
  - simpl. auto.
  - simpl. auto.
Defined.

(** What the payload of an agent carries for a predecessor. *)
Lemma payload_carries_entry agent inputs c field pred value :
  In (field, pred) (predecessors agent) ->
  agentOutputs c !! pred = Some value ->
  own_property (payload_of agent inputs c) field = Some value.
Proof.
  intros Hpred Hentry.
  assert (stored c pred = value) as Hstored by (unfold stored; rewrite Hentry; reflexivity).
  unfold predecessors in Hpred. unfold payload_of.
  destruct (String.eqb agent "Architecture") eqn:Harch.
  { apply String.eqb_eq in Harch. subst agent. cbn.
    destruct Hpred as [[= <- <-] | [[= <- <-] | []]]; rewrite Hstored; reflexivity. }
  destruct (String.eqb agent "Skeletons") eqn:Hskel.
  { apply String.eqb_eq in Hskel. subst agent. cbn.
    destruct Hpred as [[= <- <-] | []]; rewrite Hstored; reflexivity. }
  destruct (String.eqb agent "Generator") eqn:Hgen; [| destruct Hpred].
  apply String.eqb_eq in Hgen. subst agent. cbn.
  destruct Hpred as [[= <- <-] | [[= <- <-] | []]]; rewrite Hstored; reflexivity.
Qed.

(** X21.  In a run started from the form and advanced with the buttons
    only, whenever the [Continue] button is on screen, every selected
    agent whose output the next agent reads has been validated, and the
    payload the next dispatch builds carries its entry of the store. *)
Theorem form_run_feeds_validated_outputs p p' data env ss agent field pred :
  startSdlcProcess p = (p', [VscodePostMessage (MsgStartAgents data)]) ->
  Forall guided ss ->
  In OnContinue (pending (run boot (Receive (MsgStartAgents data) env :: ss))) ->
  agentSequence (ctrl (run boot (Receive (MsgStartAgents data) env :: ss)))
    !! Z.to_nat (currentAgentIndex (ctrl (run boot (Receive (MsgStartAgents data) env :: ss))) + 1)
    = Some agent ->
  In (field, pred) (predecessors agent) ->
  In pred (agents data) ->
  validated (run boot (Receive (MsgStartAgents data) env :: ss)) pred /\
  exists value,
    agentOutputs (ctrl (run boot (Receive (MsgStartAgents data) env :: ss))) !! pred
      = Some value /\
    own_property
      (payload_of agent data
         (set_currentAgentIndex Z.succ
            (ctrl (run boot (Receive (MsgStartAgents data) env :: ss)))))
      field = Some value.
Proof.
  intros Hform Hall.
  change (run boot (Receive (MsgStartAgents data) env :: ss))
    with (run (step boot (Receive (MsgStartAgents data) env)) ss).
  pose proof (on_rails_run ss Hall _ (on_rails_start data env))
    as (Hlow & _ & Hreviewed & Hpending).
  destruct (guided_run ss (step boot (Receive (MsgStartAgents data) env)) Hall
              (in_order_step boot _ in_order_boot) (announced_start data env))
    as [_ Hplan].
  assert (plan (ctrl (step boot (Receive (MsgStartAgents data) env)))
            = (agents data, Some data)) as Hstart.
  { cbn [step]. rewrite commit_run. apply start_plan. }
  rewrite Hstart in Hplan.
  assert (agentSequence (ctrl (run (step boot (Receive (MsgStartAgents data) env)) ss))
            = agents data) as Hseq by (unfold plan in Hplan; congruence).
  set (w := run (step boot (Receive (MsgStartAgents data) env)) ss) in *.
  intros Hbutton Hnext Hpred Hsel.
  assert (validated w pred) as Hvalid.
  { destruct (form_order p p' data Hform _ agent field pred
                ltac:(rewrite <- Hseq; exact Hnext) Hpred Hsel) as (j & Hj & Hat).
    destruct Hpending as [Hnone | [(other & Hone & _) | [_ Hcurrent]]].
    - rewrite Hnone in Hbutton. destruct Hbutton.
    - rewrite Hone in Hbutton. destruct Hbutton as [Hbad | []]. discriminate.
    - destruct (decide (Z.of_nat j < currentAgentIndex (ctrl w))) as [Hbefore | Hlast].
      + apply (Hreviewed j pred Hbefore). rewrite Hseq. exact Hat.
      + apply Hcurrent. rewrite Hseq.
        replace (Z.to_nat (currentAgentIndex (ctrl w))) with j by lia. exact Hat. }
  split; [exact Hvalid |].
  destruct Hvalid as [_ [value Hentry]]. exists value. split; [exact Hentry |].
  exact (payload_carries_entry agent data _ field pred value Hpred Hentry).
Qed.

Lemma form_run_feeds_validated_outputs_witness :
  validated
    (run boot
       [Receive (MsgStartAgents (form ["Requirements"; "Architecture"]))
          (answers (JObj [("stories", JStr "login")]));
        PressValidate "Requirements" (submits (JObj [("stories", JStr "login")]))])
    "Requirements".
Proof.
  assert (In OnContinue
            (pending
               (run boot
                  [Receive (MsgStartAgents (form ["Requirements"; "Architecture"]))
                     (answers (JObj [("stories", JStr "login")]));
                   PressValidate "Requirements"
                     (submits (JObj [("stories", JStr "login")]))])))
    as Hbutton by (vm_compute; left; reflexivity).
  assert (Forall guided
            [PressValidate "Requirements" (submits (JObj [("stories", JStr "login")]))])
    as Hguided by (repeat constructor).
  assert (In ("requirement_output", "Requirements") (predecessors "Architecture"))
    as Hpred by (simpl; auto).
  assert (In "Requirements" (agents (form ["Requirements"; "Architecture"])))
    as Hsel by (simpl; auto).
  exact (proj1 (form_run_feeds_validated_outputs
                  {| requirements_value := "a shop"; context_value := "web";
                     title_value := "Shop";
                     checkboxes := {| kb := false; req := true; arch := true;
                                      skel := false; gen := false |};
                     inputForm_hidden := false; progressPanel_hidden := true;
                     currentAgentPanel_hidden := true; completionPanel_hidden := true;
                     currentAgentName := ""; currentAgentStatus := None;
                     agentProgress := []; banners := []; selectedAgents := [];
                     state_agentSequence := None |}
                  _ (form ["Requirements"; "Architecture"])
                  (answers (JObj [("stories", JStr "login")]))
                  [PressValidate "Requirements" (submits (JObj [("stories", JStr "login")]))]
                  "Architecture" "requirement_output" "Requirements"
                  eq_refl Hguided Hbutton eq_refl Hpred Hsel)).
Defined.

End Selection.

(** ** The progress list of the webview *)

Section Progress.

Lemma spinners_cons q l :
  spinners_shown (q :: l) = (panel_spinners q + spinners_shown l)%nat.
Proof. reflexivity. Qed.

Lemma spinners_fresh_later index l : spinners_shown (fresh_panels (S index) l) = 0%nat.
Proof.
  revert index. induction l as [| agent rest IH]; intros index; [reflexivity |].
  cbn [fresh_panels]. rewrite spinners_cons, IH. reflexivity.
Qed.

Lemma spinners_without l : spinners_shown (map without_spinner l) = 0%nat.
Proof.
  induction l as [| q rest IH]; [reflexivity |].
  cbn [map]. rewrite spinners_cons, IH. reflexivity.
Qed.

Lemma spinners_restyle agent status l :
  has_panel agent l = true ->
  spinners_shown (restyle agent status l)
    = if String.eqb status "Processing" then 1%nat else 0%nat.
Proof.
  induction l as [| q rest IH]; cbn [has_panel existsb restyle]; [discriminate |].
  destruct (String.eqb (panel_agent q) agent); cbn [orb].
  - intros _. rewrite spinners_cons, spinners_without. cbn [panel_spinners]. lia.
  - intros Hrest. rewrite spinners_cons, (IH Hrest). reflexivity.
Qed.

Lemma names_restyle agent status l :
  map panel_agent (restyle agent status l) = map panel_agent l.
Proof.
  induction l as [| q rest IH]; [reflexivity |]. cbn [restyle].
  destruct (String.eqb (panel_agent q) agent); cbn [map panel_agent without_spinner].
  - rewrite map_map. reflexivity.
  - rewrite IH. reflexivity.
Qed.

Lemma spinners_updateAgentStatus agent status l :
  (spinners_shown l <= 1)%nat ->
  (spinners_shown (updateAgentStatus agent status l) <= 1)%nat.
Proof.
  intros Hl. unfold updateAgentStatus. destruct (has_panel agent l) eqn:Hfound; [| exact Hl].
  rewrite (spinners_restyle agent status l Hfound).
  destruct (String.eqb status "Processing"); lia.
Qed.

Lemma spinners_page_step p i :
  (spinners_shown (agentProgress p) <= 1)%nat ->
  (spinners_shown (agentProgress (fst (page_step p i))) <= 1)%nat.
Proof.
  intros Hp. destruct i as [requirements context title boxes | | | message |];
    cbn [page_step fst]; try exact Hp.
  - unfold startSdlcProcess.
    destruct (falsy _ || falsy _ || falsy _); [exact Hp |].
    destruct (checked_values (checkboxes p)) as [| first others]; [exact Hp |].
    cbn [length Nat.eqb fst agentProgress]. unfold updateAgentProgressDisplay.
    cbn [fresh_panels Nat.eqb]. rewrite spinners_cons, spinners_fresh_later.
    cbn [panel_spinners]. lia.
  - destruct message; cbn [onMessage agentProgress set_agentProgress set_banners];
      first [exact Hp | apply spinners_updateAgentStatus, Hp].
Qed.

(** X22.  The progress list never shows more than one spinner, whatever
    the human does with the page and whatever messages arrive, in any
    order.  A status message for an agent with a panel leaves exactly one
    spinner, on that agent, when the agent starts, and none when its
    output awaits validation or has been validated; a message for an agent
    without a panel changes nothing; and no message adds, removes or
    renames a panel. *)
Theorem progress_list_shows_at_most_one_spinner :
  (forall inputs, (spinners_shown (agentProgress (browse loaded inputs)) <= 1)%nat) /\
  (forall agent status panels,
     has_panel agent panels = true ->
     spinners_shown (updateAgentStatus agent status panels)
       = if String.eqb status "Processing" then 1%nat else 0%nat) /\
  (forall agent status panels,
     has_panel agent panels = false ->
     updateAgentStatus agent status panels = panels) /\
  (forall message p,
     map panel_agent (agentProgress (onMessage message p)) = map panel_agent (agentProgress p)).
Proof.
  split.
  { intros inputs. unfold browse.
    assert (forall p, (spinners_shown (agentProgress p) <= 1)%nat ->
                      (spinners_shown
                         (agentProgress (fold_left (fun q i => fst (page_step q i)) inputs p))
                       <= 1)%nat) as Hall.
    { induction inputs as [| i rest IH]; intros p Hp; [exact Hp |].
      cbn [fold_left]. apply IH, spinners_page_step, Hp. }
    apply Hall. cbn. lia. }
  split.
  { intros agent status panels Hfound. unfold updateAgentStatus. rewrite Hfound.
    apply spinners_restyle, Hfound. }
  split.
  { intros agent status panels Hmissing. unfold updateAgentStatus. rewrite Hmissing.
    reflexivity. }
  intros message p.
  destruct message; cbn [onMessage agentProgress set_agentProgress set_banners];
    try reflexivity;
    unfold updateAgentStatus;
    match goal with
    | |- context [has_panel ?a ?l] => destruct (has_panel a l)
    end; first [reflexivity | apply names_restyle].
Qed.

End Progress.

(** ** The progress list along a run *)

Section Screen.

Lemma agentProgress_onMessage m p :
  agentProgress (onMessage m p) =
    match status_of (PostMessage m) with
    | Some (agent, status) => updateAgentStatus agent status (agentProgress p)
    | None => agentProgress p
    end.
Proof. destruct m; reflexivity. Qed.

Lemma deliver_app es1 es2 p : deliver (es1 ++ es2) p = deliver es2 (deliver es1 p).
Proof. unfold deliver. apply fold_left_app. Qed.

Lemma agentProgress_deliver es : forall p,
  agentProgress (deliver es p) = restyled (statuses es) (agentProgress p).
Proof.
  induction es as [| e rest IH]; intros p; [reflexivity |].
  change (deliver (e :: rest) p)
    with (deliver rest (match e with PostMessage m => onMessage m p | _ => p end)).
  rewrite IH. unfold statuses. cbn [omap list_omap].
  destruct e as [m | | | | | | | | |]; try reflexivity.
  rewrite agentProgress_onMessage.
  destruct (status_of (PostMessage m)) as [[agent status] |]; reflexivity.
Qed.

Lemma statuses_app es1 es2 : statuses (es1 ++ es2) = statuses es1 ++ statuses es2.
Proof. unfold statuses. apply omap_app. Qed.

Lemma statuses_statusless es : Forall statusless es -> statuses es = [].
Proof.
  induction 1 as [| e rest He _ IH]; [reflexivity |].
  unfold statuses in *. cbn [omap list_omap]. unfold statusless in He.
  rewrite He. exact IH.
Qed.

Lemma statuses_dispatching agent es :
  Forall (dispatching agent) es ->
  Forall (fun x => fst x = agent /\ snd x <> "Completed") (statuses es).
Proof.
  induction 1 as [| e rest He _ IH]; [constructor |].
  unfold statuses in *. cbn [omap list_omap]. unfold dispatching in He.
  destruct (status_of e) as [[name status] |]; [constructor; [exact He | exact IH] | exact IH].
Qed.

Lemma lookup_map {A B} (f : A -> B) l (j : nat) : map f l !! j = option_map f (l !! j).
Proof.
  revert j. induction l as [| x rest IH]; intros [| j]; cbn; try reflexivity. apply IH.
Qed.

Lemma faces_without l : map face (map without_spinner l) = map face l.
Proof. rewrite map_map. reflexivity. Qed.

Lemma restyle_faces agent status l : forall (i : nat) q,
  NoDup (map panel_agent l) ->
  l !! i = Some q ->
  panel_agent q = agent ->
  map face (restyle agent status l) =
    <[i := (agent, status,
            if String.eqb status "Completed" then S (panel_marks q) else panel_marks q)]>
      (map face l).
Proof.
  induction l as [| q0 rest IH]; intros i q Hnd Hi Hq; [discriminate |].
  cbn [map] in Hnd. apply NoDup_cons in Hnd as [Hfresh Hnd].
  cbn [restyle]. destruct (String.eqb (panel_agent q0) agent) eqn:Hhead.
  - apply String.eqb_eq in Hhead. destruct i as [| i].
    + injection Hi as ->. cbn [map]. rewrite faces_without.
      unfold face at 1. cbn [panel_agent panel_status panel_marks].
      rewrite Hq. destruct (String.eqb status "Completed"); reflexivity.
    + exfalso. apply Hfresh. rewrite Hhead, <- Hq.
      apply list_elem_of_lookup. exists i.
      change (rest !! i = Some q) in Hi.
      rewrite lookup_map, Hi. reflexivity.
  - destruct i as [| i].
    + injection Hi as ->. rewrite Hq, String.eqb_refl in Hhead. discriminate.
    + cbn [map]. change (rest !! i = Some q) in Hi.
      rewrite (IH i q Hnd Hi Hq). reflexivity.
Qed.

Lemma has_panel_lookup l (i : nat) q : l !! i = Some q -> has_panel (panel_agent q) l = true.
Proof.
  unfold has_panel.
  revert i. induction l as [| q0 rest IH]; intros [| i] Hi; try discriminate.
  - injection Hi as ->. cbn [existsb]. rewrite String.eqb_refl. reflexivity.
  - cbn [existsb]. rewrite (IH i Hi). apply orb_true_r.
Qed.

Lemma updateAgentStatus_faces agent status l (i : nat) q :
  NoDup (map panel_agent l) ->
  l !! i = Some q ->
  panel_agent q = agent ->
  map face (updateAgentStatus agent status l) =
    <[i := (agent, status,
            if String.eqb status "Completed" then S (panel_marks q) else panel_marks q)]>
      (map face l).
Proof.
  intros Hnd Hi Hq. unfold updateAgentStatus.
  rewrite <- Hq, (has_panel_lookup l i q Hi), Hq.
  exact (restyle_faces agent status l i q Hnd Hi Hq).
Qed.

Lemma names_updateAgentStatus agent status l :
  map panel_agent (updateAgentStatus agent status l) = map panel_agent l.
Proof.
  unfold updateAgentStatus. destruct (has_panel agent l); [apply names_restyle | reflexivity].
Qed.

Lemma names_restyled sts : forall l, map panel_agent (restyled sts l) = map panel_agent l.
Proof.
  induction sts as [| [agent status] rest IH]; intros l; [reflexivity |].
  cbn [restyled fold_left fst snd]. fold (restyled rest (updateAgentStatus agent status l)).
  rewrite IH. apply names_updateAgentStatus.
Qed.

Lemma panel_of_face l (j : nat) f :
  map face l !! j = Some f -> exists q, l !! j = Some q /\ face q = f.
Proof.
  rewrite lookup_map. destruct (l !! j) as [q |]; [| discriminate].
  intros [= <-]. exists q. split; reflexivity.
Qed.

(** Statuses that all concern one agent and never complete it change
    the face of that agent's panel only, and not its check marks. *)
Lemma restyled_dispatching agent sts :
  Forall (fun x => fst x = agent /\ snd x <> "Completed") sts ->
  forall l (i : nat) q,
    NoDup (map panel_agent l) ->
    l !! i = Some q ->
    panel_agent q = agent ->
    exists status,
      map face (restyled sts l) = <[i := (agent, status, panel_marks q)]> (map face l).
Proof.
  induction 1 as [| [name status] rest [Hname Hstatus] _ IH]; intros l i q Hnd Hi Hq.
  - exists (panel_status q). cbn [restyled fold_left]. symmetry. apply list_insert_id.
    rewrite lookup_map, Hi. cbn [option_map]. unfold face. rewrite Hq. reflexivity.
  - cbn [fst snd] in Hname, Hstatus. subst name.
    cbn [restyled fold_left fst snd]. fold (restyled rest (updateAgentStatus agent status l)).
    pose proof (updateAgentStatus_faces agent status l i q Hnd Hi Hq) as Hfaces.
    assert (String.eqb status "Completed" = false) as Hnot
      by (apply String.eqb_neq; exact Hstatus).
    rewrite Hnot in Hfaces.
    destruct (panel_of_face (updateAgentStatus agent status l) i
                (agent, status, panel_marks q)) as (q' & Hi' & Hface').
    { rewrite Hfaces. apply list_lookup_insert_eq.
      rewrite length_map. eapply lookup_lt_Some, Hi. }
    injection Hface' as Hq' _ Hmarks'.
    destruct (IH (updateAgentStatus agent status l) i q') as [last Hlast];
      [rewrite names_updateAgentStatus; exact Hnd | exact Hi' | exact Hq' |].
    exists last. rewrite Hlast, Hfaces, Hmarks'. apply list_insert_insert_eq.
Qed.

Lemma faces_insert_cases shown shown' (i : nat) f :
  map face shown' = <[i := f]> (map face shown) ->
  forall (j : nat) q,
    shown' !! j = Some q ->
    (j = i /\ face q = f) \/
    (j <> i /\ exists q0, shown !! j = Some q0 /\ face q0 = face q).
Proof.
  intros Hfaces j q Hj.
  assert (map face shown' !! j = Some (face q)) as Hface
    by (rewrite lookup_map, Hj; reflexivity).
  rewrite Hfaces in Hface.
  destruct (decide (j = i)) as [-> | Hne].
  - left. split; [reflexivity |].
    rewrite list_lookup_insert_eq in Hface; [congruence |].
    apply lookup_lt_Some in Hface. rewrite length_insert in Hface. exact Hface.
  - right. split; [exact Hne |].
    rewrite list_lookup_insert_ne in Hface by congruence.
    exact (panel_of_face shown j (face q) Hface).
Qed.

Lemma panel_done_face q q0 : face q0 = face q -> panel_done q0 -> panel_done q.
Proof. unfold face, panel_done. intros [= _ <- <-]. tauto. Qed.

Lemma panel_waiting_face q q0 : face q0 = face q -> panel_waiting q0 -> panel_waiting q.
Proof. unfold face, panel_waiting. intros [= _ <- <-]. tauto. Qed.

Lemma statusless_callApiEndpoint endpoint data r :
  respects same_plan statusless (callApiEndpoint endpoint data r).
Proof.
  unfold callApiEndpoint. destruct r as [e | status body]; [| destruct (res_ok status)];
    planned.
Qed.

Lemma statusless_invoke agent inputs c r : respects same_plan statusless (invoke agent inputs c r).
Proof.
  unfold invoke.
  repeat match goal with
         | |- context [String.eqb ?a ?b] => destruct (String.eqb a b)
         end; first [apply statusless_callApiEndpoint | planned].
Qed.

Lemma statusless_openOutputInEditor agent output w :
  respects same_plan statusless (openOutputInEditor agent output w).
Proof. unfold openOutputInEditor. planned. Qed.

Lemma statusless_validateTask agentName taskName output r :
  respects same_plan statusless (validateTask agentName taskName output r).
Proof.
  unfold validateTask.
  apply respects_bind; [exact same_plan_trans | apply statusless_callApiEndpoint |].
  intros _. planned.
Qed.

Lemma statusless_validateEach agent answers tasks :
  forall k, respects same_plan statusless (validateEach agent tasks k answers).
Proof.
  induction tasks as [| t rest IH]; intros k; cbn [validateEach]; [planned |].
  apply respects_bind; [exact same_plan_trans | planned |].
  intros c0. apply respects_bind; [exact same_plan_trans | apply statusless_validateTask |].
  intros _. apply IH.
Qed.

Lemma statusless_message message env :
  guided (Receive message env) ->
  respects same_plan statusless (onDidReceiveMessage message env).
Proof.
  intros Hguided. unfold onDidReceiveMessage.
  apply respects_try_catch; [exact same_plan_trans | | intros e; planned].
  destruct message as [data | | agentName taskName output | data | data];
    try destruct Hguided.
  - apply statusless_validateTask.
  - unfold saveData. planned.
  - planned.
Qed.

Lemma statusless_dispatching {A} agent (m : M A) :
  respects same_plan statusless m -> respects same_plan (dispatching agent) m.
Proof.
  apply respects_weaken; [auto |]. unfold statusless, dispatching. intros e ->. exact I.
Qed.

Lemma dispatching_dispatch agent inputs c env :
  respects same_plan (dispatching agent)
    (try_catch
       (output <- invoke agent inputs c (reply env) ;;
        modify (set_agentOutputs <[agent := output]>) ;;
        openOutputInEditor agent output (bench env) ;;
        tasks <- lift (Object_keys output) ;;
        postMessage (validateAgent agent tasks output))
       (fun err =>
          emit (ConsoleError ("Error in agent " +:+ agent +:+ ":") err) ;;
          postMessage (error ("Agent " +:+ agent +:+ " failed: " +:+ String_of err)))).
Proof.
  apply respects_try_catch; [exact same_plan_trans | | intros e; planned].
  apply respects_bind;
    [exact same_plan_trans | apply statusless_dispatching, statusless_invoke |].
  intros output. apply respects_bind; [exact same_plan_trans | planned |].
  intros _. apply respects_bind;
    [exact same_plan_trans | apply statusless_dispatching, statusless_openOutputInEditor |].
  intros _. planned.
Qed.

Lemma processNextAgent_statuses env c :
  Forall (dispatching (element (agentSequence c) (currentAgentIndex c + 1)))
         (emitted (processNextAgent env c)).
Proof.
  unfold processNextAgent, bind at 1 2, modify, get. cbn [fst snd].
  cbn [set_currentAgentIndex initialInputs agentSequence currentAgentIndex].
  destruct (initialInputs c) as [inputs |]; [| constructor].
  unfold Z.succ.
  destruct (Z.of_nat (length (agentSequence c)) <=? currentAgentIndex c + 1).
  { repeat constructor. }
  unfold bind at 1. unfold postMessage at 1. unfold emit at 1.
  match goal with
  | |- context [try_catch ?body ?handler ?c1] =>
      assert (Forall (dispatching (element (agentSequence c) (currentAgentIndex c + 1)))
                (emitted (try_catch body handler c1))) as Hes
        by exact (proj2 (dispatching_dispatch
                           (element (agentSequence c) (currentAgentIndex c + 1))
                           inputs c1 env c1));
      revert Hes; destruct (try_catch body handler c1) as [[r c2] es2]
  end.
  unfold emitted. cbn [snd app]. intros Hes.
  constructor; [split; [reflexivity | discriminate] | exact Hes].
Qed.

Lemma processNextAgent_statuses_end env c :
  -1 <= currentAgentIndex c ->
  agentSequence c !! Z.to_nat (currentAgentIndex c + 1) = None ->
  statuses (emitted (processNextAgent env c)) = [].
Proof.
  intros Hlow Hnone. apply lookup_ge_None in Hnone.
  unfold processNextAgent, bind at 1 2, modify, get. cbn [fst snd].
  cbn [set_currentAgentIndex initialInputs agentSequence currentAgentIndex].
  destruct (initialInputs c) as [inputs |]; [| reflexivity].
  unfold Z.succ.
  destruct (Z.leb_spec (Z.of_nat (length (agentSequence c))) (currentAgentIndex c + 1));
    [reflexivity | lia].
Qed.

(** A submission tells the page that the agent is completed exactly when
    it offers the [Continue] button, and then once. *)
Lemma validateCurrentAgentOutput_statuses agent rv c :
  exists r c' es,
    validateCurrentAgentOutput agent rv c = (r, c', es) /\
    ((offered es = [] /\ statuses es = []) \/
     (offered es = [OnContinue] /\ statuses es = [(agent, "Completed")])).
Proof.
  unfold validateCurrentAgentOutput, try_catch. unfold bind at 1, get at 1.
  destruct (tempFilePaths c !! agent) as [path |];
    [| cbn; eexists _, _, _; split; [reflexivity | left; split; reflexivity]].
  unfold bind at 1 2, emit at 1.
  destruct (document rv) as [e | [e | value]]; cbn [lift ret throw fst snd].
  - destruct e; cbn; (eexists _, _, _; split; [reflexivity | left; split; reflexivity]).
  - destruct e; cbn; (eexists _, _, _; split; [reflexivity | left; split; reflexivity]).
  - unfold bind at 1, JSON_parse, ret at 1. unfold bind at 1, modify at 1.
    unfold bind at 1.
    destruct (Object_keys value) as [e | tasks]; cbn [lift ret throw fst snd].
    + destruct e; cbn; (eexists _, _, _; split; [reflexivity | left; split; reflexivity]).
    + unfold bind at 1.
      destruct (discreet_validateEach agent (validation rv) tasks 0%nat
                  (set_agentOutputs <[agent := value]> c)) as [_ Hquiet].
      destruct (statusless_validateEach agent (validation rv) tasks 0%nat
                  (set_agentOutputs <[agent := value]> c)) as [_ Hstatus].
      destruct (validateEach agent tasks 0 (validation rv) _) as [[[[] | e] c2] es2];
        cbn [fields emitted fst snd] in *.
      * cbn. eexists _, _, _; split; [reflexivity |]. right.
        cbn [offered]. rewrite !offered_app,
          (offered_buttonless es2 (quiet_buttonless _ Hquiet)).
        change (statuses (OpenTextDocument path :: ?l)) with (statuses l).
        rewrite !statuses_app, (statuses_statusless es2 Hstatus).
        split; reflexivity.
      * destruct e; cbn; (eexists _, _, _; split; [reflexivity |]); left;
          cbn [offered]; rewrite !offered_app,
            (offered_buttonless es2 (quiet_buttonless _ Hquiet));
          change (statuses (OpenTextDocument path :: ?l)) with (statuses l);
          rewrite !statuses_app, (statuses_statusless es2 Hstatus);
          split; reflexivity.
Qed.

Lemma names_fresh_panels agents : forall index,
  map panel_agent (fresh_panels index agents) = agents.
Proof.
  induction agents as [| agent rest IH]; intros index; [reflexivity |].
  cbn [fresh_panels map panel_agent]. rewrite IH. reflexivity.
Qed.

Lemma fresh_panels_waiting agents : forall index (j : nat) q,
  fresh_panels index agents !! j = Some q -> panel_waiting q.
Proof.
  induction agents as [| agent rest IH]; intros index j q Hj; [discriminate |].
  destruct j as [| j].
  - injection Hj as <-. split; reflexivity.
  - change (fresh_panels (S index) rest !! j = Some q) in Hj. exact (IH _ _ _ Hj).
Qed.

(** What a run of [processNextAgent] does to the progress list. *)
Lemma screen_dispatch env c shown :
  NoDup (agentSequence c) ->
  map panel_agent shown = agentSequence c ->
  -1 <= currentAgentIndex c ->
  (forall (j : nat) q,
     shown !! j = Some q ->
     (Z.of_nat j <= currentAgentIndex c -> panel_done q) /\
     (currentAgentIndex c < Z.of_nat j -> panel_waiting q)) ->
  map panel_agent (restyled (statuses (emitted (processNextAgent env c))) shown)
    = agentSequence c /\
  forall (j : nat) q,
    restyled (statuses (emitted (processNextAgent env c))) shown !! j = Some q ->
    (Z.of_nat j < currentAgentIndex c + 1 -> panel_done q) /\
    (currentAgentIndex c + 1 < Z.of_nat j -> panel_waiting q) /\
    (Z.of_nat j = currentAgentIndex c + 1 -> panel_marks q = 0%nat).
Proof.
  intros Hnd Hnames Hlow Hshown.
  split; [rewrite names_restyled; exact Hnames |].
  destruct (agentSequence c !! Z.to_nat (currentAgentIndex c + 1)) as [agent |] eqn:Hnext.
  - assert (0 <= currentAgentIndex c + 1) as Hge by lia.
    pose proof (statuses_dispatching _ _ (processNextAgent_statuses env c)) as Hall.
    rewrite (element_lookup _ _ _ Hge Hnext) in Hall.
    assert (map panel_agent shown !! Z.to_nat (currentAgentIndex c + 1) = Some agent)
      as Hpanel by (rewrite Hnames; exact Hnext).
    rewrite lookup_map in Hpanel.
    destruct (shown !! Z.to_nat (currentAgentIndex c + 1)) as [qi |] eqn:Hqi;
      [| discriminate].
    injection Hpanel as Hagent.
    destruct (restyled_dispatching agent _ Hall shown
                (Z.to_nat (currentAgentIndex c + 1)) qi) as [status Hfaces];
      [rewrite Hnames; exact Hnd | exact Hqi | exact Hagent |].
    assert (panel_marks qi = 0%nat) as Hmarks.
    { destruct (Hshown _ _ Hqi) as [_ Hwait]. apply Hwait. lia. }
    intros j q Hj.
    destruct (faces_insert_cases _ _ _ _ Hfaces j q Hj)
      as [[-> Hface] | [Hne (q0 & Hq0 & Hface)]].
    + split; [lia |]. split; [lia |]. intros _.
      unfold face in Hface. congruence.
    + destruct (Hshown _ _ Hq0) as [Hdone Hwait].
      split; [intros Hlt; apply (panel_done_face q q0 Hface), Hdone; lia |].
      split; [intros Hgt; apply (panel_waiting_face q q0 Hface), Hwait; lia |].
      intros Heq. lia.
  - rewrite (processNextAgent_statuses_end env c Hlow Hnext). cbn [restyled fold_left].
    intros j q Hj. destruct (Hshown _ _ Hj) as [Hdone _].
    apply lookup_ge_None in Hnext.
    assert (j < length (agentSequence c))%nat as Hlen.
    { rewrite <- Hnames, length_map. eapply lookup_lt_Some, Hj. }
    split; [intros _; apply Hdone; lia |]. split; intros; lia.
Qed.

Lemma screen_message w message env p0 :
  guided (Receive message env) ->
  on_screen w (agentProgress (deliver (log w) p0)) ->
  on_screen (step w (Receive message env))
    (agentProgress (deliver (log (step w (Receive message env))) p0)).
Proof.
  intros Hguided Hw. cbn [step]. rewrite commit_run. cbn [log].
  rewrite deliver_app, agentProgress_deliver.
  destruct (statusless_message message env Hguided (ctrl w)) as [_ Hstatus].
  destruct (discreet_message message env Hguided (ctrl w)) as [[Hpos _] Hquiet].
  rewrite (statuses_statusless _ Hstatus). cbn [restyled fold_left].
  unfold on_screen in *. cbn [ctrl pending].
  rewrite (offered_buttonless _ (quiet_buttonless _ Hquiet)), app_nil_r.
  unfold position in Hpos. injection Hpos as Hseq Hidx _. rewrite Hseq, Hidx. exact Hw.
Qed.

Lemma current_panel w shown agent :
  0 <= currentAgentIndex (ctrl w) ->
  map panel_agent shown = agentSequence (ctrl w) ->
  agentSequence (ctrl w) !! Z.to_nat (currentAgentIndex (ctrl w)) = Some agent ->
  exists q, shown !! Z.to_nat (currentAgentIndex (ctrl w)) = Some q /\ panel_agent q = agent.
Proof.
  intros Hlow Hnames Hcur. rewrite <- Hnames, lookup_map in Hcur.
  destruct (shown !! Z.to_nat (currentAgentIndex (ctrl w))) as [q |]; [| discriminate].
  injection Hcur as Hq. exists q. split; [reflexivity | exact Hq].
Qed.

Lemma screen_validate w agent rv p0 :
  on_rails w ->
  NoDup (agentSequence (ctrl w)) ->
  on_screen w (agentProgress (deliver (log w) p0)) ->
  on_screen (step w (PressValidate agent rv))
    (agentProgress (deliver (log (step w (PressValidate agent rv))) p0)).
Proof.
  intros (Hlow & _ & _ & Hpending) Hnd Hw. cbn [step].
  destruct Hpending as [Hp | [(current & Hp & Hcur) | (Hp & _)]]; rewrite Hp; cbn [answer].
  - exact Hw.
  - destruct (decide (OnValidate current = OnValidate agent)) as [Heq | _];
      cbn [option_map]; [| exact Hw].
    injection Heq as ->. rewrite commit_run. cbn [log].
    rewrite deliver_app, agentProgress_deliver.
    destruct (neutral_validateCurrentAgentOutput agent rv (ctrl w)) as [Hpos _].
    destruct (validateCurrentAgentOutput_statuses agent rv (ctrl w))
      as (r & c' & es & Hrun & Hshape).
    rewrite Hrun in *. cbn [fields emitted fst snd] in *.
    unfold same_position, position in Hpos. injection Hpos as Hseq Hidx _.
    destruct Hw as [Hnames Hshown].
    destruct (current_panel w _ agent Hlow Hnames Hcur) as (qi & Hqi & Hagent).
    destruct Hshape as [[Hoff Hst] | [Hoff Hst]]; rewrite Hoff, Hst;
      cbn [restyled fold_left fst snd app].
    + split; cbn [ctrl pending]; [rewrite Hseq; exact Hnames |].
      intros j q Hj. rewrite Hidx. destruct (Hshown j q Hj) as (Hdone & Hwait & _).
      split; [exact Hdone |]. split; [exact Hwait |].
      intros _. split; [intros a; discriminate | discriminate].
    + pose proof (updateAgentStatus_faces agent "Completed" _ _ qi
                    ltac:(rewrite Hnames; exact Hnd) Hqi Hagent) as Hfaces.
      cbn [String.eqb Ascii.eqb Bool.eqb andb] in Hfaces.
      split; cbn [ctrl pending]; [rewrite names_updateAgentStatus, Hseq; exact Hnames |].
      intros j q Hj. rewrite Hidx.
      destruct (faces_insert_cases _ _ _ _ Hfaces j q Hj)
        as [[-> Hface] | [Hne (q0 & Hq0 & Hface)]].
      * split; [lia |]. split; [lia |]. intros _.
        split; [intros a; discriminate |]. intros _.
        destruct (Hshown _ _ Hqi) as (_ & _ & Hcurrent).
        destruct Hcurrent as [Hunmarked _]; [lia |].
        unfold face in Hface. injection Hface as _ Hstatus Hmarks.
        split; [exact Hstatus |]. rewrite Hmarks, (Hunmarked agent Hp). reflexivity.
      * destruct (Hshown _ _ Hq0) as (Hdone & Hwait & _).
        split; [intros Hlt; exact (panel_done_face q q0 Hface (Hdone Hlt)) |].
        split; [intros Hgt; exact (panel_waiting_face q q0 Hface (Hwait Hgt)) |].
        intros Heq. lia.
  - exact Hw.
Qed.

Lemma screen_continue w env p0 :
  on_rails w ->
  NoDup (agentSequence (ctrl w)) ->
  on_screen w (agentProgress (deliver (log w) p0)) ->
  on_screen (step w (PressContinue env))
    (agentProgress (deliver (log (step w (PressContinue env))) p0)).
Proof.
  intros (Hlow & Hinputs & _ & Hpending) Hnd Hw. cbn [step].
  destruct Hpending as [Hp | [(current & Hp & Hcur) | (Hp & _)]]; rewrite Hp; cbn [answer].
  - exact Hw.
  - exact Hw.
  - destruct (decide (OnContinue = OnContinue)) as [_ | Hne]; [| destruct (Hne eq_refl)].
    rewrite commit_run. cbn [log]. rewrite deliver_app, agentProgress_deliver.
    assert (-1 <= currentAgentIndex (ctrl w)) as Hm1 by lia.
    pose proof (processNextAgent_moves env (ctrl w) Hm1 ltac:(intros; contradiction))
      as (Hseq & _ & Hidx & _).
    destruct Hw as [Hnames Hshown].
    destruct (screen_dispatch env (ctrl w) _ Hnd Hnames Hm1) as [Hnames' Hshown'].
    { intros j q Hj. destruct (Hshown j q Hj) as (Hdone & Hwait & Hcurrent).
      split; [| exact Hwait]. intros Hle.
      destruct (Z.eq_dec (Z.of_nat j) (currentAgentIndex (ctrl w))) as [Heq | Hlt].
      - exact (proj2 (Hcurrent Heq) Hp).
      - apply Hdone. lia. }
    destruct (processNextAgent_button env (ctrl w) Hm1) as (r & c' & es & Hrun & _ & Hoffer).
    rewrite Hrun in *. cbn [fields emitted fst snd app] in *.
    split; cbn [ctrl pending]; [rewrite Hseq; exact Hnames' |].
    intros j q Hj. rewrite Hidx. destruct (Hshown' j q Hj) as (Hdone & Hwait & Hmarks).
    split; [exact Hdone |]. split; [exact Hwait |]. intros Heq.
    split; [intros a _; exact (Hmarks Heq) |].
    destruct Hoffer as [-> | (a & -> & _)]; discriminate.
Qed.

Lemma screen_dismiss w cb p0 :
  on_rails w ->
  on_screen w (agentProgress (deliver (log w) p0)) ->
  on_screen (step w (Dismiss cb)) (agentProgress (deliver (log (step w (Dismiss cb))) p0)).
Proof.
  intros (_ & _ & _ & Hpending) Hw. cbn [step].
  destruct (answer cb (pending w)) as [open |] eqn:Hanswer; [| exact Hw].
  assert (open = []) as ->.
  { destruct Hpending as [Hp | [(current & Hp & _) | (Hp & _)]]; rewrite Hp in Hanswer;
      cbn [answer] in Hanswer; try discriminate;
      destruct (decide (_ = cb)); cbn in Hanswer; congruence. }
  destruct Hw as [Hnames Hshown]. split; cbn [ctrl pending log]; [exact Hnames |].
  intros j q Hj. destruct (Hshown j q Hj) as (Hdone & Hwait & _).
  split; [exact Hdone |]. split; [exact Hwait |].
  intros _. split; [intros a; discriminate | discriminate].
Qed.

Lemma screen_step w s p0 :
  guided s ->
  on_rails w ->
  NoDup (agentSequence (ctrl w)) ->
  on_screen w (agentProgress (deliver (log w) p0)) ->
  on_screen (step w s) (agentProgress (deliver (log (step w s)) p0)).
Proof.
  intros Hguided Hrails Hnd Hw. destruct s as [message env | agent rv | env | cb].
  - exact (screen_message w message env p0 Hguided Hw).
  - exact (screen_validate w agent rv p0 Hrails Hnd Hw).
  - exact (screen_continue w env p0 Hrails Hnd Hw).
  - exact (screen_dismiss w cb p0 Hrails Hw).
Qed.

Lemma screen_run ss p0 : forall w,
  Forall guided ss ->
  on_rails w ->
  NoDup (agentSequence (ctrl w)) ->
  on_screen w (agentProgress (deliver (log w) p0)) ->
  on_screen (run w ss) (agentProgress (deliver (log (run w ss)) p0)).
Proof.
  induction ss as [| s rest IH]; intros w Hall Hrails Hnd Hw; [exact Hw |].
  inversion Hall as [| ? ? Hs Hrest]; subst.
  change (run w (s :: rest)) with (run (step w s) rest).
  apply IH; [exact Hrest | exact (on_rails_step w s Hs Hrails) | |
             exact (screen_step w s p0 Hs Hrails Hnd Hw)].
  assert (plan (ctrl (step w s)) = plan (ctrl w)) as Hplan.
  { apply step_plan. intros data env ->. exact Hs. }
  unfold plan in Hplan. injection Hplan as -> _. exact Hnd.
Qed.

Lemma startSdlcProcess_panels p p' data :
  startSdlcProcess p = (p', [VscodePostMessage (MsgStartAgents data)]) ->
  agentProgress p' = fresh_panels 0 (agents data) /\ NoDup (agents data).
Proof.
  intros Hform. split.
  - revert Hform. unfold startSdlcProcess.
    destruct (falsy _ || falsy _ || falsy _); [discriminate |].
    destruct (checked_values (checkboxes p)) as [| first others]; [discriminate |].
    cbn [length Nat.eqb]. intros [= <- <-]. reflexivity.
  - destruct (startSdlcProcess_agents p p' data Hform) as [-> _].
    eapply sublist_NoDup; [| apply checked_values_known].
    apply NoDup_ListNoDup, known_agents_distinct.
Qed.

Lemma screen_start p p' data env :
  startSdlcProcess p = (p', [VscodePostMessage (MsgStartAgents data)]) ->
  on_screen (step boot (Receive (MsgStartAgents data) env))
    (agentProgress (deliver (log (step boot (Receive (MsgStartAgents data) env))) p')).
Proof.
  intros Hform. destruct (startSdlcProcess_panels p p' data Hform) as [Hfresh Hnd].
  destruct (start_run data env (ctrl boot)) as (c1 & es & Hrun & Hstart & Hseq & _ & Hidx).
  assert (-1 <= currentAgentIndex (restarted data)) as Hm1 by (cbn; lia).
  destruct (screen_dispatch env (restarted data) (fresh_panels 0 (agents data)) Hnd
              (names_fresh_panels (agents data) 0%nat) Hm1) as [Hnames Hshown].
  { intros j q Hj. split; [cbn; lia |]. intros _. exact (fresh_panels_waiting _ _ _ _ Hj). }
  destruct (processNextAgent_button env (restarted data) Hm1)
    as (r & c' & es' & Hrun' & _ & Hoffer).
  rewrite Hrun in Hnames, Hshown, Hrun'. injection Hrun' as <- <- <-.
  unfold emitted in Hnames, Hshown. cbn [snd] in Hnames, Hshown.
  cbn [step]. rewrite commit_run, Hstart. unfold fields, emitted.
  cbn [fst snd ctrl pending log boot app].
  rewrite agentProgress_deliver, Hfresh.
  change (statuses (PostMessage (setAgentSequence (agents data)) :: es)) with (statuses es).
  split; cbn [ctrl pending]; [rewrite Hseq; exact Hnames |].
  intros j q Hj. rewrite Hidx.
  destruct (Hshown j q Hj) as (Hdone & Hwait & Hmarks). cbn in Hdone, Hwait, Hmarks.
  split; [exact Hdone |]. split; [exact Hwait |]. intros Heq.
  split; [intros a _; exact (Hmarks Heq) |].
  cbn [offered]. destruct Hoffer as [-> | (a & -> & _)]; discriminate.
Qed.

Lemma completion_stays_shown es : forall p,
  completionPanel_hidden p = false -> completionPanel_hidden (deliver es p) = false.
Proof.
  induction es as [| e rest IH]; intros p Hp; [exact Hp |].
  change (deliver (e :: rest) p)
    with (deliver rest (match e with PostMessage m => onMessage m p | _ => p end)).
  apply IH. destruct e as [m | | | | | | | | |]; try exact Hp.
  destruct m; try exact Hp. reflexivity.
Qed.

Lemma completion_shown es : forall p,
  In (PostMessage agentsCompleted) es -> completionPanel_hidden (deliver es p) = false.
Proof.
  induction es as [| e rest IH]; intros p Hmem; [destruct Hmem |].
  change (deliver (e :: rest) p)
    with (deliver rest (match e with PostMessage m => onMessage m p | _ => p end)).
  destruct Hmem as [-> | Hmem]; [| exact (IH _ Hmem)].
  apply completion_stays_shown. reflexivity.
Qed.

(** X23.  The progress list follows the run.  When a run is started
    from the form and advanced with the buttons only, and the page
    receives the controller's messages in the order they were posted, the
    list keeps one panel per selected agent, in order; every agent before
    the current one shows "Completed" with one check mark, every agent
    after it shows "Waiting..." with none; and once the end of the process
    has been announced the completion panel is shown and every panel shows
    "Completed" with one check mark. *)
Theorem progress_list_follows_the_run p p' data env ss :
  startSdlcProcess p = (p', [VscodePostMessage (MsgStartAgents data)]) ->
  Forall guided ss ->
  let w := run boot (Receive (MsgStartAgents data) env :: ss) in
  let page := deliver (log w) p' in
  map panel_agent (agentProgress page) = agents data /\
  (forall (j : nat) q,
     agentProgress page !! j = Some q ->
     (Z.of_nat j < currentAgentIndex (ctrl w) ->
      panel_status q = "Completed" /\ panel_marks q = 1%nat) /\
     (currentAgentIndex (ctrl w) < Z.of_nat j ->
      panel_status q = "Waiting..." /\ panel_marks q = 0%nat)) /\
  (In (PostMessage agentsCompleted) (log w) ->
   completionPanel_hidden page = false /\
   Forall (fun q => panel_status q = "Completed" /\ panel_marks q = 1%nat)
          (agentProgress page)).
Proof.
  intros Hform Hall w page. subst page.
  change w with (run (step boot (Receive (MsgStartAgents data) env)) ss) in *. clear w.
  set (w0 := step boot (Receive (MsgStartAgents data) env)).
  assert (plan (ctrl w0) = (agents data, Some data)) as Hstart.
  { unfold w0. cbn [step]. rewrite commit_run. apply start_plan. }
  assert (agentSequence (ctrl w0) = agents data) as Hseq0
    by (unfold plan in Hstart; congruence).
  destruct (startSdlcProcess_panels p p' data Hform) as [_ Hnd].
  destruct (guided_run ss w0 Hall (in_order_step boot _ in_order_boot)
              (announced_start data env)) as [Hend Hplan].
  assert (agentSequence (ctrl (run w0 ss)) = agents data) as Hseq
    by (unfold plan in Hplan; congruence).
  destruct (screen_run ss p' w0 Hall (on_rails_start data env)
              ltac:(rewrite Hseq0; exact Hnd) (screen_start p p' data env Hform))
    as [Hnames Hshown].
  split; [rewrite Hnames; exact Hseq |].
  split.
  - intros j q Hj. destruct (Hshown j q Hj) as (Hdone & Hwait & _).
    split; [exact Hdone | exact Hwait].
  - intros Hdone. split; [exact (completion_shown _ _ Hdone) |].
    specialize (Hend Hdone). apply Forall_lookup_2. intros j q Hj.
    destruct (Hshown j q Hj) as (Hbefore & _). apply Hbefore.
    assert (j < length (agentSequence (ctrl (run w0 ss))))%nat as Hlen.
    { rewrite <- Hnames, length_map. eapply lookup_lt_Some, Hj. }
    lia.
Qed.

Lemma progress_list_follows_the_run_witness :
  map panel_agent
    (agentProgress
       (deliver
          (log (run boot
                  [Receive (MsgStartAgents (form ["Requirements"; "Architecture"]))
                     (answers (JObj [("stories", JStr "login")]));
                   PressValidate "Requirements"
                     (submits (JObj [("stories", JStr "login")]))]))
          (fst (startSdlcProcess
                  {| requirements_value := "a shop"; context_value := "web";
                     title_value := "Shop";
                     checkboxes := {| kb := false; req := true; arch := true;
                                      skel := false; gen := false |};
                     inputForm_hidden := false; progressPanel_hidden := true;
                     currentAgentPanel_hidden := true; completionPanel_hidden := true;
                     currentAgentName := ""; currentAgentStatus := None;
                     agentProgress := []; banners := []; selectedAgents := [];
                     state_agentSequence := None |}))))
    = ["Requirements"; "Architecture"].
Proof.
  assert (Forall guided
            [PressValidate "Requirements" (submits (JObj [("stories", JStr "login")]))])
    as Hguided by (repeat constructor).
  exact (proj1 (progress_list_follows_the_run
                  {| requirements_value := "a shop"; context_value := "web";
                     title_value := "Shop";
                     checkboxes := {| kb := false; req := true; arch := true;
                                      skel := false; gen := false |};
                     inputForm_hidden := false; progressPanel_hidden := true;
                     currentAgentPanel_hidden := true; completionPanel_hidden := true;
                     currentAgentName := ""; currentAgentStatus := None;
                     agentProgress := []; banners := []; selectedAgents := [];
                     state_agentSequence := None |}
                  _ (form ["Requirements"; "Architecture"])
                  (answers (JObj [("stories", JStr "login")]))
                  [PressValidate "Requirements" (submits (JObj [("stories", JStr "login")]))]
                  eq_refl Hguided)).
Defined.

End Screen.

(** ** What lasts until the next start *)

Section Lasting.

Lemma resuming_not_start s :
  resuming s -> forall data env, s <> Receive (MsgStartAgents data) env.
Proof. intros Hs data env ->. exact Hs. Qed.

Lemma entries_kept_step w s name :
  in_order w ->
  resuming s ->
  is_Some (agentOutputs (ctrl w) !! name) ->
  is_Some (agentOutputs (ctrl (step w s)) !! name).
Proof.
  intros (Hlow & _ & _) Hs Hname.
  destruct s as [[data | | agentName taskName output | data | data] env | agent rv | env | cb];
    cbn [step]; try destruct Hs.
  - rewrite commit_run. cbn [ctrl].
    destruct (processNextAgent_button env (ctrl w) Hlow) as (r & c' & es & Hrun & Hkeep & _).
    unfold onDidReceiveMessage, try_catch. rewrite Hrun.
    destruct r as [[] | e]; cbn; exact (Hkeep name Hname).
  - rewrite commit_run. cbn [ctrl].
    destruct (discreet_message (MsgValidateTask agentName taskName output) env I (ctrl w))
      as [[_ Hkeep] _]. exact (Hkeep name Hname).
  - rewrite commit_run. cbn [ctrl].
    destruct (discreet_message (MsgSaveData data) env I (ctrl w)) as [[_ Hkeep] _].
    exact (Hkeep name Hname).
  - rewrite commit_run. cbn [ctrl].
    destruct (discreet_message (MsgLog data) env I (ctrl w)) as [[_ Hkeep] _].
    exact (Hkeep name Hname).
  - destruct (answer (OnValidate agent) (pending w)) as [rest |]; [| exact Hname].
    rewrite commit_run. cbn [ctrl].
    destruct (validateCurrentAgentOutput_button agent rv (ctrl w))
      as (r & c' & es & Hrun & [_ Hkeep] & _).
    rewrite Hrun. exact (Hkeep name Hname).
  - destruct (answer OnContinue (pending w)) as [rest |]; [| exact Hname].
    rewrite commit_run. cbn [ctrl].
    destruct (processNextAgent_button env (ctrl w) Hlow) as (r & c' & es & Hrun & Hkeep & _).
    rewrite Hrun. exact (Hkeep name Hname).
  - destruct (answer cb (pending w)) as [rest |]; exact Hname.
Qed.

Lemma entries_kept_run ss name : forall w,
  in_order w ->
  Forall resuming ss ->
  is_Some (agentOutputs (ctrl w) !! name) ->
  is_Some (agentOutputs (ctrl (run w ss)) !! name).
Proof.
  induction ss as [| s rest IH]; intros w Horder Hall Hname; [exact Hname |].
  inversion Hall as [| ? ? Hs Hrest]; subst.
  change (run w (s :: rest)) with (run (step w s) rest).
  apply IH; [exact (in_order_step w s Horder) | exact Hrest |].
  exact (entries_kept_step w s name Horder Hs Hname).
Qed.

(** X24.  Only a [startAgents] message empties the store.  Along every
    run, an agent that has an entry in the store keeps one (its value may
    change) whatever happens next, errors included, until the next
    [startAgents]. *)
Theorem entries_survive_until_restart before after name :
  Forall resuming after ->
  is_Some (agentOutputs (ctrl (run boot before)) !! name) ->
  is_Some (agentOutputs (ctrl (run boot (before ++ after))) !! name).
Proof.
  intros Hall Hname. unfold run. rewrite fold_left_app.
  exact (entries_kept_run after name (run boot before)
           (in_order_run before boot in_order_boot) Hall Hname).
Qed.

Lemma entries_survive_until_restart_witness :
  is_Some
    (agentOutputs
       (ctrl (run boot
                ([Receive (MsgStartAgents (form ["Requirements"; "Architecture"]))
                    (answers (JObj [("stories", JStr "login")]))]
                 ++ [Receive MsgContinueAgent (refuses 500);
                     Receive MsgContinueAgent (refuses 500)])))
       !! "Requirements").
Proof.
  apply (entries_survive_until_restart
           [Receive (MsgStartAgents (form ["Requirements"; "Architecture"]))
              (answers (JObj [("stories", JStr "login")]))]
           [Receive MsgContinueAgent (refuses 500); Receive MsgContinueAgent (refuses 500)]
           "Requirements").
  - repeat constructor.
  - vm_compute. eexists. reflexivity.
Defined.

(** X25.  Whatever the human does with the page and whatever messages
    arrive, the only message the page ever posts to the extension is
    [startAgents]; apart from it the page only raises alerts.  The
    [continueAgent], [validateTask], [saveData] and [log] cases of the
    controller's listener are never reached from this page. *)
Theorem page_posts_only_startAgents p i :
  Forall alert_or_start (snd (page_step p i)).
Proof.
  destruct i as [requirements context title boxes | | | message |];
    cbn [page_step snd]; try constructor.
  unfold startSdlcProcess.
  destruct (falsy _ || falsy _ || falsy _); [repeat constructor |].
  destruct (length (checked_values (checkboxes p)) =? 0)%nat; repeat constructor.
Qed.

End Lasting.

(** ** The document behind the Validate button *)

Section Documents.

Lemma openOutputInEditor_documents agent output w c :
  (forall name,
     is_Some (tempFilePaths c !! name) ->
     is_Some (tempFilePaths (fields (openOutputInEditor agent output w c)) !! name)) /\
  (offered (emitted (openOutputInEditor agent output w c)) = [] \/
   (offered (emitted (openOutputInEditor agent output w c)) = [OnValidate agent] /\
    is_Some (tempFilePaths (fields (openOutputInEditor agent output w c)) !! agent))).
Proof.
  assert (forall path name,
            is_Some (tempFilePaths c !! name) ->
            is_Some (<[agent := path]> (tempFilePaths c) !! name)) as Hkept.
  { intros path name Hname. apply lookup_insert_is_Some.
    destruct (decide (agent = name)); auto. }
  assert (forall path, is_Some (<[agent := path]> (tempFilePaths c) !! agent)) as Hnew.
  { intros path. apply lookup_insert_is_Some. auto. }
  destruct w as [clock [e1 |] [e2 |] [e3 |] [e4 |]];
    (split; [intros name Hname; cbn; first [exact Hname | apply Hkept, Hname]
            | cbn; first [left; reflexivity | right; split; [reflexivity | apply Hnew]]]).
Qed.

Lemma dispatch_documents agent inputs c env c1 :
  exists r c' es,
    try_catch
      (output <- invoke agent inputs c (reply env) ;;
       modify (set_agentOutputs <[agent := output]>) ;;
       openOutputInEditor agent output (bench env) ;;
       tasks <- lift (Object_keys output) ;;
       postMessage (validateAgent agent tasks output))
      (fun err =>
         emit (ConsoleError ("Error in agent " +:+ agent +:+ ":") err) ;;
         postMessage (error ("Agent " +:+ agent +:+ " failed: " +:+ String_of err)))
      c1 = (r, c', es) /\
    (forall name, is_Some (tempFilePaths c1 !! name) -> is_Some (tempFilePaths c' !! name)) /\
    (offered es = [] \/ (offered es = [OnValidate agent] /\ is_Some (tempFilePaths c' !! agent))).
Proof.
  unfold try_catch. unfold bind at 1.
  destruct (discreet_invoke agent inputs c (reply env) c1) as [_ Hq2].
  pose proof (invoke_fields agent inputs c (reply env) c1) as Hsame.
  destruct (invoke agent inputs c (reply env) c1) as [[[output | e] c2] es2];
    cbn [fields emitted fst snd] in *; subst c2.
  - unfold bind at 1, modify at 1. unfold bind at 1.
    destruct (openOutputInEditor_documents agent output (bench env)
                (set_agentOutputs <[agent := output]> c1)) as [Hk4 Hb4].
    destruct (openOutputInEditor agent output (bench env) _) as [[[[] | e4] c4] es4];
      cbn [fields emitted fst snd] in *.
    + unfold bind at 1. destruct (Object_keys output) as [e5 | tasks]; cbn;
        (eexists _, _, _; split; [reflexivity |]);
        (split; [exact Hk4 |]);
        rewrite !offered_app, (offered_buttonless es2) by (by apply quiet_buttonless);
        cbn; rewrite ?app_nil_r; exact Hb4.
    + cbn. eexists _, _, _; split; [reflexivity |].
      split; [exact Hk4 |].
      rewrite !offered_app, (offered_buttonless es2) by (by apply quiet_buttonless).
      cbn; rewrite ?app_nil_r; exact Hb4.
  - cbn. eexists _, _, _; split; [reflexivity |]. split; [auto |]. left.
    rewrite !offered_app, (offered_buttonless es2) by (by apply quiet_buttonless).
    reflexivity.
Qed.

Lemma processNextAgent_documents env c :
  exists r c' es,
    processNextAgent env c = (r, c', es) /\
    (forall name, is_Some (tempFilePaths c !! name) -> is_Some (tempFilePaths c' !! name)) /\
    (forall agent, In (OnValidate agent) (offered es) -> is_Some (tempFilePaths c' !! agent)).
Proof.
  unfold processNextAgent.
  unfold bind at 1 2, modify at 1, get at 1.
  cbn [set_currentAgentIndex initialInputs agentSequence currentAgentIndex].
  destruct (initialInputs c) as [inputs |].
  - destruct (Z.of_nat (length (agentSequence c)) <=? Z.succ (currentAgentIndex c)).
    + cbn. eexists _, _, _; split; [reflexivity |]. split; [auto |]. intros agent [].
    + unfold bind at 1, postMessage at 1, emit at 1.
      match goal with
      | |- context [try_catch (bind (invoke ?agent inputs ?c0 _) _) _ ?c1] =>
          destruct (dispatch_documents agent inputs c0 env c1)
            as (r & c' & es & -> & Hk & Hb)
      end.
      cbn. eexists _, _, _; split; [reflexivity |]. split; [exact Hk |].
      intros other Hmem. change (In (OnValidate other) (offered es)) in Hmem.
      destruct Hb as [Hb | [Hb Hready]]; rewrite Hb in Hmem.
      * destruct Hmem.
      * destruct Hmem as [[= <-] | []]. exact Hready.
  - cbn. eexists _, _, _; split; [reflexivity |]. split; [auto |]. intros agent [].
Qed.

Lemma documents_ready_dispatch w rest env c' r es :
  documents_ready w ->
  incl rest (pending w) ->
  processNextAgent env (ctrl w) = (r, c', es) ->
  forall es',
    offered es' = [] ->
    documents_ready {| ctrl := c'; pending := rest ++ offered (es ++ es'); log := log w ++ es ++ es' |}.
Proof.
  intros Hw Hrest Hrun es' Hquiet agent Hmem. cbn [ctrl pending] in *.
  destruct (processNextAgent_documents env (ctrl w)) as (r0 & c0 & es0 & Hrun0 & Hkeep & Hnew).
  rewrite Hrun in Hrun0. injection Hrun0 as <- <- <-.
  rewrite offered_app, Hquiet, app_nil_r in Hmem.
  apply in_app_or in Hmem as [Hold | Hfresh].
  - apply Hkeep, Hw, Hrest, Hold.
  - exact (Hnew agent Hfresh).
Qed.

Lemma documents_ready_step w s :
  resuming s ->
  accounted w ->
  documents_ready w -> documents_ready (step w s).
Proof.
  intros Hs [Hdocs _] Hw.
  destruct s as [[data | | agentName taskName output | data | data] env | agent rv | env | cb];
    cbn [step]; try destruct Hs.
  - rewrite commit_run. unfold onDidReceiveMessage, try_catch.
    destruct (processNextAgent env (ctrl w)) as [[[[] | e] c'] es] eqn:Hrun.
    + pose proof (documents_ready_dispatch w (pending w) env c' _ es Hw (incl_refl _) Hrun
                    [] eq_refl) as Hready.
      rewrite !app_nil_r in Hready. exact Hready.
    + exact (documents_ready_dispatch w (pending w) env c' _ es Hw (incl_refl _) Hrun
               [ConsoleError "Error handling message:" e;
                PostMessage (error ("Failed to process request: " +:+ String_of e))]
               eq_refl).
  - rewrite commit_run.
    destruct (message_domain (MsgValidateTask agentName taskName output) env (ctrl w) I)
      as [Hsame _].
    destruct (discreet_message (MsgValidateTask agentName taskName output) env I (ctrl w))
      as [_ Hquiet].
    intros agent Hmem. cbn [ctrl pending] in *.
    rewrite (offered_buttonless _ (quiet_buttonless _ Hquiet)), app_nil_r in Hmem.
    rewrite Hsame. exact (Hw agent Hmem).
  - rewrite commit_run.
    destruct (message_domain (MsgSaveData data) env (ctrl w) I) as [Hsame _].
    destruct (discreet_message (MsgSaveData data) env I (ctrl w)) as [_ Hquiet].
    intros agent Hmem. cbn [ctrl pending] in *.
    rewrite (offered_buttonless _ (quiet_buttonless _ Hquiet)), app_nil_r in Hmem.
    rewrite Hsame. exact (Hw agent Hmem).
  - rewrite commit_run.
    destruct (message_domain (MsgLog data) env (ctrl w) I) as [Hsame _].
    destruct (discreet_message (MsgLog data) env I (ctrl w)) as [_ Hquiet].
    intros agent Hmem. cbn [ctrl pending] in *.
    rewrite (offered_buttonless _ (quiet_buttonless _ Hquiet)), app_nil_r in Hmem.
    rewrite Hsame. exact (Hw agent Hmem).
  - destruct (answer (OnValidate agent) (pending w)) as [rest |] eqn:Hanswer; [| exact Hw].
    rewrite commit_run.
    destruct (validateCurrentAgentOutput_domain agent rv (ctrl w) Hdocs) as [Hsame _].
    destruct (validateCurrentAgentOutput_button agent rv (ctrl w))
      as (r & c' & es & Hrun & _ & Hoffer).
    rewrite Hrun in *. cbn [fields emitted fst snd] in *.
    intros other Hmem. cbn [ctrl pending] in *. rewrite Hsame.
    apply in_app_or in Hmem as [Hold | Hfresh].
    + exact (Hw other (answer_incl _ _ _ Hanswer _ Hold)).
    + destruct Hoffer as [Hnone | [Hone _]]; rewrite ?Hnone, ?Hone in Hfresh.
      * destruct Hfresh.
      * destruct Hfresh as [Hbad | []]. discriminate.
  - destruct (answer OnContinue (pending w)) as [rest |] eqn:Hanswer; [| exact Hw].
    rewrite commit_run.
    destruct (processNextAgent env (ctrl w)) as [[r c'] es] eqn:Hrun.
    pose proof (documents_ready_dispatch w rest env c' r es Hw (answer_incl _ _ _ Hanswer)
                  Hrun [] eq_refl) as Hready.
    rewrite !app_nil_r in Hready. exact Hready.
  - destruct (answer cb (pending w)) as [rest |] eqn:Hanswer; [| exact Hw].
    intros agent Hmem. cbn [ctrl pending] in *.
    exact (Hw agent (answer_incl _ _ _ Hanswer _ Hmem)).
Qed.

Lemma documents_ready_run ss : forall w,
  Forall resuming ss ->
  in_order w -> accounted w ->
  documents_ready w -> documents_ready (run w ss).
Proof.
  induction ss as [| s rest IH]; intros w Hall Horder Hacc Hw; [exact Hw |].
  inversion Hall as [| ? ? Hs Hrest]; subst.
  change (run w (s :: rest)) with (run (step w s) rest).
  apply IH; [exact Hrest | exact (in_order_step w s Horder) |
             exact (accounted_step w s Horder Hacc) |
             exact (documents_ready_step w s Hs Hacc Hw)].
Qed.

Lemma documents_ready_start data env :
  documents_ready (step boot (Receive (MsgStartAgents data) env)).
Proof.
  destruct (start_run data env (ctrl boot)) as (c1 & es & Hrun & Hstart & _).
  destruct (processNextAgent_documents env (restarted data))
    as (r0 & c0 & es0 & Hrun0 & _ & Hnew).
  rewrite Hrun in Hrun0. injection Hrun0 as <- <- <-.
  cbn [step]. rewrite commit_run, Hstart. unfold fields, emitted.
  cbn [fst snd]. intros agent Hmem. cbn [ctrl pending boot app offered] in *.
  exact (Hnew agent Hmem).
Qed.

Lemma validateCurrentAgentOutput_opens agent rv c path :
  tempFilePaths c !! agent = Some path ->
  exists rest,
    emitted (validateCurrentAgentOutput agent rv c) = OpenTextDocument path :: rest.
Proof.
  intros Hpath.
  unfold validateCurrentAgentOutput, try_catch. unfold bind at 1, get at 1.
  rewrite Hpath. unfold bind at 1, emit at 1.
  match goal with
  | |- context [bind ?m ?k ?c0] => destruct (bind m k c0) as [[[[] | e] c2] es2]
  end.
  - cbn. eexists. reflexivity.
  - destruct e; cbn; eexists; reflexivity.
Qed.

(** X26.  In a run after one [startAgents], whatever else happens, a
    [Validate] button on screen belongs to an agent whose review document
    is registered, so the press never ends with "No file found": the
    handler opens that document. *)
Theorem validate_button_has_its_document data env ss agent :
  Forall resuming ss ->
  In (OnValidate agent) (pending (run boot (Receive (MsgStartAgents data) env :: ss))) ->
  exists path,
    tempFilePaths (ctrl (run boot (Receive (MsgStartAgents data) env :: ss))) !! agent
      = Some path /\
    forall rv, exists rest,
      emitted (validateCurrentAgentOutput agent rv
                 (ctrl (run boot (Receive (MsgStartAgents data) env :: ss))))
        = OpenTextDocument path :: rest.
Proof.
  intros Hall.
  change (run boot (Receive (MsgStartAgents data) env :: ss))
    with (run (step boot (Receive (MsgStartAgents data) env)) ss).
  intros Hbutton.
  destruct (documents_ready_run ss (step boot (Receive (MsgStartAgents data) env)) Hall
              (in_order_step boot _ in_order_boot)
              (accounted_step boot _ in_order_boot accounted_boot)
              (documents_ready_start data env) agent Hbutton) as [path Hpath].
  exists path. split; [exact Hpath |].
  intros rv. exact (validateCurrentAgentOutput_opens agent rv _ path Hpath).
Qed.

Lemma validate_button_has_its_document_witness :
  exists path,
    tempFilePaths
      (ctrl (run boot
               [Receive (MsgStartAgents (form ["Requirements"]))
                  (answers (JObj [("stories", JStr "login")]));
                Receive (MsgLog (JStr "hello")) (answers JNull)]))
      !! "Requirements" = Some path.
Proof.
  destruct (validate_button_has_its_document (form ["Requirements"])
              (answers (JObj [("stories", JStr "login")]))
              [Receive (MsgLog (JStr "hello")) (answers JNull)] "Requirements")
    as (path & Hpath & _).
  - repeat constructor.
  - vm_compute. left. reflexivity.
  - exists path. exact Hpath.
Defined.

End Documents.
